(** * Verification of [airflow.sdk.log]

    A shallow embedding of [task_sdk/src/airflow/sdk/log.py]: the field
    processors, the sink adapter, the memoized pipeline builder, the
    configure/reset life cycle and the warning bridge, followed by the
    properties stated about them.

    Python objects are modelled by their observable content; where object
    identity matters (the memoized pipeline) an object carries the
    allocation number it received when it was built.  Module-level globals
    and the [functools.cache] tables live in an explicit process state that
    is threaded through a small state-and-exception monad. *)

From stdpp Require Import base option list strings pretty gmap.
From Stdlib Require Import ZArith Lia ZifyBool.
Open Scope string_scope.
Open Scope list_scope.
Set Warnings "-register-all".

(** ** Python values *)

Module Py.

(** A traceback frame as [structlog] reads it from the interpreter:
    [rf_filename] is the absolute path of the frame's file (or the name
    itself when it starts with [<]). *)
Record RawFrame := {
  rf_filename : string;
  rf_lineno : Z;
  rf_name : string;
  rf_locals : list (string * string)
}.

(** An exception instance.  [exc_type] is the name of its class and
    [exc_msg] its [str()]; [exc_tb] is [__traceback__] (the empty list
    stands for [None]); [exc_cause], [exc_context] and
    [exc_suppress_context] are [__cause__], [__context__] and
    [__suppress_context__].  [exc_subs] is [Some l] exactly when the
    object is an instance of the builtin [BaseExceptionGroup] whose
    [exceptions] attribute is [l]. *)
Inductive PyExc := BaseException {
  exc_type : string;
  exc_msg : string;
  exc_tb : list RawFrame;
  exc_cause : option PyExc;
  exc_subs : option (list PyExc);
  exc_context : option PyExc;
  exc_suppress_context : bool
}.

(** The values an event dictionary can hold. *)
Inductive Value :=
| VNone
| VBool (b : bool)
| VInt (z : Z)
| VStr (s : string)
| VList (l : list Value)
| VTuple (l : list Value)
| VDict (d : list (string * Value))
| VExc (e : PyExc)
| VClass (name : string) (exception_class : bool)
| VTraceback (tb : list RawFrame)
| VObj (repr : string).

(** An [ExcInfo] tuple [(type, value, traceback)]: the name of the class,
    the exception and the frames of the traceback ([None] has none). *)
Definition ExcInfo : Type := string * PyExc * list RawFrame.

(** [(type(exc), exc, exc.__traceback__)] *)
Definition exc_info_tuple (exc : PyExc) : ExcInfo := (exc_type exc, exc, exc_tb exc).

(** [EventDict]: a [dict] keeps insertion order and has unique keys. *)
Abbreviation EventDict := (list (string * Value)).

Definition wf_dict (d : EventDict) : Prop := NoDup (d.*1).

(** [d.get(k, None)] *)
Fixpoint dict_get {A} (k : string) (d : list (string * A)) : option A :=
  match d with
  | [] => None
  | (k', v) :: r => if String.eqb k k' then Some v else dict_get k r
  end.

(** [d[k] = v]: an existing key keeps its position, a new key goes last. *)
Fixpoint dict_set {A} (k : string) (v : A) (d : list (string * A))
    : list (string * A) :=
  match d with
  | [] => [(k, v)]
  | (k', v') :: r =>
      if String.eqb k k' then (k, v) :: r else (k', v') :: dict_set k v r
  end.

(** [del d[k]] / [d.pop(k, None)] on the dictionary itself. *)
Fixpoint dict_del {A} (k : string) (d : list (string * A)) : list (string * A) :=
  match d with
  | [] => []
  | (k', v') :: r =>
      if String.eqb k k' then r else (k', v') :: dict_del k r
  end.

(** [d.setdefault(k, v)] *)
Definition dict_setdefault {A} (k : string) (v : A) (d : list (string * A))
    : list (string * A) :=
  match dict_get k d with
  | Some _ => d
  | None => dict_set k v d
  end.

(** Truth value of an object, as [if x:] tests it. *)
Definition truthy (v : Value) : bool :=
  match v with
  | VNone => false
  | VBool b => b
  | VInt z => negb (z =? 0)%Z
  | VStr s => negb (String.eqb s "")
  | VList l | VTuple l => match l with [] => false | _ => true end
  | VDict d => match d with [] => false | _ => true end
  | VExc _ | VClass _ _ | VTraceback _ | VObj _ => true
  end.

(** [x is True] *)
Definition is_True (v : Value) : bool :=
  match v with VBool true => true | _ => false end.

(** [isinstance(v, str) and v.startswith(p)] *)
Definition str_startswith (p : string) (v : Value) : bool :=
  match v with VStr s => String.prefix p s | _ => false end.

(** The exception classes the module raises or tests for.
    [KeyboardInterrupt] and [SystemExit] derive from [BaseException] only;
    every other class here derives from [Exception]. *)
Inductive PyErr :=
| ValueError (msg : string)
| KeyError (key : string)
| TypeError (msg : string)
| OSError (msg : string)
| NameError (msg : string)
| OverflowError (msg : string)
| RecursionError
| KeyboardInterrupt
| SystemExit.

Definition isinstance_Exception (e : PyErr) : bool :=
  match e with
  | KeyboardInterrupt | SystemExit => false
  | _ => true
  end.

Definition isinstance_RecursionError (e : PyErr) : bool :=
  match e with RecursionError => true | _ => false end.

(** Result of a call: a value, or a raised exception. *)
Inductive Outcome (A : Type) :=
| Return (a : A)
| Raise (e : PyErr).
Arguments Return {A} a.
Arguments Raise {A} e.

(** One statement after another: an exception raised by the first ends
    the sequence. *)
Definition and_then {A B} (o : Outcome A) (f : A -> Outcome B) : Outcome B :=
  match o with
  | Return a => f a
  | Raise e => Raise e
  end.

(** [str.lower()] / [str.upper()] on the ASCII letters. *)
Definition ascii_lower (c : Ascii.ascii) : Ascii.ascii :=
  let n := Ascii.N_of_ascii c in
  if ((65 <=? n) && (n <=? 90))%N then Ascii.ascii_of_N (n + 32) else c.

Definition ascii_upper (c : Ascii.ascii) : Ascii.ascii :=
  let n := Ascii.N_of_ascii c in
  if ((97 <=? n) && (n <=? 122))%N then Ascii.ascii_of_N (n - 32) else c.

Fixpoint str_map (f : Ascii.ascii -> Ascii.ascii) (s : string) : string :=
  match s with
  | EmptyString => EmptyString
  | String c r => String (f c) (str_map f r)
  end.

Definition lower : string -> string := str_map ascii_lower.
Definition upper : string -> string := str_map ascii_upper.

End Py.
Import Py.

(** The part of the interpreter's environment the module inspects.
    [has_BaseExceptionGroup] is the value of
    [hasattr(__builtins__, "BaseExceptionGroup")] inside [log.py]: true
    where [__builtins__] is the [builtins] module of a Python that has the
    class (the file run as a script on Python 3.11 or later), false where
    the class is missing and where [__builtins__] is a dictionary, as it
    is on CPython in every module that is imported. *)
Record Runtime := {
  (** [hasattr(__builtins__, "BaseExceptionGroup")] *)
  has_BaseExceptionGroup : bool;
  (** ["PYTEST_CURRENT_TEST" in os.environ] *)
  pytest_current_test : bool;
  (** the directory of the [__file__] of the module of that name *)
  module_dir : string -> string
}.

(** ** Field processors *)

(** The bound logger handed to every processor; none of them looks at it. *)
Definition Logger := unit.

(** What the name [BaseExceptionGroup] stands for inside
    [exception_group_tracebacks].  The [class] statement in the body of
    the function makes the name a local variable of the function, which
    the inner function reads through its closure.  The variable is bound
    only when the [class] statement runs, that is when the test with
    [hasattr] fails; the stand-in class bound then has no instances. *)
Inductive Cell :=
| unbound
| stand_in_class.

Definition BaseExceptionGroup (rt : Runtime) : Cell :=
  if has_BaseExceptionGroup rt then unbound else stand_in_class.

(** [v] as a group, when [isinstance(v, BaseExceptionGroup)] holds inside
    the processor.  Reading the unbound variable raises [NameError];
    nothing is an instance of the stand-in class. *)
Definition unbound_BaseExceptionGroup : PyErr :=
  NameError ("cannot access free variable 'BaseExceptionGroup' where it "
             +:+ "is not associated with a value in enclosing scope").

Definition isinstance_BaseExceptionGroup (rt : Runtime) (v : Value)
    : Outcome (option PyExc) :=
  match BaseExceptionGroup rt with
  | unbound => Raise unbound_BaseExceptionGroup
  | stand_in_class => Return None
  end.

(** [group.exceptions] *)
Definition exceptions (e : PyExc) : list PyExc := default [] (exc_subs e).

(** [sys.exc_info()] for the exception being handled, if any. *)
Definition exc_info_of (cur : option PyExc) : Value :=
  match cur with
  | Some e =>
      VTuple [VClass (exc_type e) true; VExc e;
              match exc_tb e with [] => VNone | tb => VTraceback tb end]
  | None => VTuple [VNone; VNone; VNone]
  end.

Definition exception_group_tracebacks (rt : Runtime)
    (format_exception : ExcInfo -> list Value) (sys_exc_info : option PyExc)
    (logger : Logger) (method_name : string) (event_dict : EventDict)
    : Outcome EventDict :=
  let exc_info := default VNone (dict_get "exc_info" event_dict) in
  if truthy exc_info then
    let exc_info :=
      if is_True exc_info then
        match exc_info_of sys_exc_info with
        | VTuple (VNone :: _) => VNone
        | t => t
        end
      else exc_info in
    and_then
      match exc_info with
      | VTuple [_; value; _] =>
          and_then (isinstance_BaseExceptionGroup rt value) (fun group =>
            match group with
            | Some group => Return (Some group)
            | None => isinstance_BaseExceptionGroup rt exc_info
            end)
      | _ => isinstance_BaseExceptionGroup rt exc_info
      end
      (fun group =>
         match group with
         | Some group =>
             Return
               (dict_set "exception"
                  (VList (concat (map (fun exc => format_exception (exc_info_tuple exc))
                                    (exceptions group ++ [group]))))
                  (dict_del "exc_info" event_dict))
         | None => Return event_dict
         end)
  else Return event_dict.

Definition logger_name (logger : Logger) (method_name : string)
    (event_dict : EventDict) : EventDict :=
  let popped := default VNone (dict_get "logger_name" event_dict) in
  let event_dict := dict_del "logger_name" event_dict in
  if truthy popped then dict_setdefault "logger" popped event_dict
  else event_dict.

Definition redact_jwt (logger : Logger) (method_name : string)
    (event_dict : EventDict) : EventDict :=
  fold_left
    (fun d kv => if str_startswith "eyJ" kv.2
                 then dict_set kv.1 (VStr "eyJ***") d else d)
    event_dict event_dict.

Definition drop_positional_args (logger : Logger) (method_name : string)
    (event_dict : EventDict) : EventDict :=
  dict_del "positional_args" event_dict.

(** ** The libraries the module builds on

    [structlog], [logging] and [warnings] are not part of the repository.
    Only what [log.py] relies on is written down here: constructor
    defaults, the level tables, the shape of a traceback dictionary and the
    dispatch of a warning to [warnings.showwarning]. *)

Module Structlog.

(** [structlog.stdlib.NAME_TO_LEVEL] *)
Definition NAME_TO_LEVEL : list (string * Z) :=
  [("critical", 50); ("exception", 40); ("error", 40); ("warn", 30);
   ("warning", 30); ("info", 20); ("debug", 10); ("notset", 0)]%Z.

(** [structlog.tracebacks]: defaults of [ExceptionDictTransformer]. *)
Definition SHOW_LOCALS : bool := true.
Definition MAX_FRAMES : nat := 50.

(** A module object passed in a [suppress] tuple. *)
Record PyModule := { mod_name : string }.

(** [ExceptionDictTransformer(...)]; [suppress] holds directory paths. *)
Record ExceptionDictTransformer := {
  show_locals : bool;
  suppress : list string;
  max_frames : nat;
  use_rich : bool
}.

(** The constructor; an argument that is [None] was not passed and takes
    the library default.  [module_dir] gives the directory of a module's
    [__file__]. *)
Definition new_ExceptionDictTransformer (module_dir : string -> string)
    (show_locals : option bool) (suppress : option (list PyModule))
    (max_frames : option nat) (use_rich : option bool) : ExceptionDictTransformer :=
  {| show_locals := default SHOW_LOCALS show_locals;
     suppress := map (fun m => module_dir (mod_name m)) (default [] suppress);
     max_frames := default MAX_FRAMES max_frames;
     use_rich := default true use_rich |}.

(** [structlog.dev.RichTracebackFormatter(...)] as [log.py] calls it. *)
Record RichTracebackFormatter := {
  extra_lines : nat;
  rich_max_frames : nat;
  indent_guides : bool;
  rich_suppress : list PyModule
}.

(** A frame and a stack of [structlog.tracebacks]. *)
Record Frame := {
  filename : string;
  lineno : Z;
  name : string;
  locals : option (list (string * string))
}.

Record Stack := {
  st_exc_type : string;
  st_exc_value : string;
  st_is_cause : bool;
  st_frames : list Frame
}.

Definition frame_of (with_locals : bool) (f : RawFrame) : Frame :=
  {| filename := rf_filename f; lineno := rf_lineno f; name := rf_name f;
     locals := if with_locals then Some (rf_locals f) else None |}.

(** [extract(exc_type, exc_value, traceback)]: one stack for the
    exception, with the class name and the frames of the tuple, then the
    stacks of the exception it was raised from: its [__cause__] when that
    has a traceback, otherwise its [__context__] when that has a traceback
    and is not suppressed. *)
Fixpoint extract (with_locals is_cause : bool) (exc_type : string)
    (traceback : list RawFrame) (exc_value : PyExc) : list Stack :=
  {| st_exc_type := exc_type; st_exc_value := exc_msg exc_value;
     st_is_cause := is_cause;
     st_frames := map (frame_of with_locals) traceback |}
  :: match exc_value with
     | BaseException _ _ _ cause _ context suppress_context =>
         let from_context :=
           match context with
           | Some c =>
               match Py.exc_tb c with
               | [] => []
               | _ :: _ =>
                   if suppress_context then []
                   else extract with_locals false (Py.exc_type c) (Py.exc_tb c) c
               end
           | None => []
           end in
         match cause with
         | Some c =>
             match Py.exc_tb c with
             | [] => from_context
             | _ :: _ => extract with_locals true (Py.exc_type c) (Py.exc_tb c) c
             end
         | None => from_context
         end
     end.

(** Frames beyond [max_frames] are cut from the middle and replaced by one
    marker frame. *)
Definition skipped (n : nat) : Frame :=
  {| filename := ""; lineno := (-1)%Z;
     name := "Skipped frames: " +:+ pretty n; locals := None |}.

Definition cut_frames (max_frames : nat) (frames : list Frame) : list Frame :=
  if (length frames <=? max_frames)%nat then frames
  else
    let half := (max_frames / 2)%nat in
    take half frames ++ [skipped (length frames - 2 * half)%nat]
      ++ drop (length frames - half)%nat frames.

Definition cut_stack (max_frames : nat) (s : Stack) : Stack :=
  {| st_exc_type := st_exc_type s; st_exc_value := st_exc_value s;
     st_is_cause := st_is_cause s;
     st_frames := cut_frames max_frames (st_frames s) |}.

(** The stacks [ExceptionDictTransformer.__call__] turns into dictionaries. *)
Definition stacks (t : ExceptionDictTransformer) (exc_info : ExcInfo) : list Stack :=
  let '(exc_type, exc_value, traceback) := exc_info in
  map (cut_stack (max_frames t))
    (extract (show_locals t) false exc_type traceback exc_value).

Definition suppressed (t : ExceptionDictTransformer) (f : Frame) : bool :=
  existsb (fun path => String.prefix path (filename f)) (suppress t).

Definition locals_value (l : list (string * string)) : Value :=
  VDict (map (fun kv => (kv.1, VStr kv.2)) l).

(** A frame dictionary; [locals] is deleted when absent or when the file
    lies under a suppressed path.  The frame itself stays. *)
Definition frame_dict (t : ExceptionDictTransformer) (f : Frame) : Value :=
  VDict ([("filename", VStr (filename f)); ("lineno", VInt (lineno f));
          ("name", VStr (name f))]
         ++ match locals f with
            | Some l => if suppressed t f then [] else [("locals", locals_value l)]
            | None => []
            end).

(** A stack dictionary, without its notes, syntax-error and group
    entries. *)
Definition stack_dict (t : ExceptionDictTransformer) (s : Stack) : Value :=
  VDict [("exc_type", VStr (st_exc_type s)); ("exc_value", VStr (st_exc_value s));
         ("is_cause", VBool (st_is_cause s));
         ("frames", VList (map (frame_dict t) (st_frames s)))].

(** [ExceptionDictTransformer.__call__(exc_info)] *)
Definition format_exception (t : ExceptionDictTransformer) (exc_info : ExcInfo)
    : list Value :=
  map (stack_dict t) (stacks t exc_info).

(** [_figure_out_exc_info(v)]: an exception stands for its own tuple; a
    three-tuple of an exception class, an exception and a traceback or
    [None] is taken as it is; any other true value stands for the
    exception being handled, if there is one. *)
Definition figure_out_exc_info (sys_exc_info : option PyExc) (v : Value)
    : option ExcInfo :=
  let handled := if truthy v then exc_info_tuple <$> sys_exc_info else None in
  match v with
  | VExc e => Some (exc_info_tuple e)
  | VTuple [VClass name true; VExc e; VNone] => Some (name, e, [])
  | VTuple [VClass name true; VExc e; VTraceback tb] => Some (name, e, tb)
  | _ => handled
  end.

(** [structlog.processors.ExceptionRenderer(format_exception)] *)
Definition ExceptionRenderer (t : ExceptionDictTransformer)
    (sys_exc_info : option PyExc) (event_dict : EventDict) : EventDict :=
  let exc_info :=
    figure_out_exc_info sys_exc_info
      (default VNone (dict_get "exc_info" event_dict)) in
  let event_dict := dict_del "exc_info" event_dict in
  match exc_info with
  | Some exc_info =>
      dict_set "exception" (VList (format_exception t exc_info)) event_dict
  | None => event_dict
  end.

(** [ConsoleRenderer.get_default_level_styles()], by colour name. *)
Definition default_level_styles : list (string * string) :=
  [("critical", "RED"); ("exception", "RED"); ("error", "RED");
   ("warn", "YELLOW"); ("warning", "YELLOW"); ("info", "GREEN");
   ("debug", "GREEN"); ("notset", "RED_BACK")].

Definition CYAN : string := "CYAN".

(** A call of a level method on a bound logger: the values the logger was
    obtained with, the method's name, the event text and the keyword
    arguments. *)
Record LogCall := {
  initial_values : EventDict;
  method : string;
  event : string;
  kw : EventDict
}.

(** The event dictionary such a call hands to the first processor: the
    bound context, updated with the keywords, then the event. *)
Definition event_dict_of (c : LogCall) : EventDict :=
  dict_set "event" (VStr (event c))
    (fold_left (fun d kv => dict_set kv.1 kv.2 d) (kw c) (initial_values c)).

(** [structlog.processors.add_log_level] *)
Definition add_log_level (method_name : string) (event_dict : EventDict) : EventDict :=
  let level :=
    if String.eqb method_name "warn" then "warning"
    else if String.eqb method_name "exception" then "error"
    else method_name in
  dict_set "level" (VStr level) event_dict.

End Structlog.


(** ** The sink adapter *)

(** A Python [str]: its code points, each in [0, 0x10FFFF]. *)
Definition ustr := list Z.

Section Encoding.
Local Open Scope Z_scope.

Definition hex_digit (n : Z) : Z := if n <? 10 then 48 + n else 87 + n.

(** The [backslashreplace] error handler on a lone surrogate: the six
    ASCII characters of its [\uXXXX] escape. *)
Definition backslashreplace (cp : Z) : list Z :=
  [92; 117;
   hex_digit (Z.land (Z.shiftr cp 12) 15); hex_digit (Z.land (Z.shiftr cp 8) 15);
   hex_digit (Z.land (Z.shiftr cp 4) 15); hex_digit (Z.land cp 15)].

Definition utf8_char (cp : Z) : list Z :=
  if cp <? 0x80 then [cp]
  else if cp <? 0x800 then
    [Z.lor 0xC0 (Z.shiftr cp 6); Z.lor 0x80 (Z.land cp 0x3F)]
  else if (0xD800 <=? cp) && (cp <=? 0xDFFF) then backslashreplace cp
  else if cp <? 0x10000 then
    [Z.lor 0xE0 (Z.shiftr cp 12); Z.lor 0x80 (Z.land (Z.shiftr cp 6) 0x3F);
     Z.lor 0x80 (Z.land cp 0x3F)]
  else
    [Z.lor 0xF0 (Z.shiftr cp 18); Z.lor 0x80 (Z.land (Z.shiftr cp 12) 0x3F);
     Z.lor 0x80 (Z.land (Z.shiftr cp 6) 0x3F); Z.lor 0x80 (Z.land cp 0x3F)].

(** [bytearray(msg, "utf-8", "backslashreplace")] *)
Definition bytearray (msg : ustr) : list Z := concat (map utf8_char msg).


End Encoding.

(** UTF-8 in the reading direction, written down from the format itself
    (RFC 3629) and not from [utf8_char]: what a strict decoder, such as
    [bytes.decode("utf-8")], makes of a byte sequence.  It is the measure
    the bytes of [emit] are held against. *)
Section Decoding.
Local Open Scope Z_scope.





End Decoding.

(** [logging.LogRecord]; its content plays no role in [emit]. *)
Record LogRecord := { record_msg : string }.

(** What the destination stream's methods do when called. *)
Record BinaryIO := {
  write : list Z -> Outcome unit;
  flush : Outcome unit
}.

Record StdBinaryStreamHandler := {
  (** [self.format] *)
  format : LogRecord -> Outcome ustr;
  stream : BinaryIO
}.

(** What a call of [emit] does to the outside: bytes accepted by
    [stream.write], a completed flush, a call of [self.handleError]. *)
Inductive IOEvent :=
| written (buffer : list Z)
| flushed
| handleError (record : LogRecord).

(** The two [except] clauses, applied to an exception [e] raised in the
    [try] body after the events [done]. *)
Definition emit_except (record : LogRecord) (e : PyErr) (done : list IOEvent)
    : Outcome unit * list IOEvent :=
  if isinstance_RecursionError e then (Raise e, done)
  else if isinstance_Exception e then (Return (), done ++ [handleError record])
  else (Raise e, done).

Definition emit (self : StdBinaryStreamHandler) (record : LogRecord)
    : Outcome unit * list IOEvent :=
  match format self record with
  | Raise e => emit_except record e []
  | Return msg =>
      let buffer := bytearray msg in
      let buffer := buffer ++ [10%Z] in
      match write (stream self) buffer with
      | Raise e => emit_except record e []
      | Return _ =>
          match flush (stream self) with
          | Raise e => emit_except record e [written buffer]
          | Return _ => (Return (), [written buffer; flushed])
          end
      end
  end.

(** ** The pipeline builder *)

(** The processors that occur in a chain, by what they are.  The processor
    objects built by one run of [logging_processors] are created together
    and are told apart from those of another run by the allocation number
    of the list that holds them. *)
Module Proc.
Inductive t :=
| MaybeTimeStamper (fmt : string)
| merge_contextvars
| add_log_level
| PositionalArgumentsFormatter
| logger_name
| redact_jwt
| StackInfoRenderer
| exception_group_tracebacks (format_exception : Structlog.ExceptionDictTransformer)
| ExceptionRenderer (format_exception : Structlog.ExceptionDictTransformer)
| UnicodeDecoder
| JSONRenderer
| ConsoleRenderer (exception_formatter : Structlog.RichTracebackFormatter)
    (level_styles : list (string * string))
| stdlib_add_log_level
| add_logger_name
| remove_processors_meta
| drop_positional_args
| json_processor.
End Proc.

Definition Processor := Proc.t.

(** A [list] object: its identity and its items. *)
Record PyList := { list_id : nat; items : list Processor }.

(** The [named] dictionary; a value is [None] or a processor. *)
Definition Named := list (string * option Processor).

Definition click := {| Structlog.mod_name := "click" |}.
Definition contextlib := {| Structlog.mod_name := "contextlib" |}.
Definition httpx := {| Structlog.mod_name := "httpx" |}.
Definition httpcore := {| Structlog.mod_name := "httpcore" |}.

Definition suppress : list Structlog.PyModule :=
  [click; contextlib; httpx; httpcore; httpx].

(** The [dict_exc_formatter] of the structured branch. *)
Definition dict_exc_formatter (rt : Runtime) : Structlog.ExceptionDictTransformer :=
  Structlog.new_ExceptionDictTransformer (module_dir rt)
    (Some false) (Some suppress) None (Some false).

(** The [rich_exc_formatter] of the pretty branch. *)
Definition rich_exc_formatter : Structlog.RichTracebackFormatter :=
  {| Structlog.extra_lines := 0; Structlog.rich_max_frames := 30;
     Structlog.indent_guides := false; Structlog.rich_suppress := suppress |}.

(** The body of [logging_processors]; [new_id] is the identity given to
    the [processors] list it creates. *)
Definition logging_processors_body (rt : Runtime)
    (new_id : nat) (enable_pretty_log : bool) : PyList * Named :=
  let timestamper :=
    if enable_pretty_log then Proc.MaybeTimeStamper "%Y-%m-%d %H:%M:%S.%f"
    else Proc.MaybeTimeStamper "iso" in
  let processors :=
    [timestamper; Proc.merge_contextvars; Proc.add_log_level;
     Proc.PositionalArgumentsFormatter; Proc.logger_name; Proc.redact_jwt;
     Proc.StackInfoRenderer] in
  if enable_pretty_log then
    let rich_exc_formatter := rich_exc_formatter in
    let my_styles := Structlog.default_level_styles in
    let my_styles := dict_set "debug" Structlog.CYAN my_styles in
    let console := Proc.ConsoleRenderer rich_exc_formatter my_styles in
    let processors := processors ++ [console] in
    ({| list_id := new_id; items := processors |},
     [("timestamper", Some timestamper); ("console", Some console)])
  else
    let dict_exc_formatter := dict_exc_formatter rt in
    let dict_tracebacks := Proc.ExceptionRenderer dict_exc_formatter in
    let '(processors, exc_group_processor) :=
      if has_BaseExceptionGroup rt then
        let exc_group_processor := Proc.exception_group_tracebacks dict_exc_formatter in
        (processors ++ [exc_group_processor], Some exc_group_processor)
      else (processors, None) in
    let json := Proc.JSONRenderer in
    let processors :=
      processors ++ [dict_tracebacks; Proc.UnicodeDecoder; json] in
    ({| list_id := new_id; items := processors |},
     [("timestamper", Some timestamper);
      ("exc_group_processor", exc_group_processor);
      ("dict_tracebacks", Some dict_tracebacks);
      ("json", Some Proc.json_processor)]).

(** ** [logging.config.dictConfig] *)

Module Logging.

(** The level names [logging] accepts in a configuration dictionary. *)
Definition level_names : list string :=
  ["CRITICAL"; "FATAL"; "ERROR"; "WARN"; "WARNING"; "INFO"; "DEBUG"; "NOTSET"].

Definition checkLevel (l : string) : bool :=
  existsb (String.eqb l) level_names.

(** A formatter entry built with [structlog.stdlib.ProcessorFormatter]. *)
Record ProcessorFormatter := {
  processors : list Processor;
  foreign_pre_chain : list Processor;
  pass_foreign_args : bool
}.

(** A handler entry; [h_stream] is [Some o] when the entry has a
    ["stream"] key with value [o]. *)
Record HandlerConfig := {
  h_level : string;
  h_class : string;
  h_formatter : string;
  h_stream : option (option nat)
}.

Record LoggerConfig := {
  l_handlers : option (list string);
  l_level : string;
  l_propagate : option bool
}.

Record DictConfig := {
  version : nat;
  disable_existing_loggers : bool;
  formatters : list (string * ProcessorFormatter);
  handlers : list (string * HandlerConfig);
  loggers : list (string * LoggerConfig)
}.

(** [dictConfig] configures the handlers, then the loggers, and raises
    [ValueError] at the first entry whose level name is unknown. *)
Definition dictConfig (c : DictConfig) : Outcome unit :=
  match find (fun h => negb (checkLevel (h_level h.2))) (handlers c) with
  | Some (n, _) => Raise (ValueError ("Unable to configure handler '" +:+ n +:+ "'"))
  | None =>
      match find (fun l => negb (checkLevel (l_level l.2))) (loggers c) with
      | Some (n, _) => Raise (ValueError ("Unable to configure logger '" +:+ n +:+ "'"))
      | None => Return ()
      end
  end.

End Logging.

(** ** Process state *)

(** A callable stored in [warnings.showwarning]: the module's own
    [_showwarning], or some other function, known by a number. *)
Inductive Handler :=
| other_showwarning (n : nat)
| bridge.

#[global] Instance Handler_eq_dec : EqDecision Handler.
Proof. solve_decision. Defined.

(** How a call writes its arguments: the number of arguments it passes
    by position, then the names of those it passes by keyword, in the
    order written.  [functools.cache] keys a call on what is written:
    the positional values, then the keyword names and values in that
    order; it does not look at the parameters the values end up in. *)
Record CallForm := {
  by_position : nat;
  by_keyword : list string
}.

#[global] Instance CallForm_eq_dec : EqDecision CallForm.
Proof. solve_decision. Defined.

#[global] Instance CallForm_countable : Countable CallForm.
Proof.
  refine (inj_countable'
    (fun f => (by_position f, by_keyword f))
    (fun t => match t with (n, k) => Build_CallForm n k end) _).
  intros []; reflexivity.
Defined.

(** One [configure_logging] call, as [@cache] keys it: the values of the
    four parameters, where a parameter the call leaves out has its
    default ([True], ["DEBUG"], [None], [True]), and the way the call
    writes them.  [output] is the identity of the stream object, if one is
    given (a stream object counts as true in a condition).  A call that
    Python cannot bind to the four parameters raises [TypeError] without
    running the body or changing the table; it is no [Args]. *)
Record Args := {
  enable_pretty_log : bool;
  log_level : string;
  output : option nat;
  cache_logger_on_first_use : bool;
  call_form : CallForm
}.

#[global] Instance Args_eq_dec : EqDecision Args.
Proof. solve_decision. Defined.

#[global] Instance Args_countable : Countable Args.
Proof.
  refine (inj_countable'
    (fun a => (enable_pretty_log a, log_level a, output a,
               cache_logger_on_first_use a, call_form a))
    (fun t => match t with (p, l, o, c, w) => Build_Args p l o c w end) _).
  intros []; reflexivity.
Defined.

(** One [logging_processors] call as written: the mode passed by
    position, as [configure_logging] passes it, or by keyword.  The two
    are different keys of [@cache]. *)
Inductive BuilderCall :=
| positional (enable_pretty_log : bool)
| keyword (enable_pretty_log : bool).

Definition call_mode (c : BuilderCall) : bool :=
  match c with positional m | keyword m => m end.

#[global] Instance BuilderCall_eq_dec : EqDecision BuilderCall.
Proof. solve_decision. Defined.

#[global] Instance BuilderCall_countable : Countable BuilderCall.
Proof.
  refine (inj_countable'
    (fun c => match c with positional m => (false, m) | keyword m => (true, m) end)
    (fun t => match t with (false, m) => positional m | (true, m) => keyword m end) _).
  intros []; reflexivity.
Defined.

(** The keyword arguments of a [structlog.configure] call;
    [logger_factory] is [Some o] for [BytesLoggerFactory(o)]. *)
Record StructlogConfig := {
  sc_processors : PyList;
  sc_cache_logger_on_first_use : bool;
  sc_wrapper_class : Z;
  sc_logger_factory : option (option nat)
}.

(** A completed call into one of the libraries. *)
Inductive LibCall :=
| structlog_configure (c : StructlogConfig)
| logging_dictConfig (c : Logging.DictConfig).

Record State := {
  (** [warnings.showwarning] *)
  warnings_showwarning : option Handler;
  (** the module global of that name *)
  _warnings_showwarning : option Handler;
  (** the table of [@cache] on [configure_logging]; every stored result
      is [None] *)
  configure_logging_cache : gset Args;
  (** the table of [@cache] on [logging_processors] *)
  logging_processors_cache : gmap BuilderCall (PyList * Named);
  (** the number the next new object gets *)
  next_id : nat;
  (** the library calls completed so far, latest first *)
  calls : list LibCall
}.

(** ** Calls that read and change the process state and may raise *)

Definition M (A : Type) : Type := State -> Outcome A * State.

#[global] Instance M_ret : MRet M := fun A a s => (Return a, s).

#[global] Instance M_bind : MBind M := fun A B f m s =>
  match m s with
  | (Return a, s') => f a s'
  | (Raise e, s') => (Raise e, s')
  end.

Definition raise {A} (e : PyErr) : M A := fun s => (Raise e, s).
Definition get_state : M State := fun s => (Return s, s).
Definition lift {A} (o : Outcome A) : M A := fun s => (o, s).

Definition set_warnings_showwarning (h : option Handler) (s : State) : State :=
  {| warnings_showwarning := h;
     _warnings_showwarning := _warnings_showwarning s;
     configure_logging_cache := configure_logging_cache s;
     logging_processors_cache := logging_processors_cache s;
     next_id := next_id s; calls := calls s |}.

Definition set__warnings_showwarning (h : option Handler) (s : State) : State :=
  {| warnings_showwarning := warnings_showwarning s;
     _warnings_showwarning := h;
     configure_logging_cache := configure_logging_cache s;
     logging_processors_cache := logging_processors_cache s;
     next_id := next_id s; calls := calls s |}.

Definition set_configure_logging_cache (c : gset Args) (s : State) : State :=
  {| warnings_showwarning := warnings_showwarning s;
     _warnings_showwarning := _warnings_showwarning s;
     configure_logging_cache := c;
     logging_processors_cache := logging_processors_cache s;
     next_id := next_id s; calls := calls s |}.

Definition set_logging_processors_cache (c : gmap BuilderCall (PyList * Named))
    (s : State) : State :=
  {| warnings_showwarning := warnings_showwarning s;
     _warnings_showwarning := _warnings_showwarning s;
     configure_logging_cache := configure_logging_cache s;
     logging_processors_cache := c;
     next_id := next_id s; calls := calls s |}.

Definition set_next_id (n : nat) (s : State) : State :=
  {| warnings_showwarning := warnings_showwarning s;
     _warnings_showwarning := _warnings_showwarning s;
     configure_logging_cache := configure_logging_cache s;
     logging_processors_cache := logging_processors_cache s;
     next_id := n; calls := calls s |}.

Definition add_call (c : LibCall) (s : State) : State :=
  {| warnings_showwarning := warnings_showwarning s;
     _warnings_showwarning := _warnings_showwarning s;
     configure_logging_cache := configure_logging_cache s;
     logging_processors_cache := logging_processors_cache s;
     next_id := next_id s; calls := c :: calls s |}.

Definition modify (f : State -> State) : M unit := fun s => (Return (), f s).

(** [logging_processors] under [@cache]: the result stored for the call
    as written is returned as it is; otherwise the body runs, with a new
    identity for the list it creates, and its result is stored under the
    call as written. *)
Definition logging_processors_call (rt : Runtime) (c : BuilderCall)
    : M (PyList * Named) :=
  s ← get_state;
  match logging_processors_cache s !! c with
  | Some r => mret r
  | None =>
      let r := logging_processors_body rt (next_id s) (call_mode c) in
      modify (set_next_id (S (next_id s)));;
      modify (fun s => set_logging_processors_cache
                (<[c := r]> (logging_processors_cache s)) s);;
      mret r
  end.

(** [logging_processors(enable_pretty_log)], the call in
    [configure_logging]. *)
Definition logging_processors (rt : Runtime) (enable_pretty_log : bool)
    : M (PyList * Named) :=
  logging_processors_call rt (positional enable_pretty_log).

(** [d[k]] on [NAME_TO_LEVEL] and on [named]. *)
Definition getitem {A} (l : list (string * A)) (k : string) : M A :=
  match dict_get k l with
  | Some v => mret v
  | None => raise (KeyError k)
  end.

(** [named[k]] where the chain being built needs a processor; for the
    keys read this way the stored value is never [None]. *)
Definition getproc (named : Named) (k : string) : M Processor :=
  v ← getitem named k;
  match v with
  | Some p => mret p
  | None => raise (TypeError "NoneType object is not callable")
  end.

(** [structlog.configure(...)] and [logging.config.dictConfig(...)] *)
Definition do_structlog_configure (c : StructlogConfig) : M unit :=
  modify (add_call (structlog_configure c)).

Definition do_dictConfig (c : Logging.DictConfig) : M unit :=
  lift (Logging.dictConfig c);;
  modify (add_call (logging_dictConfig c)).

(** The [if _warnings_showwarning is None:] block. *)
Definition install_showwarning : M unit :=
  s ← get_state;
  match _warnings_showwarning s with
  | None =>
      modify (set__warnings_showwarning (warnings_showwarning s));;
      modify (set_warnings_showwarning (Some bridge))
  | Some _ => mret ()
  end.

Definition configure_logging_body (rt : Runtime) (a : Args) : M unit :=
  let enable_pretty_log := enable_pretty_log a in
  let log_level := log_level a in
  let output := output a in
  let cache_logger_on_first_use := cache_logger_on_first_use a in
  if enable_pretty_log && bool_decide (output <> None) then
    raise (ValueError "output can only be set if enable_pretty_log is not")
  else
    lvl ← getitem Structlog.NAME_TO_LEVEL (lower log_level);
    let formatter := if enable_pretty_log then "colored" else "plain" in
    '(processors, named) ← logging_processors rt enable_pretty_log;
    timestamper ← getproc named "timestamper";
    let pre_chain :=
      [Proc.stdlib_add_log_level; Proc.add_logger_name; timestamper] in
    let cache_logger_on_first_use :=
      if pytest_current_test rt then false else cache_logger_on_first_use in
    let color_formatter := [Proc.remove_processors_meta; Proc.drop_positional_args] in
    let std_lib_formatter := [Proc.remove_processors_meta; Proc.drop_positional_args] in
    let wrapper_class := lvl in
    '(pre_chain, color_formatter, std_lib_formatter) ←
      (if enable_pretty_log then
         do_structlog_configure
           {| sc_processors := processors;
              sc_cache_logger_on_first_use := cache_logger_on_first_use;
              sc_wrapper_class := wrapper_class;
              sc_logger_factory := None |};;
         console ← getproc named "console";
         mret (pre_chain, color_formatter ++ [console], std_lib_formatter)
       else
         do_structlog_configure
           {| sc_processors := processors;
              sc_cache_logger_on_first_use := cache_logger_on_first_use;
              sc_wrapper_class := wrapper_class;
              sc_logger_factory := Some output |};;
         processor ← getitem named "exc_group_processor";
         let pre_chain :=
           match processor with
           | Some processor => pre_chain ++ [processor]
           | None => pre_chain
           end in
         dict_tracebacks ← getproc named "dict_tracebacks";
         json ← getproc named "json";
         mret (pre_chain ++ [dict_tracebacks], color_formatter ++ [json],
               std_lib_formatter ++ [json]));
    install_showwarning;;
    do_dictConfig
      {| Logging.version := 1;
         Logging.disable_existing_loggers := false;
         Logging.formatters :=
           [("plain",
             {| Logging.processors := std_lib_formatter;
                Logging.foreign_pre_chain := pre_chain;
                Logging.pass_foreign_args := true |});
            ("colored",
             {| Logging.processors := color_formatter;
                Logging.foreign_pre_chain := pre_chain;
                Logging.pass_foreign_args := true |})];
         Logging.handlers :=
           [("default",
             {| Logging.h_level := upper log_level;
                Logging.h_class := "logging.StreamHandler";
                Logging.h_formatter := formatter;
                Logging.h_stream := None |});
            ("to_supervisor",
             {| Logging.h_level := upper log_level;
                Logging.h_class := "StdBinaryStreamHandler";
                Logging.h_formatter := formatter;
                Logging.h_stream := Some output |})];
         Logging.loggers :=
           [("",
             {| Logging.l_handlers :=
                  Some [if bool_decide (output <> None) then "to_supervisor" else "default"];
                Logging.l_level := "INFO";
                Logging.l_propagate := Some true |});
            ("airflow",
             {| Logging.l_handlers := None; Logging.l_level := upper log_level;
                Logging.l_propagate := None |});
            ("httpx",
             {| Logging.l_handlers := None; Logging.l_level := "WARN";
                Logging.l_propagate := None |});
            ("sqlalchemy.engine",
             {| Logging.l_handlers := None; Logging.l_level := "WARN";
                Logging.l_propagate := None |})] |}.

(** [configure_logging] under [@cache]: a call that is in the table, with
    the same values written the same way, returns the stored [None] at
    once; otherwise the body runs and, unless it raises, the call is
    stored. *)
Definition configure_logging (rt : Runtime) (a : Args) : M unit :=
  s ← get_state;
  if bool_decide (a ∈ configure_logging_cache s) then mret ()
  else
    configure_logging_body rt a;;
    modify (fun s => set_configure_logging_cache ({[a]} ∪ configure_logging_cache s) s).

Definition reset_logging : M unit :=
  s ← get_state;
  modify (set_warnings_showwarning (_warnings_showwarning s));;
  (* configure_logging.cache_clear() *)
  modify (set_configure_logging_cache ∅).

(** ** The warning bridge *)

(** The arguments [warnings] passes to [showwarning]: the text of
    [message], the name of [category], and the rest as they are. *)
Record WarningCall := {
  message : string;
  category : string;
  filename : string;
  lineno : Z;
  file : option nat;
  line : option string
}.

(** What showing a warning does to the outside: a call of some other
    handler with the arguments, or a call of a structlog logger. *)
Inductive Shown :=
| called (n : nat) (w : WarningCall)
| logged (c : Structlog.LogCall).

(** [_showwarning].  When the saved handler is [_showwarning] itself, the
    delegation re-enters with the same arguments until the interpreter
    stops it. *)
Definition _showwarning (s : State) (w : WarningCall) : Outcome unit * list Shown :=
  match file w with
  | Some _ =>
      match _warnings_showwarning s with
      | Some (other_showwarning n) => (Return (), [called n w])
      | Some bridge => (Raise RecursionError, [])
      | None => (Return (), [])
      end
  | None =>
      let log :=
        {| Structlog.initial_values := [("logger_name", VStr "py.warnings")];
           Structlog.method := "warning";
           Structlog.event := message w;
           Structlog.kw :=
             [("category", VStr (category w)); ("filename", VStr (filename w));
              ("lineno", VInt (lineno w))] |} in
      (Return (), [logged log])
  end.

Module Warnings.

(** How [warnings] shows a warning: it calls whatever is stored in
    [warnings.showwarning], and raises [TypeError] when that is not
    callable. *)
Definition showwarnmsg (s : State) (w : WarningCall) : Outcome unit * list Shown :=
  match warnings_showwarning s with
  | Some (other_showwarning n) => (Return (), [called n w])
  | Some bridge => _showwarning s w
  | None =>
      (Raise (TypeError "warnings.showwarning() must be set to a function or method"),
       [])
  end.

End Warnings.

(** ** Reading the state *)

(** The processors list of the latest [structlog.configure] call. *)
Fixpoint active_pipeline (cs : list LibCall) : option PyList :=
  match cs with
  | [] => None
  | structlog_configure c :: _ => Some (sc_processors c)
  | _ :: r => active_pipeline r
  end.

(** How often [structlog.configure] has been called. *)
Fixpoint count_configure (cs : list LibCall) : nat :=
  match cs with
  | [] => 0
  | structlog_configure _ :: r => S (count_configure r)
  | _ :: r => count_configure r
  end.

Definition configure_count (s : State) : nat := count_configure (calls s).

(** A process in which nothing of this module has run yet and
    [warnings.showwarning] is the function [h]. *)
Definition fresh_state (h : nat) : State :=
  {| warnings_showwarning := Some (other_showwarning h);
     _warnings_showwarning := None;
     configure_logging_cache := ∅;
     logging_processors_cache := ∅;
     next_id := 0;
     calls := [] |}.

(** A CPython installation with its packages under [/site-packages];
    [has_group] is the outcome of the test with [hasattr] in [log.py],
    [pytest] tells whether [PYTEST_CURRENT_TEST] is set. *)
Definition cpython (has_group pytest : bool) : Runtime :=
  {| has_BaseExceptionGroup := has_group;
     pytest_current_test := pytest;
     module_dir := fun m => "/site-packages/" +:+ m |}.

(** ** Reading an event *)

(** The failure [e] that the value of the [exc_info] field stands for,
    with the class name and the traceback it is reported with: the
    exception itself, a three-tuple of an exception class, the exception
    and a traceback or [None], or [True] while [e] is being handled. *)
Definition carries (sys_exc_info : option PyExc) (exc_info : Value)
    (reported : ExcInfo) : Prop :=
  let '(name, e, tb) := reported in
  (exc_info = VExc e /\ name = exc_type e /\ tb = exc_tb e)
  \/ (exc_info = VTuple [VClass name true; VExc e;
                          match tb with [] => VNone | _ => VTraceback tb end])
  \/ (exc_info = VBool true /\ sys_exc_info = Some e
       /\ name = exc_type e /\ tb = exc_tb e).

(** The event has lost [exc_info] and its [exception] field is a list of
    exactly three records. *)
Definition flattened_to_three (out : EventDict) : Prop :=
  dict_get "exc_info" out = None
  /\ exists r1 r2 r3, dict_get "exception" out = Some (VList [r1; r2; r3]).

(** [a] occurs before [b] in [l]. *)
Definition precedes {A} (a b : A) (l : list A) : Prop :=
  exists i j, l !! i = Some a /\ l !! j = Some b /\ i < j.

(** The processors that turn an event into its final text. *)
Definition is_renderer (p : Processor) : bool :=
  match p with
  | Proc.JSONRenderer | Proc.ConsoleRenderer _ _ => true
  | _ => false
  end.

(** The seven processors both modes start with. *)
Definition shared_chain (fmt : string) : list Processor :=
  [Proc.MaybeTimeStamper fmt; Proc.merge_contextvars; Proc.add_log_level;
   Proc.PositionalArgumentsFormatter; Proc.logger_name; Proc.redact_jwt;
   Proc.StackInfoRenderer].

(** [e] is raised inside the [try] block of [emit]: by [self.format], by
    [stream.write], or by the flush after a completed write. *)
Definition raised_in_try (self : StdBinaryStreamHandler) (record : LogRecord)
    (e : PyErr) : Prop :=
  format self record = Raise e
  \/ exists msg, format self record = Return msg
       /\ (write (stream self) (bytearray msg ++ [10%Z]) = Raise e
           \/ (write (stream self) (bytearray msg ++ [10%Z]) = Return ()
               /\ flush (stream self) = Raise e)).


(** ** Failures in structured mode *)

(** The processors of a chain that read [exc_info], run in chain order on
    an event; the other processors leave [exc_info] and [exception] as they
    are and are passed over.  An exception raised by a processor ends the
    run. *)
Definition run_exception_processors (rt : Runtime) (sys_exc_info : option PyExc)
    (logger : Logger) (method_name : string) (chain : list Processor)
    (event_dict : EventDict) : Outcome EventDict :=
  fold_left
    (fun run p =>
       and_then run (fun ev =>
         match p with
         | Proc.exception_group_tracebacks t =>
             exception_group_tracebacks rt (Structlog.format_exception t)
               sys_exc_info logger method_name ev
         | Proc.ExceptionRenderer t =>
             Return (Structlog.ExceptionRenderer t sys_exc_info ev)
         | _ => Return ev
         end))
    chain (Return event_dict).

(** The frame lists of the stack records in the [exception] field. *)
Definition frames_of_record (r : Value) : option (list Value) :=
  match r with
  | VDict d => match dict_get "frames" d with Some (VList fs) => Some fs | _ => None end
  | _ => None
  end.

Definition frame_lists (event_dict : EventDict) : list (list Value) :=
  match dict_get "exception" event_dict with
  | Some (VList records) => omap frames_of_record records
  | _ => []
  end.

Definition frame_file (f : Value) : string :=
  match f with
  | VDict d => match dict_get "filename" d with Some (VStr s) => s | _ => "" end
  | _ => ""
  end.

(** The frame's file lies in the directory of one of the modules in
    [suppress]. *)
Definition from_noise (rt : Runtime) (f : Value) : bool :=
  existsb (fun m => String.prefix (module_dir rt (Structlog.mod_name m)) (frame_file f))
    suppress.

(** Every frame list has at most thirty entries, none of them from a
    module in [suppress]. *)
Definition capped_and_quiet (rt : Runtime) (event_dict : EventDict) : Prop :=
  Forall (fun fs => length fs <= 30 /\ Forall (fun f => from_noise rt f = false) fs)
    (frame_lists event_dict).

(** ** Well-formed process states *)

(** The level name is one both [structlog] (in lower case) and [logging]
    (in upper case) know. *)
Definition level_known (log_level : string) : bool :=
  bool_decide (is_Some (dict_get (lower log_level) Structlog.NAME_TO_LEVEL))
  && Logging.checkLevel (upper log_level).

(** The arguments pass the check on mode and destination and name a known
    level. *)
Definition accepted (a : Args) : bool :=
  negb (enable_pretty_log a && bool_decide (output a <> None))
  && level_known (log_level a).

(** What the two [@cache] tables can hold: results of
    [logging_processors_body] for identities already given out, and
    argument tuples with which [configure_logging] has returned. *)
Definition wf_state (rt : Runtime) (s : State) : Prop :=
  (forall c r, logging_processors_cache s !! c = Some r ->
     exists id, id < next_id s /\ r = logging_processors_body rt id (call_mode c))
  /\ (forall a, a ∈ configure_logging_cache s -> accepted a = true).

(** One call from the outside. *)
Inductive Call :=
| call_configure_logging (a : Args)
| call_reset_logging.

Definition step (rt : Runtime) (c : Call) (s : State) : State :=
  match c with
  | call_configure_logging a => (configure_logging rt a s).2
  | call_reset_logging => (reset_logging s).2
  end.

(** The states a process reaches from its start by such calls. *)
Inductive reachable (rt : Runtime) (h : nat) : State -> Prop :=
| reachable_fresh : reachable rt h (fresh_state h)
| reachable_step c s : reachable rt h s -> reachable rt h (step rt c s).

(** The state change of [install_showwarning]. *)
Definition installed (s : State) : State :=
  match _warnings_showwarning s with
  | None => set_warnings_showwarning (Some bridge)
              (set__warnings_showwarning (warnings_showwarning s) s)
  | Some _ => s
  end.

(** The [structlog.configure] call of [configure_logging]. *)
Definition configured (rt : Runtime) (a : Args) (lvl : Z) (processors : PyList)
    : StructlogConfig :=
  {| sc_processors := processors;
     sc_cache_logger_on_first_use :=
       if pytest_current_test rt then false else cache_logger_on_first_use a;
     sc_wrapper_class := lvl;
     sc_logger_factory := if enable_pretty_log a then None else Some (output a) |}.

(** The possible courses of a call, from a well-formed state. *)
Inductive course (rt : Runtime) (a : Args) (s : State)
    : Outcome unit * State -> Prop :=
| course_cached :
    a ∈ configure_logging_cache s -> course rt a s (Return (), s)
| course_invalid :
    a ∉ configure_logging_cache s ->
    enable_pretty_log a && bool_decide (output a <> None) = true ->
    course rt a s
      (Raise (ValueError "output can only be set if enable_pretty_log is not"), s)
| course_unknown :
    a ∉ configure_logging_cache s ->
    enable_pretty_log a && bool_decide (output a <> None) = false ->
    dict_get (lower (log_level a)) Structlog.NAME_TO_LEVEL = None ->
    course rt a s (Raise (KeyError (lower (log_level a))), s)
| course_run id s1 lvl dc o :
    a ∉ configure_logging_cache s ->
    enable_pretty_log a && bool_decide (output a <> None) = false ->
    dict_get (lower (log_level a)) Structlog.NAME_TO_LEVEL = Some lvl ->
    logging_processors rt (enable_pretty_log a) s
    = (Return (logging_processors_body rt id (enable_pretty_log a)), s1) ->
    wf_state rt s1 ->
    let s2 := installed (add_call (structlog_configure
                (configured rt a lvl
                   (logging_processors_body rt id (enable_pretty_log a)).1)) s1) in
    o = (if Logging.checkLevel (upper (log_level a))
         then (Return (),
               set_configure_logging_cache ({[a]} ∪ configure_logging_cache s)
                 (add_call (logging_dictConfig dc) s2))
         else (Raise (ValueError "Unable to configure handler 'default'"), s2)) ->
    course rt a s o.


(** ** Reading the library calls *)

(** The dictionary of the latest [dictConfig] call. *)
Fixpoint latest_dictConfig (cs : list LibCall) : option Logging.DictConfig :=
  match cs with
  | [] => None
  | logging_dictConfig c :: _ => Some c
  | _ :: r => latest_dictConfig r
  end.

(** The arguments of the latest [structlog.configure] call. *)
Fixpoint latest_structlog (cs : list LibCall) : option StructlogConfig :=
  match cs with
  | [] => None
  | structlog_configure c :: _ => Some c
  | _ :: r => latest_structlog r
  end.

(** All processors a [ProcessorFormatter] entry names. *)
Definition formatter_chain (f : Logging.ProcessorFormatter) : list Processor :=
  Logging.foreign_pre_chain f ++ Logging.processors f.

(** A sequence of calls from the outside, one after the other. *)
Definition run_calls (rt : Runtime) (cs : list Call) (s : State) : State :=
  fold_left (fun s c => step rt c s) cs s.

(** C3 as the specification words it: two calls of the builder with the
    same mode return the same list object. *)
Definition memoized_per_mode (rt : Runtime) (s : State) : Prop :=
  forall c c' r r',
    call_mode c = call_mode c' ->
    (logging_processors_call rt c s).1 = Return r ->
    (logging_processors_call rt c' (logging_processors_call rt c s).2).1 = Return r' ->
    list_id r.1 = list_id r'.1.


(** The level names [configure_logging] returns for, in lower case. *)
Definition level_names : list string :=
  ["critical"; "error"; "warn"; "warning"; "info"; "debug"; "notset"].

(** ** Log files *)

(** [isinstance(e, OSError)].  The subclass of an [OSError] follows from
    its error number, with which its text begins; [FileNotFoundError] is
    number 2. *)
Definition isinstance_OSError (e : PyErr) : bool :=
  match e with OSError _ => true | _ => false end.

Definition isinstance_FileNotFoundError (e : PyErr) : bool :=
  match e with OSError msg => String.prefix "[Errno 2] " msg | _ => false end.

(** [int(s, 8)], for ASCII text: white space (the characters 9 to 13 and
    the blank) is stripped from both ends. *)
Module Builtins.
Import Stdlib.Strings.Ascii.

Definition is_space (c : Ascii.ascii) : bool :=
  let n := Ascii.N_of_ascii c in
  (((9 <=? n) && (n <=? 13)) || (n =? 32))%N.

Fixpoint lstrip (cs : list Ascii.ascii) : list Ascii.ascii :=
  match cs with
  | c :: r => if is_space c then lstrip r else cs
  | [] => []
  end.

Definition strip (cs : list Ascii.ascii) : list Ascii.ascii :=
  reverse (lstrip (reverse (lstrip cs))).

Definition octal_digit (c : Ascii.ascii) : option Z :=
  let n := Ascii.N_of_ascii c in
  if ((48 <=? n) && (n <=? 55))%N then Some (Z.of_N n - 48)%Z else None.

(** The digits, with single underscores between them; [after_digit]
    tells whether the character before was a digit. *)
Fixpoint digits (acc : Z) (after_digit : bool) (cs : list Ascii.ascii) : option Z :=
  match cs with
  | [] => if after_digit then Some acc else None
  | c :: r =>
      if Ascii.eqb c "_"%char then
        if after_digit then digits acc false r else None
      else
        match octal_digit c with
        | Some d => digits (8 * acc + d)%Z true r
        | None => None
        end
  end.

(** After the sign: the prefix [0o] or [0O], which one underscore may
    follow, then the digits. *)
Definition unsigned (cs : list Ascii.ascii) : option Z :=
  match cs with
  | "0"%char :: ("o" | "O")%char :: r =>
      match r with
      | "_"%char :: r' => digits 0 false r'
      | _ => digits 0 false r
      end
  | _ => digits 0 false cs
  end.

Definition int (s : string) : Outcome Z :=
  let v :=
    match strip (String.list_ascii_of_string s) with
    | "-"%char :: r => Z.opp <$> unsigned r
    | "+"%char :: r => unsigned r
    | cs => unsigned cs
    end in
  match v with
  | Some n => Return n
  | None => Raise (ValueError ("invalid literal for int() with base 8: '" +:+ s +:+ "'"))
  end.

End Builtins.

Module Pathlib.
Import Stdlib.Strings.Ascii.

(** A [PurePosixPath]: its root ([""], ["/"] or ["//"]) and the names
    below it. *)
Record Path := { root : string; parts : list string }.

#[global] Instance Path_eq_dec : EqDecision Path.
Proof. solve_decision. Defined.

(** [s.split("/")] *)
Fixpoint split (s : string) : list string :=
  match s with
  | EmptyString => [""]
  | String c r =>
      if Ascii.eqb c "/"%char then "" :: split r
      else match split r with
           | x :: xs => String c x :: xs
           | [] => [String c ""]
           end
  end.

(** [posixpath.splitroot], without the empty drive: one slash or three
    and more make the root [/], exactly two make the root [//]. *)
Definition splitroot (p : string) : string * string :=
  match p with
  | String c1 r1 =>
      if negb (Ascii.eqb c1 "/"%char) then ("", p)
      else
        match r1 with
        | String c2 r2 =>
            if negb (Ascii.eqb c2 "/"%char) then ("/", r1)
            else
              match r2 with
              | String c3 _ => if Ascii.eqb c3 "/"%char then ("/", r1) else ("//", r2)
              | EmptyString => ("//", r2)
              end
        | EmptyString => ("/", r1)
        end
  | EmptyString => ("", p)
  end.

Definition is_name (x : string) : bool :=
  negb (String.eqb x "") && negb (String.eqb x ".").

(** [Path(p)] *)
Definition parse (p : string) : Path :=
  let '(root, rel) := splitroot p in
  {| root := root; parts := List.filter is_name (split rel) |}.

(** [s.endswith("/")] *)
Fixpoint endswith_sep (s : string) : bool :=
  match s with
  | EmptyString => false
  | String c EmptyString => Ascii.eqb c "/"%char
  | String _ r => endswith_sep r
  end.

(** [posixpath.join(a, b)] *)
Definition join (a b : string) : string :=
  if String.prefix "/" b then b
  else if String.eqb a "" || endswith_sep a then a +:+ b
  else a +:+ "/" +:+ b.

(** [Path(a, b)] *)
Definition Path2 (a b : string) : Path := parse (join a b).

(** [str(p)] *)
Definition str (p : Path) : string :=
  match root p, parts p with
  | "", [] => "."
  | r, ps => r +:+ String.concat "/" ps
  end.

(** [p.parent]: a path without names is its own parent. *)
Definition parent (p : Path) : Path :=
  {| root := root p; parts := removelast (parts p) |}.

(** [p.parents]: the path without its last name, without its last two
    names, and so on down to the root or to [.]. *)
Definition parents (p : Path) : list Path :=
  (fun k => {| root := root p; parts := take k (parts p) |})
  <$> reverse (seq 0 (length (parts p))).

(** What the operating system answers to the calls of [mkdir] and
    [touch] below, in a world [W]. *)
Class Os (W : Type) := {
  (** [os.mkdir(p, mode)] *)
  os_mkdir : Path -> Z -> W -> Outcome unit * W;
  (** [p.is_dir()] *)
  is_dir : Path -> W -> Outcome bool;
  (** [os.utime(p, None)] *)
  os_utime : Path -> W -> Outcome unit * W;
  (** [os.close(os.open(p, os.O_CREAT | os.O_WRONLY, mode))] *)
  os_open : Path -> Z -> W -> Outcome unit * W
}.

(** [self.mkdir(mode=mode, exist_ok=exist_ok)], with [parents] left
    false. *)
Definition mkdir {W} `{!Os W} (self : Path) (mode : Z) (exist_ok : bool) (w : W)
    : Outcome unit * W :=
  match os_mkdir self mode w with
  | (Return _, w') => (Return (), w')
  | (Raise e, w') =>
      if isinstance_FileNotFoundError e then (Raise e, w')
      else if isinstance_OSError e then
        if negb exist_ok then (Raise e, w')
        else
          match is_dir self w' with
          | Return true => (Return (), w')
          | Return false => (Raise e, w')
          | Raise e' => (Raise e', w')
          end
      else (Raise e, w')
  end.

(** [self.touch(mode)], with [exist_ok] left true. *)
Definition touch {W} `{!Os W} (self : Path) (mode : Z) (w : W) : Outcome unit * W :=
  match os_utime self w with
  | (Return _, w') => (Return (), w')
  | (Raise e, w') =>
      if isinstance_OSError e then os_open self mode w' else (Raise e, w')
  end.

End Pathlib.

(** A [for] loop whose body may raise. *)
Fixpoint for_each {W A} (body : A -> W -> Outcome unit * W) (l : list A) (w : W)
    : Outcome unit * W :=
  match l with
  | [] => (Return (), w)
  | x :: r =>
      match body x w with
      | (Return _, w') => for_each body r w'
      | (Raise e, w') => (Raise e, w')
      end
  end.

Definition _prepare_log_folder {W} `{!Pathlib.Os W} (directory : Pathlib.Path)
    (mode : Z) (w : W) : Outcome unit * W :=
  match for_each (fun parent => Pathlib.mkdir parent mode true)
          (reverse (Pathlib.parents directory)) w with
  | (Return _, w') => Pathlib.mkdir directory mode true w'
  | (Raise e, w') => (Raise e, w')
  end.

(** [airflow.configuration.conf], as far as [init_log_file] reads it: the
    two permission options of section [logging] where they are set, and
    [base_log_folder], for which Airflow always has a value. *)
Record Conf := {
  file_task_handler_new_file_permissions : option string;
  file_task_handler_new_folder_permissions : option string;
  base_log_folder : string
}.

(** [conf.get("logging", key, fallback=fallback)] *)
Definition conf_get (value : option string) (fallback : string) : string :=
  default fallback value.

(** A call [log.warning(event, e)] on the logger of
    [structlog.get_logger()]. *)
Record WarningLog := { wl_event : string; wl_arg : PyErr }.

Definition init_log_file {W} `{!Pathlib.Os W} (conf : Conf)
    (local_relative_path : string) (w : W)
    : Outcome Pathlib.Path * W * list WarningLog :=
  match Builtins.int (conf_get (file_task_handler_new_file_permissions conf) "0o664") with
  | Raise e => (Raise e, w, [])
  | Return new_file_permissions =>
      match Builtins.int
              (conf_get (file_task_handler_new_folder_permissions conf) "0o775") with
      | Raise e => (Raise e, w, [])
      | Return new_folder_permissions =>
          let base_log_folder := base_log_folder conf in
          let full_path := Pathlib.Path2 base_log_folder local_relative_path in
          match _prepare_log_folder (Pathlib.parent full_path)
                  new_folder_permissions w with
          | (Raise e, w1) => (Raise e, w1, [])
          | (Return _, w1) =>
              match Pathlib.touch full_path new_file_permissions w1 with
              | (Return _, w2) => (Return full_path, w2, [])
              | (Raise e, w2) =>
                  if isinstance_OSError e then
                    (Return full_path, w2,
                     [{| wl_event :=
                           "OSError while changing ownership of the log file. %s";
                         wl_arg := e |}])
                  else (Raise e, w2, [])
              end
          end
      end
  end.

(** ** A file system in memory

    Directories and regular files, found name by name from the root or
    from the working directory; no symbolic links and no owners.  Of the
    mode of a node, the nine permission bits are recorded; the
    set-user-ID, set-group-ID and sticky bits, which depend on the system
    and on the owners, are not.  When [read_only] is set, whatever would
    change the file system is refused. *)
Module MemFs.
Import Pathlib.

Inductive Node :=
| Dir (permissions : Z)
| File (permissions : Z).

(** A [mode] argument is handed to the system as a C [int]; a Python
    integer outside its range is refused before the system is asked. *)
Definition c_int (mode : Z) : bool :=
  ((-2147483648 <=? mode) && (mode <=? 2147483647))%Z.

Definition overflow : PyErr :=
  OverflowError "Python int too large to convert to C int".

(** The nine permission bits of what is made with [mode]: those of
    [mode] that the umask does not take away. *)
Definition permission_bits (mode umask : Z) : Z :=
  Z.land (Z.ldiff mode umask) 511.

Record Fs := {
  nodes : gmap (list string) Node;
  umask : Z;
  cwd : list string;
  read_only : bool
}.

Definition set_nodes (n : gmap (list string) Node) (fs : Fs) : Fs :=
  {| nodes := n; umask := umask fs; cwd := cwd fs; read_only := read_only fs |}.

Definition errno (n : string) (text : string) (p : Path) : PyErr :=
  OSError ("[Errno " +:+ n +:+ "] " +:+ text +:+ ": '" +:+ str p +:+ "'").

Definition ENOENT := errno "2" "No such file or directory".
Definition EEXIST := errno "17" "File exists".
Definition ENOTDIR := errno "20" "Not a directory".
Definition EISDIR := errno "21" "Is a directory".
Definition EROFS := errno "30" "Read-only file system".

(** Follows [names] from the directory at [cur]; every name but the last
    must lead through a directory. *)
Fixpoint walk (fs : Fs) (p : Path) (cur : list string) (names : list string)
    : Outcome (list string) :=
  match names with
  | [] => Return cur
  | name :: rest =>
      match nodes fs !! cur with
      | Some (Dir _) =>
          walk fs p (if String.eqb name ".." then removelast cur else cur ++ [name])
            rest
      | Some (File _) => Raise (ENOTDIR p)
      | None => Raise (ENOENT p)
      end
  end.

(** Where the names of a path begin: at the working directory, or at the
    root. *)
Definition start (fs : Fs) (root : string) : list string :=
  if String.eqb root "" then cwd fs else [].

(** Where [p] is or would be. *)
Definition locate (fs : Fs) (p : Path) : Outcome (list string) :=
  walk fs p (start fs (root p)) (parts p).

Definition mem_mkdir (p : Path) (mode : Z) (fs : Fs) : Outcome unit * Fs :=
  if negb (c_int mode) then (Raise overflow, fs)
  else
    match locate fs p with
    | Raise e => (Raise e, fs)
    | Return loc =>
        match nodes fs !! loc with
        | Some _ => (Raise (EEXIST p), fs)
        | None =>
            if read_only fs then (Raise (EROFS p), fs)
            else (Return (),
                  set_nodes
                    (<[loc := Dir (permission_bits mode (umask fs))]> (nodes fs)) fs)
        end
    end.

Definition mem_is_dir (p : Path) (fs : Fs) : Outcome bool :=
  match locate fs p with
  | Raise _ => Return false
  | Return loc =>
      Return (match nodes fs !! loc with Some (Dir _) => true | _ => false end)
  end.

Definition mem_utime (p : Path) (fs : Fs) : Outcome unit * Fs :=
  match locate fs p with
  | Raise e => (Raise e, fs)
  | Return loc =>
      match nodes fs !! loc with
      | Some _ => if read_only fs then (Raise (EROFS p), fs) else (Return (), fs)
      | None => (Raise (ENOENT p), fs)
      end
  end.

Definition mem_open (p : Path) (mode : Z) (fs : Fs) : Outcome unit * Fs :=
  if negb (c_int mode) then (Raise overflow, fs)
  else
    match locate fs p with
    | Raise e => (Raise e, fs)
    | Return loc =>
        match nodes fs !! loc with
        | Some (Dir _) => (Raise (EISDIR p), fs)
        | Some (File _) =>
            if read_only fs then (Raise (EROFS p), fs) else (Return (), fs)
        | None =>
            if read_only fs then (Raise (EROFS p), fs)
            else (Return (),
                  set_nodes
                    (<[loc := File (permission_bits mode (umask fs))]> (nodes fs)) fs)
        end
    end.

#[global] Instance mem_os : Os Fs := {
  os_mkdir := mem_mkdir;
  is_dir := mem_is_dir;
  os_utime := mem_utime;
  os_open := mem_open
}.

(** The root and the working directory are directories, and whatever
    exists lies in a directory. *)
Definition wf_fs (fs : Fs) : Prop :=
  (exists m, nodes fs !! [] = Some (Dir m))
  /\ (exists m, nodes fs !! cwd fs = Some (Dir m))
  /\ forall loc name n, nodes fs !! (loc ++ [name]) = Some n ->
       exists m, nodes fs !! loc = Some (Dir m).

End MemFs.

(** The place of a path without [..] names in a file system. *)
Definition place (fs : MemFs.Fs) (p : Pathlib.Path) : list string :=
  MemFs.start fs (Pathlib.root p) ++ Pathlib.parts p.

(** What is at a place decides whether [mkdir] gets past it: a directory
    is left alone, a missing one is made unless the file system is
    read-only, a regular file is in the way. *)
Definition passable (fs : MemFs.Fs) (loc : list string) : Prop :=
  match MemFs.nodes fs !! loc with
  | Some (MemFs.Dir _) => True
  | Some (MemFs.File _) => False
  | None => MemFs.read_only fs = false
  end.

(** What the properties below need of [os.mkdir] and [is_dir]: a
    directory that has been made is there, and directories stay. *)
Definition mkdir_laws (W : Type) `{!Pathlib.Os W} : Prop :=
  (forall p mode w w', Pathlib.os_mkdir p mode w = (Return (), w') ->
     Pathlib.is_dir p w' = Return true)
  /\ (forall p q mode w o w', Pathlib.os_mkdir p mode w = (o, w') ->
        Pathlib.is_dir q w = Return true -> Pathlib.is_dir q w' = Return true).

(** The prefixes of a list, the shortest first. *)
Fixpoint inits {A} (l : list A) : list (list A) :=
  match l with
  | [] => [[]]
  | x :: r => [] :: (cons x <$> inits r)
  end.

(** [fs'] is [fs] with new entries, all of them among [allowed]. *)
Definition grows (allowed : MemFs.Node -> Prop) (fs fs' : MemFs.Fs) : Prop :=
  MemFs.umask fs' = MemFs.umask fs
  /\ MemFs.cwd fs' = MemFs.cwd fs
  /\ MemFs.read_only fs' = MemFs.read_only fs
  /\ (forall loc n, MemFs.nodes fs !! loc = Some n -> MemFs.nodes fs' !! loc = Some n)
  /\ (forall loc n, MemFs.nodes fs !! loc = None -> MemFs.nodes fs' !! loc = Some n ->
        allowed n).

(** ** Sample inputs *)

Definition dag_frame : RawFrame :=
  {| rf_filename := "/opt/airflow/dags/etl.py"; rf_lineno := 10;
     rf_name := "load"; rf_locals := [("row", "3")] |}.

Definition missing_key : PyExc :=
  BaseException "KeyError" "id" [dag_frame] None None None false.

(** [ValueError("bad row")], raised [from] the [KeyError] above while
    that was being handled. *)
Definition bad_row : PyExc :=
  BaseException "ValueError" "bad row" [dag_frame] (Some missing_key) None
    (Some missing_key) true.

Definition bad_type : PyExc :=
  BaseException "TypeError" "bad type" [dag_frame] None None None false.

Definition two_failures : PyExc :=
  BaseException "ExceptionGroup" "task failed (2 sub-exceptions)" [dag_frame]
    None (Some [bad_row; bad_type]) None false.

Definition group_event : EventDict :=
  [("event", VStr "task failed"); ("exc_info", VExc two_failures)].

Definition single_event : EventDict :=
  [("event", VStr "task failed"); ("exc_info", VExc bad_type)].

(** [log.py] imported as a module on CPython, outside of a test run. *)
Definition imported_module : Runtime := cpython false false.

(** [log.py] run as a script on Python 3.11 or later. *)
Definition run_as_script : Runtime := cpython true false.

Definition client_frame : RawFrame :=
  {| rf_filename := "/site-packages/httpx/_client.py"; rf_lineno := 914;
     rf_name := "send"; rf_locals := [] |}.

(** A failure thirty frames of task code deep, raised inside [httpx]. *)
Definition deep_failure : PyExc :=
  BaseException "ConnectError" "connection refused"
    (replicate 30 dag_frame ++ [client_frame]) None None None false.

Definition deep_event : EventDict :=
  [("event", VStr "task failed"); ("exc_info", VExc deep_failure)].




(** [configure_logging()] *)
Definition pretty_debug : Args :=
  {| enable_pretty_log := true; log_level := "DEBUG"; output := None;
     cache_logger_on_first_use := true;
     call_form := {| by_position := 0; by_keyword := [] |} |}.

(** [configure_logging(log_level="info", output=stream)] *)
Definition pretty_to_stream : Args :=
  {| enable_pretty_log := true; log_level := "info"; output := Some 3;
     cache_logger_on_first_use := true;
     call_form := {| by_position := 0; by_keyword := ["log_level"; "output"] |} |}.

(** [configure_logging(False, "INFO", output=stream)] *)
Definition json_info : Args :=
  {| enable_pretty_log := false; log_level := "INFO"; output := Some 7;
     cache_logger_on_first_use := true;
     call_form := {| by_position := 2; by_keyword := ["output"] |} |}.

(** [configure_logging(True, "verbose")] *)
Definition pretty_verbose : Args :=
  {| enable_pretty_log := true; log_level := "verbose"; output := None;
     cache_logger_on_first_use := true;
     call_form := {| by_position := 2; by_keyword := [] |} |}.

Definition deprecation : WarningCall :=
  {| message := "old API"; category := "DeprecationWarning";
     filename := "/opt/airflow/dags/etl.py"; lineno := 12;
     file := None; line := None |}.

(** The same warning, shown with an explicit [file]. *)
Definition deprecation_to_file : WarningCall :=
  {| message := "old API"; category := "DeprecationWarning";
     filename := "/opt/airflow/dags/etl.py"; lineno := 12;
     file := Some 5; line := None |}.

(** A process that calls [reset_logging] first and then configures. *)
Definition reset_then_configured : State :=
  (configure_logging (cpython true false) json_info
     (reset_logging (fresh_state 0)).2).2.

(** A file system with [/var] only, and the usual umask 022. *)
Definition log_volume : MemFs.Fs :=
  {| MemFs.nodes := {[ [] := MemFs.Dir 493; ["var"] := MemFs.Dir 493 ]};
     MemFs.umask := 18; MemFs.cwd := []; MemFs.read_only := false |}.

(** The same with [/var/log], mounted read-only. *)
Definition read_only_volume : MemFs.Fs :=
  {| MemFs.nodes :=
       {[ [] := MemFs.Dir 493; ["var"] := MemFs.Dir 493;
          ["var"; "log"] := MemFs.Dir 493 ]};
     MemFs.umask := 18; MemFs.cwd := []; MemFs.read_only := true |}.

(** A configuration that sets neither permission option. *)
Definition plain_conf : Conf :=
  {| file_task_handler_new_file_permissions := None;
     file_task_handler_new_folder_permissions := None;
     base_log_folder := "/var/log" |}.

(** * Properties *)

(** ** Dictionaries *)

Section Dicts.
Implicit Types (d p r : EventDict) (k : string) (v : Value).

Lemma dict_get_None k d : k ∉ d.*1 -> dict_get k d = None.
Proof.
  induction d as [|[k' v'] d IH]; simpl; [done|].
  intros Hk. destruct (String.eqb_spec k k') as [->|Hne].
  - exfalso. apply Hk. left.
  - apply IH. intros Hin. apply Hk. by right.
Qed.

Lemma dict_set_app k v v0 p r :
  k ∉ p.*1 -> dict_set k v (p ++ (k, v0) :: r) = p ++ (k, v) :: r.
Proof.
  induction p as [|[k' v'] p IH]; simpl; intros Hk.
  - by rewrite String.eqb_refl.
  - destruct (String.eqb_spec k k') as [->|Hne].
    + exfalso. apply Hk. left.
    + f_equal. apply IH. intros Hin. apply Hk. by right.
Qed.

Lemma dict_get_set_eq k v d : dict_get k (dict_set k v d) = Some v.
Proof.
  induction d as [|[k' v'] d IH]; simpl.
  - by rewrite String.eqb_refl.
  - destruct (String.eqb_spec k k') as [->|Hne]; simpl.
    + by rewrite String.eqb_refl.
    + by destruct (String.eqb_spec k k').
Qed.

Lemma dict_get_set_ne k k' v d :
  k <> k' -> dict_get k (dict_set k' v d) = dict_get k d.
Proof.
  intros Hne. induction d as [|[k1 v1] d IH]; simpl.
  - by destruct (String.eqb_spec k k').
  - destruct (String.eqb_spec k' k1) as [->|Hne1]; simpl.
    + destruct (String.eqb_spec k k1); [done|done].
    + destruct (String.eqb_spec k k1); [done|apply IH].
Qed.

Lemma dict_get_del_eq k d : wf_dict d -> dict_get k (dict_del k d) = None.
Proof.
  unfold wf_dict. induction d as [|[k' v'] d IH]; simpl; [done|].
  intros Hnd. apply NoDup_cons in Hnd as [Hk' Hnd].
  destruct (String.eqb_spec k k') as [->|Hne]; simpl.
  - by apply dict_get_None.
  - destruct (String.eqb_spec k k'); [done|by apply IH].
Qed.

Lemma dict_get_del_ne k k' d :
  k <> k' -> dict_get k (dict_del k' d) = dict_get k d.
Proof.
  intros Hne. induction d as [|[k1 v1] d IH]; simpl; [done|].
  destruct (String.eqb_spec k' k1) as [->|Hne1]; simpl.
  - by destruct (String.eqb_spec k k1).
  - destruct (String.eqb_spec k k1); [done|apply IH].
Qed.

(** One pass of the loop of [redact_jwt] over the items [r] that follow
    the already visited items [p]. *)
Lemma redact_jwt_loop p r :
  NoDup ((p ++ r).*1) ->
  fold_left
    (fun d kv => if str_startswith "eyJ" kv.2
                 then dict_set kv.1 (VStr "eyJ***") d else d)
    r (p ++ r)
  = p ++ ((fun kv => (kv.1, if str_startswith "eyJ" kv.2
                           then VStr "eyJ***" else kv.2)) <$> r).
Proof.
  revert p. induction r as [|[k v] r IH]; intros p Hnd; simpl; [done|].
  assert (Hk : k ∉ p.*1).
  { rewrite fmap_app in Hnd. apply NoDup_app in Hnd as (_ & Hdis & _).
    intros Hin. apply (Hdis _ Hin). simpl. left. }
  set (v' := if str_startswith "eyJ" v then VStr "eyJ***" else v).
  assert (Hacc : (if str_startswith "eyJ" v
                  then dict_set k (VStr "eyJ***") (p ++ (k, v) :: r)
                  else p ++ (k, v) :: r) = (p ++ [(k, v')]) ++ r).
  { subst v'. rewrite <- app_assoc. simpl.
    destruct (str_startswith "eyJ" v); [by apply dict_set_app|done]. }
  rewrite Hacc, IH.
  - by rewrite <- app_assoc.
  - rewrite <- app_assoc. simpl.
    rewrite !fmap_app in *. simpl in *. done.
Qed.

Lemma redact_jwt_map logger method_name d :
  wf_dict d ->
  redact_jwt logger method_name d
  = (fun kv => (kv.1, if str_startswith "eyJ" kv.2
                     then VStr "eyJ***" else kv.2)) <$> d.
Proof. intros Hwf. apply (redact_jwt_loop [] d Hwf). Qed.

End Dicts.

(** ** Token redaction *)

(** C2.  [redact_jwt] keeps the fields and their order; a field whose
    value is a string that starts with [eyJ] gets the value [eyJ***],
    every other field keeps its value, and an event without such a field is
    returned as it is. *)
Theorem redact_jwt_correct (logger : Logger) (method_name : string)
    (event_dict : EventDict) :
  wf_dict event_dict ->
  let out := redact_jwt logger method_name event_dict in
  out.*1 = event_dict.*1
  /\ (forall i k v, event_dict !! i = Some (k, v) ->
        str_startswith "eyJ" v = true -> out !! i = Some (k, VStr "eyJ***"))
  /\ (forall i k v, event_dict !! i = Some (k, v) ->
        str_startswith "eyJ" v = false -> out !! i = Some (k, v))
  /\ ((forall k v, (k, v) ∈ event_dict -> str_startswith "eyJ" v = false) ->
        out = event_dict).
Proof.
  intros Hwf out. subst out. rewrite (redact_jwt_map _ _ _ Hwf).
  repeat split.
  - clear Hwf. induction event_dict as [|[k v] d IH]; simpl; [done|].
    f_equal. apply IH.
  - intros i k v Hi Hv.
    rewrite list_lookup_fmap, Hi. simpl. by rewrite Hv.
  - intros i k v Hi Hv.
    rewrite list_lookup_fmap, Hi. simpl. by rewrite Hv.
  - clear Hwf. induction event_dict as [|[k v] d IH]; simpl; [done|].
    intros Hall. rewrite (Hall k v) by left. f_equal.
    apply IH. intros k' v' Hin. apply (Hall k' v'). by right.
Qed.

Lemma redact_jwt_correct_witness :
  let d := [("event", VStr "task finished"); ("token", VStr "eyJabc");
            ("n", VInt 3)] in
  redact_jwt () "info" d !! 1 = Some ("token", VStr "eyJ***")
  /\ redact_jwt () "info" d !! 2 = Some ("n", VInt 3).
Proof.
  intros d.
  assert (Hwf : wf_dict d).
  { unfold wf_dict. compute_done. }
  destruct (redact_jwt_correct () "info" d Hwf) as (_ & Hred & Hkeep & _).
  split.
  - apply (Hred 1 "token" (VStr "eyJabc")); reflexivity.
  - apply (Hkeep 2 "n" (VInt 3)); reflexivity.
Defined.

(** ** Exception groups *)

(** Case analysis on what the processor inspects, innermost test first. *)
Ltac by_cases :=
  repeat match goal with
         | |- context [match ?x with _ => _ end] =>
             lazymatch x with
             | context [match _ with _ => _ end] => fail
             | _ => destruct x; simpl; try reflexivity
             end
         end.

Section Groups.
Context (rt : Runtime) (format_exception : ExcInfo -> list Value)
  (sys_exc_info : option PyExc) (logger : Logger) (method_name : string).
Implicit Types (event_dict : EventDict).

Lemma exception_group_tracebacks_falsy event_dict :
  truthy (default VNone (dict_get "exc_info" event_dict)) = false ->
  exception_group_tracebacks rt format_exception sys_exc_info logger method_name
    event_dict
  = Return event_dict.
Proof. intros H. unfold exception_group_tracebacks. by rewrite H. Qed.

(** Where the closure variable is unbound, the first [isinstance] that is
    evaluated raises. *)
Lemma exception_group_tracebacks_unbound event_dict :
  has_BaseExceptionGroup rt = true ->
  truthy (default VNone (dict_get "exc_info" event_dict)) = true ->
  exception_group_tracebacks rt format_exception sys_exc_info logger method_name
    event_dict
  = Raise unbound_BaseExceptionGroup.
Proof.
  intros Hrt H. unfold exception_group_tracebacks. rewrite H.
  unfold isinstance_BaseExceptionGroup, BaseExceptionGroup. rewrite Hrt.
  by_cases.
Qed.

(** Where it holds the stand-in class, no group is found. *)
Lemma exception_group_tracebacks_stand_in event_dict :
  has_BaseExceptionGroup rt = false ->
  exception_group_tracebacks rt format_exception sys_exc_info logger method_name
    event_dict
  = Return event_dict.
Proof.
  intros Hrt. unfold exception_group_tracebacks.
  unfold isinstance_BaseExceptionGroup, BaseExceptionGroup. rewrite Hrt.
  by_cases.
Qed.

End Groups.

(** C5.  The processor on the event whose failure is a group of two
    sub-failures and on the event whose failure is a single one: where
    the test with [hasattr] succeeds, the closure variable
    [BaseExceptionGroup] is unbound and the processor raises [NameError]
    on both; where the test fails, it returns both as they are.  The
    group is flattened on no runtime. *)
Theorem group_event_not_flattened (rt : Runtime) (sys_exc_info : option PyExc) :
  let format_exception := Structlog.format_exception (dict_exc_formatter rt) in
  let on_group :=
    exception_group_tracebacks rt format_exception sys_exc_info () "error"
      group_event in
  let on_single :=
    exception_group_tracebacks rt format_exception sys_exc_info () "error"
      single_event in
  on_group = (if has_BaseExceptionGroup rt then Raise unbound_BaseExceptionGroup
              else Return group_event)
  /\ on_single = (if has_BaseExceptionGroup rt then Raise unbound_BaseExceptionGroup
                  else Return single_event)
  /\ ~ (exists out, on_group = Return out /\ flattened_to_three out).
Proof.
  intros fmt on_group on_single.
  assert (Hgroup : on_group
                   = if has_BaseExceptionGroup rt then Raise unbound_BaseExceptionGroup
                     else Return group_event).
  { subst on_group. destruct (has_BaseExceptionGroup rt) eqn:Hrt.
    - by apply exception_group_tracebacks_unbound.
    - by apply exception_group_tracebacks_stand_in. }
  split; [exact Hgroup|]. split.
  - subst on_single. destruct (has_BaseExceptionGroup rt) eqn:Hrt.
    + by apply exception_group_tracebacks_unbound.
    + by apply exception_group_tracebacks_stand_in.
  - rewrite Hgroup. intros (out & Hout & Hgone & _).
    destruct (has_BaseExceptionGroup rt); [discriminate Hout|].
    injection Hout as <-. discriminate Hgone.
Qed.

(** ** Order of the pipeline *)

(** The chain on every runtime.  Both modes start with the same seven
    processors.  Pretty mode ends with the console renderer.  Structured
    mode continues with the exception-group processor where the test with
    [hasattr] succeeds (and without it otherwise), then the exception
    renderer, the Unicode decoder and the JSON renderer.  The last
    processor is a renderer, token redaction comes before the exception
    renderer, and the group processor, when present, comes before it too. *)
Lemma logging_processors_order (rt : Runtime) (new_id : nat)
    (enable_pretty_log : bool) :
  let chain := items (logging_processors_body rt new_id enable_pretty_log).1 in
  let t := dict_exc_formatter rt in
  chain
  = (if enable_pretty_log then
       shared_chain "%Y-%m-%d %H:%M:%S.%f"
       ++ [Proc.ConsoleRenderer rich_exc_formatter
             (dict_set "debug" Structlog.CYAN Structlog.default_level_styles)]
     else
       shared_chain "iso"
       ++ (if has_BaseExceptionGroup rt then [Proc.exception_group_tracebacks t] else [])
       ++ [Proc.ExceptionRenderer t; Proc.UnicodeDecoder; Proc.JSONRenderer])
  /\ (exists r, last chain = Some r /\ is_renderer r = true)
  /\ (enable_pretty_log = false ->
        precedes Proc.redact_jwt (Proc.ExceptionRenderer t) chain
        /\ precedes (Proc.ExceptionRenderer t) Proc.JSONRenderer chain
        /\ (has_BaseExceptionGroup rt = true ->
              precedes Proc.redact_jwt (Proc.exception_group_tracebacks t) chain
              /\ precedes (Proc.exception_group_tracebacks t)
                   (Proc.ExceptionRenderer t) chain)).
Proof.
  intros chain t. subst chain t. unfold logging_processors_body, precedes.
  destruct enable_pretty_log; simpl.
  - split; [reflexivity|]. split; [|discriminate].
    eexists. split; reflexivity.
  - destruct (has_BaseExceptionGroup rt); simpl.
    + split; [reflexivity|]. split; [eexists; split; reflexivity|].
      intros _. split; [|split; [|intros _; split]].
      * exists 5, 8. repeat split; [lia].
      * exists 8, 10. repeat split; [lia].
      * exists 5, 7. repeat split; [lia].
      * exists 7, 8. repeat split; [lia].
    + split; [reflexivity|]. split; [eexists; split; reflexivity|].
      intros _. split; [|split; [|discriminate]].
      * exists 5, 7. repeat split; [lia].
      * exists 7, 9. repeat split; [lia].
Qed.

(** C6.  Where the test with [hasattr] fails - in every module that is
    imported, on CPython - the structured pipeline is the seven shared
    processors, the exception renderer, the Unicode decoder and the JSON
    renderer: it holds no exception-group processor, and the entry
    [exc_group_processor] of the second result is [None]. *)
Theorem structured_chain_without_group_processor (rt : Runtime) (new_id : nat) :
  has_BaseExceptionGroup rt = false ->
  let built := logging_processors_body rt new_id false in
  items built.1
  = shared_chain "iso"
    ++ [Proc.ExceptionRenderer (dict_exc_formatter rt); Proc.UnicodeDecoder;
        Proc.JSONRenderer]
  /\ ~ (exists t, Proc.exception_group_tracebacks t ∈ items built.1)
  /\ dict_get "exc_group_processor" built.2 = Some None.
Proof.
  intros Hrt built. subst built. unfold logging_processors_body. rewrite Hrt.
  split; [reflexivity|]. split; [|reflexivity].
  intros [t Hin]. simpl in Hin.
  repeat (apply elem_of_cons in Hin as [Hin|Hin]; [discriminate Hin|]).
  by apply elem_of_nil in Hin.
Qed.

Lemma structured_chain_without_group_processor_witness :
  ~ (exists t, Proc.exception_group_tracebacks t
               ∈ items (logging_processors_body imported_module 0 false).1).
Proof.
  destruct (structured_chain_without_group_processor imported_module 0 eq_refl)
    as (_ & Hnone & _).
  exact Hnone.
Defined.

(** ** The sink adapter *)

Section Bytes.
Local Open Scope Z_scope.



Lemma low_bits cp n : 0 <= n -> 0 <= Z.land cp (Z.ones n) < 2 ^ n.
Proof.
  intros Hn. rewrite Z.land_ones by exact Hn.
  apply Z.mod_pos_bound. by apply Z.pow_pos_nonneg.
Qed.















End Bytes.




(** ** The memoized builder *)

Section Builder.
Context (rt : Runtime).
Implicit Types (s : State) (m : bool) (c : BuilderCall) (a : Args).

Lemma logging_processors_call_hit c s r :
  logging_processors_cache s !! c = Some r ->
  logging_processors_call rt c s = (Return r, s).
Proof.
  intros H. unfold logging_processors_call, mbind, M_bind, get_state. simpl.
  by rewrite H.
Qed.

Lemma logging_processors_call_miss c s :
  logging_processors_cache s !! c = None ->
  logging_processors_call rt c s
  = (Return (logging_processors_body rt (next_id s) (call_mode c)),
     set_logging_processors_cache
       (<[c := logging_processors_body rt (next_id s) (call_mode c)]>
          (logging_processors_cache s))
       (set_next_id (S (next_id s)) s)).
Proof.
  intros H. unfold logging_processors_call, mbind, M_bind, get_state. simpl.
  by rewrite H.
Qed.

Lemma logging_processors_hit m s r :
  logging_processors_cache s !! positional m = Some r ->
  logging_processors rt m s = (Return r, s).
Proof. apply logging_processors_call_hit. Qed.


(** A call returns a result that is then in the table, and changes nothing
    but the table and the allocation counter. *)
Lemma logging_processors_call_run c s :
  exists r s',
    logging_processors_call rt c s = (Return r, s')
    /\ logging_processors_cache s' !! c = Some r
    /\ warnings_showwarning s' = warnings_showwarning s
    /\ _warnings_showwarning s' = _warnings_showwarning s
    /\ configure_logging_cache s' = configure_logging_cache s
    /\ calls s' = calls s.
Proof.
  destruct (logging_processors_cache s !! c) as [r|] eqn:E.
  - exists r, s. by rewrite (logging_processors_call_hit _ _ _ E).
  - eexists _, _. rewrite (logging_processors_call_miss _ _ E). split; [done|].
    simpl. by rewrite lookup_insert_eq.
Qed.

Lemma logging_processors_run m s :
  exists r s',
    logging_processors rt m s = (Return r, s')
    /\ logging_processors_cache s' !! positional m = Some r
    /\ warnings_showwarning s' = warnings_showwarning s
    /\ _warnings_showwarning s' = _warnings_showwarning s
    /\ configure_logging_cache s' = configure_logging_cache s
    /\ calls s' = calls s.
Proof. apply logging_processors_call_run. Qed.

Lemma logging_processors_call_wf c s :
  wf_state rt s ->
  exists id s',
    logging_processors_call rt c s
    = (Return (logging_processors_body rt id (call_mode c)), s')
    /\ wf_state rt s'
    /\ logging_processors_cache s' !! c
       = Some (logging_processors_body rt id (call_mode c)).
Proof.
  intros [Hlp Hcf].
  destruct (logging_processors_cache s !! c) as [r|] eqn:E.
  - destruct (Hlp _ _ E) as (id & _ & ->). exists id, s.
    by rewrite (logging_processors_call_hit _ _ _ E).
  - exists (next_id s). eexists. rewrite (logging_processors_call_miss _ _ E).
    split; [done|]. split; [|simpl; by rewrite lookup_insert_eq].
    split; simpl; [|exact Hcf].
    intros c' r'. rewrite lookup_insert. case_decide as Hm.
    + intros [= <-]. subst c'. exists (next_id s). split; [lia|done].
    + intros Hr'. destruct (Hlp _ _ Hr') as (id & Hid & ->).
      exists id. split; [lia|done].
Qed.

Lemma logging_processors_wf m s :
  wf_state rt s ->
  exists id s',
    logging_processors rt m s = (Return (logging_processors_body rt id m), s')
    /\ wf_state rt s'
    /\ logging_processors_cache s' !! positional m
       = Some (logging_processors_body rt id m).
Proof. apply (logging_processors_call_wf (positional m)). Qed.

Lemma logging_processors_body_id new_id m :
  list_id (logging_processors_body rt new_id m).1 = new_id.
Proof.
  unfold logging_processors_body.
  destruct m; [reflexivity|]. by destruct (has_BaseExceptionGroup rt).
Qed.

(** A list the builder creates is a new object: its identity differs from
    that of every list already in the table. *)
Lemma logging_processors_call_new_object c c' r s :
  wf_state rt s ->
  logging_processors_cache s !! c = None ->
  logging_processors_cache s !! c' = Some r ->
  exists r' s',
    logging_processors_call rt c s = (Return r', s')
    /\ list_id r'.1 <> list_id r.1.
Proof.
  intros [Hlp _] Hmiss Hr. eexists _, _.
  split; [by apply logging_processors_call_miss|].
  destruct (Hlp _ _ Hr) as (id & Hid & ->).
  rewrite !logging_processors_body_id. lia.
Qed.

End Builder.

(** ** One run of [configure_logging] *)

Section Configure.
Context (rt : Runtime).
Implicit Types (s : State) (a : Args).

Lemma configure_logging_body_invalid a s :
  enable_pretty_log a && bool_decide (output a <> None) = true ->
  configure_logging_body rt a s
  = (Raise (ValueError "output can only be set if enable_pretty_log is not"), s).
Proof. intros H. unfold configure_logging_body. by rewrite H. Qed.

Lemma configure_logging_body_unknown a s :
  enable_pretty_log a && bool_decide (output a <> None) = false ->
  dict_get (lower (log_level a)) Structlog.NAME_TO_LEVEL = None ->
  configure_logging_body rt a s = (Raise (KeyError (lower (log_level a))), s).
Proof.
  intros H1 H2. unfold configure_logging_body. rewrite H1.
  unfold mbind, M_bind, getitem. by rewrite H2.
Qed.

Lemma install_showwarning_run s : install_showwarning s = (Return (), installed s).
Proof.
  unfold install_showwarning, installed, mbind, M_bind, get_state, modify. simpl.
  by destruct (_warnings_showwarning s).
Qed.

Lemma do_dictConfig_run dc s :
  do_dictConfig dc s
  = match Logging.dictConfig dc with
    | Return _ => (Return (), add_call (logging_dictConfig dc) s)
    | Raise e => (Raise e, s)
    end.
Proof.
  unfold do_dictConfig, mbind, M_bind, lift, modify.
  by destruct (Logging.dictConfig dc).
Qed.

(** The run from a state whose builder table is well formed: the
    pipeline comes from the builder, [structlog.configure] is called with
    it, the bridge is installed, and [dictConfig] decides the outcome. *)
Lemma configure_logging_body_run a s lvl :
  wf_state rt s ->
  enable_pretty_log a && bool_decide (output a <> None) = false ->
  dict_get (lower (log_level a)) Structlog.NAME_TO_LEVEL = Some lvl ->
  exists id s1 dc,
    logging_processors rt (enable_pretty_log a) s
    = (Return (logging_processors_body rt id (enable_pretty_log a)), s1)
    /\ wf_state rt s1
    /\ let s2 := installed (add_call (structlog_configure
                   (configured rt a lvl
                      (logging_processors_body rt id (enable_pretty_log a)).1)) s1) in
       configure_logging_body rt a s
       = if Logging.checkLevel (upper (log_level a))
         then (Return (), add_call (logging_dictConfig dc) s2)
         else (Raise (ValueError "Unable to configure handler 'default'"), s2).
Proof.
  intros Hwf H1 H2.
  destruct (logging_processors_wf rt (enable_pretty_log a) s Hwf)
    as (id & s1 & Hlp & Hwf1 & _).
  exists id, s1.
  unfold configure_logging_body. rewrite H1.
  unfold mbind at 1. unfold M_bind at 1. unfold getitem. rewrite H2.
  unfold mret at 1. unfold M_ret at 1.
  unfold mbind at 1. unfold M_bind at 1. rewrite Hlp.
  unfold configured.
  destruct a as [pretty level out cache form].
  cbn [enable_pretty_log log_level output cache_logger_on_first_use] in *.
  clear H1 H2 Hlp.
  destruct pretty; [|destruct (has_BaseExceptionGroup rt) eqn:Hbeg];
    (eexists; split; [reflexivity|split; [assumption|]]);
    unfold logging_processors_body; try rewrite Hbeg;
    unfold getproc, getitem, do_structlog_configure, modify, raise;
    unfold mbind, M_bind, mret, M_ret;
    cbn -[Logging.checkLevel upper installed install_showwarning do_dictConfig];
    rewrite install_showwarning_run, do_dictConfig_run;
    unfold Logging.dictConfig;
    cbn -[Logging.checkLevel upper installed];
    destruct (Logging.checkLevel (upper level)); reflexivity.
Qed.

Lemma configure_logging_hit a s :
  a ∈ configure_logging_cache s -> configure_logging rt a s = (Return (), s).
Proof.
  intros H. unfold configure_logging, mbind, M_bind, get_state. simpl.
  by rewrite bool_decide_eq_true_2.
Qed.

Lemma configure_logging_miss a s :
  a ∉ configure_logging_cache s ->
  configure_logging rt a s
  = match configure_logging_body rt a s with
    | (Return _, s') =>
        (Return (),
         set_configure_logging_cache ({[a]} ∪ configure_logging_cache s') s')
    | (Raise e, s') => (Raise e, s')
    end.
Proof.
  intros H. unfold configure_logging, mbind, M_bind, get_state, modify. simpl.
  rewrite bool_decide_eq_false_2 by exact H.
  by destruct (configure_logging_body rt a s) as [[]].
Qed.

(** [wf_state] looks at the two tables and the allocation counter only. *)
Lemma wf_state_tables s s' :
  logging_processors_cache s' = logging_processors_cache s ->
  next_id s' = next_id s ->
  configure_logging_cache s' ⊆ configure_logging_cache s ->
  wf_state rt s -> wf_state rt s'.
Proof.
  intros Hlp Hid Hcf [H1 H2]. split.
  - rewrite Hlp, Hid. exact H1.
  - intros a Ha. apply H2. by apply Hcf.
Qed.

Lemma installed_fields s :
  logging_processors_cache (installed s) = logging_processors_cache s
  /\ next_id (installed s) = next_id s
  /\ configure_logging_cache (installed s) = configure_logging_cache s
  /\ calls (installed s) = calls s.
Proof. unfold installed. by destruct (_warnings_showwarning s). Qed.

Lemma installed_handlers s :
  match _warnings_showwarning s with
  | None => warnings_showwarning (installed s) = Some bridge
            /\ _warnings_showwarning (installed s) = warnings_showwarning s
  | Some h => warnings_showwarning (installed s) = warnings_showwarning s
              /\ _warnings_showwarning (installed s) = Some h
  end.
Proof. unfold installed. by destruct (_warnings_showwarning s) eqn:E. Qed.

Lemma configure_logging_course a s :
  wf_state rt s -> course rt a s (configure_logging rt a s).
Proof.
  intros Hwf.
  destruct (decide (a ∈ configure_logging_cache s)) as [Hin|Hout].
  { rewrite configure_logging_hit by exact Hin. by constructor. }
  rewrite configure_logging_miss by exact Hout.
  destruct (enable_pretty_log a && bool_decide (output a <> None)) eqn:H1.
  { rewrite configure_logging_body_invalid by exact H1. by constructor. }
  destruct (dict_get (lower (log_level a)) Structlog.NAME_TO_LEVEL) as [lvl|] eqn:H2.
  2:{ rewrite configure_logging_body_unknown by assumption. by constructor. }
  destruct (configure_logging_body_run a s lvl Hwf H1 H2)
    as (id & s1 & dc & Hlp & Hwf1 & Hbody).
  cbv zeta in Hbody. rewrite Hbody.
  eapply (course_run rt a s id s1 lvl dc); try eassumption.
  destruct (logging_processors_run rt (enable_pretty_log a) s)
    as (r & s1' & Hlp' & _ & _ & _ & Hcf & _).
  rewrite Hlp in Hlp'. injection Hlp' as _ <-.
  destruct (Logging.checkLevel (upper (log_level a))); [|reflexivity].
  simpl. destruct (installed_fields (add_call (structlog_configure
    (configured rt a lvl (logging_processors_body rt id (enable_pretty_log a)).1)) s1))
    as (_ & _ & Hc & _).
  rewrite Hc. simpl. by rewrite Hcf.
Qed.

Lemma accepted_run a lvl :
  enable_pretty_log a && bool_decide (output a <> None) = false ->
  dict_get (lower (log_level a)) Structlog.NAME_TO_LEVEL = Some lvl ->
  Logging.checkLevel (upper (log_level a)) = true ->
  accepted a = true.
Proof.
  intros H1 H2 H3. unfold accepted, level_known. rewrite H1, H3.
  rewrite bool_decide_eq_true_2 by (rewrite H2; by eexists). done.
Qed.

Lemma accepted_inv a :
  accepted a = true ->
  enable_pretty_log a && bool_decide (output a <> None) = false
  /\ (exists lvl, dict_get (lower (log_level a)) Structlog.NAME_TO_LEVEL = Some lvl)
  /\ Logging.checkLevel (upper (log_level a)) = true.
Proof.
  unfold accepted, level_known. intros H.
  apply andb_prop in H as [H1 H]. apply andb_prop in H as [H2 H3].
  apply negb_true_iff in H1. apply bool_decide_eq_true_1 in H2 as [lvl H2].
  eauto.
Qed.

Lemma configure_logging_wf a s :
  wf_state rt s -> wf_state rt (configure_logging rt a s).2.
Proof.
  intros Hwf. generalize (configure_logging_course a s Hwf).
  generalize (configure_logging rt a s). intros o Hc.
  destruct Hc as [| | |id s1 lvl dc o Hout H1 H2 Hlp Hwf1 s2 ->]; try exact Hwf.
  assert (Hs2 : wf_state rt s2).
  { subst s2.
    destruct (installed_fields (add_call (structlog_configure
      (configured rt a lvl (logging_processors_body rt id (enable_pretty_log a)).1))
      s1)) as (E1 & E2 & E3 & _).
    eapply wf_state_tables; [exact E1|exact E2|by rewrite E3|exact Hwf1]. }
  destruct (Logging.checkLevel (upper (log_level a))) eqn:H3; [|exact Hs2].
  simpl. destruct Hs2 as [Hlps _]. split; [exact Hlps|]. simpl.
  intros a' Ha'. apply elem_of_union in Ha' as [Ha'|Ha'].
  - apply elem_of_singleton in Ha' as ->. by eapply accepted_run.
  - by apply Hwf.
Qed.

Lemma reset_logging_run s :
  reset_logging s
  = (Return (),
     set_configure_logging_cache ∅
       (set_warnings_showwarning (_warnings_showwarning s) s)).
Proof. reflexivity. Qed.

Lemma reset_logging_wf s : wf_state rt s -> wf_state rt (reset_logging s).2.
Proof.
  intros [Hlp _]. rewrite reset_logging_run. split; [exact Hlp|].
  simpl. intros a Ha. by apply elem_of_empty in Ha.
Qed.

Lemma fresh_state_wf h : wf_state rt (fresh_state h).
Proof.
  split; simpl.
  - intros m r Hm. by rewrite lookup_empty in Hm.
  - intros a Ha. by apply elem_of_empty in Ha.
Qed.

(** Every state a process reaches is well formed. *)
Lemma reachable_wf h s : reachable rt h s -> wf_state rt s.
Proof.
  induction 1 as [|c s _ IH].
  - apply fresh_state_wf.
  - destruct c; simpl.
    + by apply configure_logging_wf.
    + by apply reset_logging_wf.
Qed.

(** A call with accepted arguments that are not in the table runs the
    body to its end. *)
Lemma configure_logging_accepted a s :
  wf_state rt s -> a ∉ configure_logging_cache s -> accepted a = true ->
  exists id s1 lvl dc,
    logging_processors rt (enable_pretty_log a) s
    = (Return (logging_processors_body rt id (enable_pretty_log a)), s1)
    /\ configure_logging rt a s
       = (Return (),
          set_configure_logging_cache ({[a]} ∪ configure_logging_cache s)
            (add_call (logging_dictConfig dc)
               (installed (add_call (structlog_configure
                  (configured rt a lvl
                     (logging_processors_body rt id (enable_pretty_log a)).1)) s1)))).
Proof.
  intros Hwf Hout Hacc. apply accepted_inv in Hacc as (H1 & [lvl H2] & H3).
  generalize (configure_logging_course a s Hwf).
  generalize (configure_logging rt a s). intros o Hc.
  destruct Hc as [| | |id s1 lvl' dc o _ _ H2' Hlp _ s2 ->]; try congruence.
  rewrite H3. subst s2. by exists id, s1, lvl', dc.
Qed.

End Configure.

(** ** The check on mode and destination *)

(** C1, as the code has it.  With [enable_pretty_log] set, a call that
    names an output stream raises [ValueError] at once and leaves the
    process as it was; a call without one passes the check, and returns
    whenever its level name is known to [structlog] and to [logging]. *)
Theorem configure_logging_precondition (rt : Runtime) (a : Args) (s : State) :
  wf_state rt s ->
  enable_pretty_log a = true ->
  (output a <> None ->
     configure_logging rt a s
     = (Raise (ValueError "output can only be set if enable_pretty_log is not"), s))
  /\ (output a = None -> level_known (log_level a) = true ->
        (configure_logging rt a s).1 = Return ()).
Proof.
  intros Hwf Hpretty. split.
  - intros Hout.
    assert (Hbad : enable_pretty_log a && bool_decide (output a <> None) = true).
    { rewrite Hpretty. simpl. by apply bool_decide_eq_true_2. }
    assert (Hmiss : a ∉ configure_logging_cache s).
    { intros Hin. apply Hwf in Hin. apply accepted_inv in Hin as (H1 & _).
      congruence. }
    rewrite (configure_logging_miss rt a s Hmiss).
    by rewrite (configure_logging_body_invalid rt a s Hbad).
  - intros Hout Hlevel.
    assert (Hacc : accepted a = true).
    { unfold accepted. rewrite Hpretty, Hout, Hlevel. reflexivity. }
    destruct (decide (a ∈ configure_logging_cache s)) as [Hin|Hmiss].
    + by rewrite (configure_logging_hit rt a s Hin).
    + destruct (configure_logging_accepted rt a s Hwf Hmiss Hacc)
        as (id & s1 & lvl & dc & _ & ->). reflexivity.
Qed.

Lemma configure_logging_precondition_witness :
  configure_logging (cpython true false) pretty_to_stream (fresh_state 0)
  = (Raise (ValueError "output can only be set if enable_pretty_log is not"),
     fresh_state 0)
  /\ (configure_logging (cpython true false) pretty_debug (fresh_state 0)).1
     = Return ().
Proof.
  split.
  - apply (configure_logging_precondition (cpython true false) pretty_to_stream
             (fresh_state 0) (fresh_state_wf _ 0) eq_refl).
    discriminate.
  - apply (configure_logging_precondition (cpython true false) pretty_debug
             (fresh_state 0) (fresh_state_wf _ 0) eq_refl);
      reflexivity.
Defined.

(** C1, as stated, fails: pretty mode without a destination, but with a
    level name [structlog] does not know, raises [KeyError]. *)
Lemma configure_logging_unknown_level :
  (configure_logging (cpython true false) pretty_verbose (fresh_state 0)).1
  = Raise (KeyError "verbose")
  /\ (configure_logging (cpython true false) pretty_verbose (fresh_state 0)).1
     <> Return ().
Proof. split; [vm_compute; reflexivity|vm_compute; discriminate]. Qed.

(** ** Memoization *)

(** C3, as the code has it.  The builder is memoized per call as
    written: a second call that passes the mode the same way (by position,
    or by keyword) returns the very result of the first, identity
    included, and changes nothing; a call written the other way, not yet
    in the table, creates a list that is none of the lists in the table.
    [configure_logging] passes the mode by position.  A second call of
    [configure_logging], written as the first with the same arguments,
    leaves the pipeline of the active configuration the same object; after
    a call that returned it changes nothing at all.  The pipeline a
    returning call installs is the one the builder holds for the mode
    passed by position. *)
Theorem memoized_pipeline (rt : Runtime) (s : State) :
  wf_state rt s ->
  (forall c, exists r s1,
     logging_processors_call rt c s = (Return r, s1)
     /\ logging_processors_call rt c s1 = (Return r, s1))
  /\ (forall c c' r,
        logging_processors_cache s !! c = Some r ->
        logging_processors_cache s !! c' = None ->
        exists r' s1,
          logging_processors_call rt c' s = (Return r', s1)
          /\ list_id r'.1 <> list_id r.1)
  /\ (forall a,
        let s1 := (configure_logging rt a s).2 in
        active_pipeline (calls (configure_logging rt a s1).2)
        = active_pipeline (calls s1)
        /\ ((configure_logging rt a s).1 = Return () ->
              configure_logging rt a s1 = (Return (), s1))
        /\ (a ∉ configure_logging_cache s ->
            (configure_logging rt a s).1 = Return () ->
            exists r, logging_processors_cache s1 !! positional (enable_pretty_log a)
                      = Some r
                      /\ active_pipeline (calls s1) = Some r.1)).
Proof.
  intros Hwf. split.
  { intros c. destruct (logging_processors_call_run rt c s) as (r & s1 & Hlp & Hr & _).
    exists r, s1. split; [exact Hlp|]. by apply logging_processors_call_hit. }
  split.
  { intros c c' r Hr Hmiss.
    exact (logging_processors_call_new_object rt c' c r s Hwf Hmiss Hr). }
  intros a. cbv zeta.
  generalize (configure_logging_course rt a s Hwf).
  generalize (configure_logging rt a s). intros o Hc.
  destruct Hc as [Hin|Hout H1|Hout H1 H2|id s1 lvl dc o Hout H1 H2 Hlp Hwf1 s2 ->];
    simpl.
  - rewrite (configure_logging_hit rt a s Hin). by repeat split.
  - rewrite (configure_logging_miss rt a s Hout).
    rewrite (configure_logging_body_invalid rt a s H1). by repeat split.
  - rewrite (configure_logging_miss rt a s Hout).
    rewrite (configure_logging_body_unknown rt a s H1 H2). by repeat split.
  - destruct (logging_processors_run rt (enable_pretty_log a) s)
      as (r & s1' & Hlp' & Hr & _ & _ & Hcf & _).
    rewrite Hlp in Hlp'. injection Hlp' as <- <-.
    destruct (installed_fields (add_call (structlog_configure
      (configured rt a lvl (logging_processors_body rt id (enable_pretty_log a)).1))
      s1)) as (E1 & E2 & E3 & E4). fold s2 in E1, E2, E3, E4.
    assert (Hs2 : wf_state rt s2).
    { eapply wf_state_tables; [exact E1|exact E2|by rewrite E3|exact Hwf1]. }
    assert (Hact : active_pipeline (calls s2)
                   = Some (logging_processors_body rt id (enable_pretty_log a)).1).
    { by rewrite E4. }
    destruct (Logging.checkLevel (upper (log_level a))) eqn:H3; simpl.
    + rewrite configure_logging_hit
        by (simpl; apply elem_of_union_l, elem_of_singleton; reflexivity).
      split; [done|]. split; [done|]. intros _ _.
      eexists. split; [rewrite E1; exact Hr|]. exact Hact.
    + split; [|split; [discriminate|intros _; discriminate]].
      assert (Hout2 : a ∉ configure_logging_cache s2).
      { rewrite E3. simpl. by rewrite Hcf. }
      generalize (configure_logging_course rt a s2 Hs2).
      generalize (configure_logging rt a s2). intros o Hc.
      destruct Hc as [Hin|_ H1'|_ _ H2'|id' s1' lvl' dc' o _ _ H2' Hlp' _ s2' ->];
        try done; try congruence.
      assert (Hhit : logging_processors rt (enable_pretty_log a) s2
                     = (Return (logging_processors_body rt id (enable_pretty_log a)), s2)).
      { apply logging_processors_hit. by rewrite E1. }
      rewrite Hhit in Hlp'. injection Hlp' as Hbody <-.
      destruct (installed_fields (add_call (structlog_configure
        (configured rt a lvl' (logging_processors_body rt id' (enable_pretty_log a)).1))
        s2)) as (_ & _ & _ & E4'). fold s2' in E4'.
      rewrite H3. simpl. rewrite E4', Hact. simpl. by rewrite Hbody.
Qed.

Lemma memoized_pipeline_witness :
  let s1 := (configure_logging (cpython true false) json_info (fresh_state 0)).2 in
  configure_logging (cpython true false) json_info s1 = (Return (), s1).
Proof.
  intros s1.
  destruct (memoized_pipeline (cpython true false) (fresh_state 0)
              (fresh_state_wf _ 0)) as (_ & _ & Hconfigure).
  destruct (Hconfigure json_info) as (_ & Hsame & _).
  apply Hsame. vm_compute. reflexivity.
Defined.

(** C3, as stated, fails: the builder called with the mode by position
    and then with the same mode by keyword returns two lists that are not
    the same object. *)
Lemma same_mode_two_objects :
  let rt := cpython true false in
  let first := logging_processors_call rt (positional false) (fresh_state 0) in
  let second := logging_processors_call rt (keyword false) first.2 in
  (exists r r', first.1 = Return r /\ second.1 = Return r'
                /\ list_id r.1 = 0 /\ list_id r'.1 = 1)
  /\ ~ memoized_per_mode rt (fresh_state 0).
Proof.
  intros rt first second.
  assert (H : exists r r', first.1 = Return r /\ second.1 = Return r'
                           /\ list_id r.1 = 0 /\ list_id r'.1 = 1).
  { eexists _, _. repeat split; vm_compute; reflexivity. }
  split; [exact H|].
  destruct H as (r & r' & H1 & H2 & I1 & I2).
  intros Hmemo.
  specialize (Hmemo (positional false) (keyword false) r r' eq_refl H1 H2).
  rewrite I1, I2 in Hmemo. discriminate.
Qed.

(** ** The handlers around one run *)

Section Handlers.
Context (rt : Runtime).
Implicit Types (s : State) (a : Args).

(** What a call does to [warnings.showwarning] and to the saved handler:
    nothing once a handler is saved; otherwise nothing, or the
    installation of the bridge over the current handler. *)
Lemma configure_logging_handlers a s :
  wf_state rt s ->
  let s' := (configure_logging rt a s).2 in
  match _warnings_showwarning s with
  | Some h =>
      warnings_showwarning s' = warnings_showwarning s
      /\ _warnings_showwarning s' = Some h
  | None =>
      (warnings_showwarning s' = warnings_showwarning s
       /\ _warnings_showwarning s' = None)
      \/ (warnings_showwarning s' = Some bridge
          /\ _warnings_showwarning s' = warnings_showwarning s)
  end.
Proof.
  intros Hwf. cbv zeta.
  generalize (configure_logging_course rt a s Hwf).
  generalize (configure_logging rt a s). intros o Hc.
  destruct Hc as [Hin|Hout H1|Hout H1 H2|id s1 lvl dc o Hout H1 H2 Hlp Hwf1 s2 ->];
    simpl; try (destruct (_warnings_showwarning s); by auto).
  destruct (logging_processors_run rt (enable_pretty_log a) s)
    as (r & s1' & Hlp' & _ & Hh & Hsv & _).
  rewrite Hlp in Hlp'. injection Hlp' as _ <-.
  pose proof (installed_handlers (add_call (structlog_configure
    (configured rt a lvl (logging_processors_body rt id (enable_pretty_log a)).1))
    s1)) as Hinst.
  fold s2 in Hinst. simpl in Hinst. rewrite Hsv, Hh in Hinst.
  destruct (Logging.checkLevel (upper (log_level a))); simpl;
    destruct (_warnings_showwarning s); by auto.
Qed.

(** A call that runs the body to its end while no handler is saved
    installs the bridge and saves the handler it replaces. *)
Lemma bridge_installed a s :
  wf_state rt s -> _warnings_showwarning s = None ->
  a ∉ configure_logging_cache s -> accepted a = true ->
  let s' := (configure_logging rt a s).2 in
  warnings_showwarning s' = Some bridge
  /\ _warnings_showwarning s' = warnings_showwarning s.
Proof.
  intros Hwf Hnone Hout Hacc. cbv zeta.
  destruct (configure_logging_accepted rt a s Hwf Hout Hacc)
    as (id & s1 & lvl & dc & Hlp & ->).
  destruct (logging_processors_run rt (enable_pretty_log a) s)
    as (r & s1' & Hlp' & _ & Hh & Hsv & _).
  rewrite Hlp in Hlp'. injection Hlp' as _ <-.
  pose proof (installed_handlers (add_call (structlog_configure
    (configured rt a lvl (logging_processors_body rt id (enable_pretty_log a)).1))
    s1)) as Hinst.
  simpl in Hinst. rewrite Hsv, Hnone, Hh in Hinst. exact Hinst.
Qed.

End Handlers.

(** ** Reset *)




(** ** The warning bridge *)

(** C8, as the code has it.  While the bridge is in
    [warnings.showwarning]: a warning with a [file] goes, with its
    arguments, to the saved handler if there is one, and nowhere if none is
    saved; a warning without a [file] becomes a [warning] call on the
    logger obtained with [logger_name="py.warnings"], carrying the category
    name, the file name and the line number, which the pipeline turns into
    the fields [level] and [logger]; and once a handler is saved, a further
    [configure_logging], whatever its arguments, leaves both
    [warnings.showwarning] and the saved handler as they are. *)
Theorem showwarning_bridge (rt : Runtime) (s : State) :
  wf_state rt s ->
  warnings_showwarning s = Some bridge ->
  (forall n w f, _warnings_showwarning s = Some (other_showwarning n) ->
     file w = Some f ->
     Warnings.showwarnmsg s w = (Return (), [called n w]))
  /\ (forall w f, _warnings_showwarning s = None -> file w = Some f ->
        Warnings.showwarnmsg s w = (Return (), []))
  /\ (forall w, file w = None ->
        exists c,
          Warnings.showwarnmsg s w = (Return (), [logged c])
          /\ Structlog.method c = "warning"
          /\ Structlog.initial_values c = [("logger_name", VStr "py.warnings")]
          /\ let ev := logger_name () (Structlog.method c)
                         (Structlog.add_log_level (Structlog.method c)
                            (Structlog.event_dict_of c)) in
             ev = [("category", VStr (category w)); ("filename", VStr (filename w));
                   ("lineno", VInt (lineno w)); ("event", VStr (message w));
                   ("level", VStr "warning"); ("logger", VStr "py.warnings")])
  /\ (forall h a, _warnings_showwarning s = Some h ->
        warnings_showwarning (configure_logging rt a s).2 = Some bridge
        /\ _warnings_showwarning (configure_logging rt a s).2 = Some h).
Proof.
  intros Hwf Hbridge. split; [|split; [|split]].
  - intros n w f Hsaved Hf. unfold Warnings.showwarnmsg, _showwarning.
    by rewrite Hbridge, Hf, Hsaved.
  - intros w f Hsaved Hf. unfold Warnings.showwarnmsg, _showwarning.
    by rewrite Hbridge, Hf, Hsaved.
  - intros w Hf. unfold Warnings.showwarnmsg, _showwarning.
    rewrite Hbridge, Hf. eexists. split; [reflexivity|]. by repeat split.
  - intros h a Hsaved.
    pose proof (configure_logging_handlers rt a s Hwf) as Hkeep.
    cbv zeta in Hkeep. rewrite Hsaved in Hkeep. destruct Hkeep as [H1 H2].
    by rewrite H1, H2, Hbridge.
Qed.

Lemma showwarning_bridge_witness :
  let s := (configure_logging (cpython true false) json_info (fresh_state 0)).2 in
  Warnings.showwarnmsg s deprecation_to_file = (Return (), [called 0 deprecation_to_file])
  /\ exists c, Warnings.showwarnmsg s deprecation = (Return (), [logged c])
               /\ Structlog.method c = "warning".
Proof.
  intros s.
  assert (Hwf : wf_state (cpython true false) s)
    by apply configure_logging_wf, fresh_state_wf.
  assert (Hb : warnings_showwarning s = Some bridge) by (vm_compute; reflexivity).
  assert (Hs : _warnings_showwarning s = Some (other_showwarning 0))
    by (vm_compute; reflexivity).
  destruct (showwarning_bridge (cpython true false) s Hwf Hb) as (Hfile & _ & Hlog & _).
  split.
  - apply (Hfile 0 deprecation_to_file 5 Hs eq_refl).
  - destruct (Hlog deprecation eq_refl) as (c & Hc & Hm & _).
    exists c. split; [exact Hc|exact Hm].
Defined.

(** C8, as stated, fails in a process that calls [reset_logging] before
    its first [configure_logging]: the bridge is installed over [None], so
    a warning with a [file] reaches no handler, and a further
    [configure_logging] saves a handler again, the bridge itself. *)
Lemma bridge_over_no_handler :
  warnings_showwarning reset_then_configured = Some bridge
  /\ Warnings.showwarnmsg reset_then_configured deprecation_to_file = (Return (), [])
  /\ _warnings_showwarning reset_then_configured = None
  /\ _warnings_showwarning
       (configure_logging (cpython true false) pretty_debug reset_then_configured).2
     = Some bridge.
Proof. repeat split; vm_compute; reflexivity. Qed.

(** C10.  While no handler is saved, [reset_logging] stores [None] in
    [warnings.showwarning], whatever was there; from then on showing a
    warning calls no handler and raises [TypeError]. *)
Theorem reset_logging_before_configure (s : State) :
  _warnings_showwarning s = None ->
  let s' := (reset_logging s).2 in
  warnings_showwarning s' = None
  /\ forall w, Warnings.showwarnmsg s' w
               = (Raise (TypeError
                    "warnings.showwarning() must be set to a function or method"),
                  []).
Proof.
  intros Hnone s'. subst s'. rewrite reset_logging_run. simpl.
  split; [exact Hnone|].
  intros w. unfold Warnings.showwarnmsg. simpl. by rewrite Hnone.
Qed.

Lemma reset_logging_before_configure_witness :
  warnings_showwarning (fresh_state 0) = Some (other_showwarning 0)
  /\ warnings_showwarning (reset_logging (fresh_state 0)).2 = None.
Proof.
  split; [reflexivity|].
  apply (reset_logging_before_configure (fresh_state 0) eq_refl).
Defined.

(** ** Tracebacks in structured mode *)

Section Tracebacks.
Implicit Types (t : Structlog.ExceptionDictTransformer) (e : PyExc).

Lemma cut_frames_length m (fs : list Structlog.Frame) :
  length (Structlog.cut_frames m fs) <= m + 1.
Proof.
  unfold Structlog.cut_frames.
  destruct (Nat.leb_spec (length fs) m) as [Hle|Hgt]; [lia|].
  rewrite !length_app, length_take, length_drop. cbn [length].
  pose proof (Nat.Div0.mul_div_le m 2). lia.
Qed.

Lemma cut_frames_short m (fs : list Structlog.Frame) :
  length fs <= m -> Structlog.cut_frames m fs = fs.
Proof.
  intros H. unfold Structlog.cut_frames.
  by destruct (Nat.leb_spec (length fs) m); [|lia].
Qed.

Lemma cut_frames_locals m (fs : list Structlog.Frame) :
  Forall (fun f => Structlog.locals f = None) fs ->
  Forall (fun f => Structlog.locals f = None) (Structlog.cut_frames m fs).
Proof.
  intros H. unfold Structlog.cut_frames.
  destruct (length fs <=? m)%nat; [exact H|].
  apply Forall_app. split; [by apply Forall_take|].
  apply Forall_cons. split; [reflexivity|by apply Forall_drop].
Qed.

(** Without [show_locals], no extracted frame carries locals. *)
Lemma extract_locals e is_cause name tb :
  Forall (fun st => Forall (fun f => Structlog.locals f = None) (Structlog.st_frames st))
    (Structlog.extract false is_cause name tb e).
Proof.
  revert e is_cause name tb. fix IH 1.
  intros [ty msg tb0 cause subs context suppress] is_cause name tb. simpl.
  apply Forall_cons. split.
  - simpl. clear. induction tb as [|f tb IHtb]; simpl; [constructor|].
    apply Forall_cons. by split.
  - destruct cause as [c|].
    + destruct (exc_tb c); [|apply IH].
      destruct context as [c'|]; [|constructor].
      destruct (exc_tb c'); [constructor|].
      destruct suppress; [constructor|apply IH].
    + destruct context as [c'|]; [|constructor].
      destruct (exc_tb c'); [constructor|].
      destruct suppress; [constructor|apply IH].
Qed.

Lemma omap_frames_of_record t (sts : list Structlog.Stack) :
  omap frames_of_record (map (Structlog.stack_dict t) sts)
  = map (fun st => map (Structlog.frame_dict t) (Structlog.st_frames st)) sts.
Proof.
  induction sts as [|st sts IH]; [reflexivity|].
  change (omap frames_of_record (map (Structlog.stack_dict t) (st :: sts)))
    with (map (Structlog.frame_dict t) (Structlog.st_frames st)
          :: omap frames_of_record (map (Structlog.stack_dict t) sts)).
  by rewrite IH.
Qed.

Lemma frame_lists_format t (i : ExcInfo) (d : EventDict) :
  frame_lists (dict_set "exception" (VList (Structlog.format_exception t i)) d)
  = map (fun st => map (Structlog.frame_dict t) (Structlog.st_frames st))
      (Structlog.stacks t i).
Proof.
  unfold frame_lists. rewrite dict_get_set_eq.
  apply omap_frames_of_record.
Qed.

(** The failure the exception renderer reads from an event. *)
Lemma figure_out_exc_info_carries cur v (i : ExcInfo) :
  carries cur v i -> Structlog.figure_out_exc_info cur v = Some i.
Proof.
  destruct i as [[name e] tb]. unfold carries.
  intros [(-> & -> & ->)|[->|(-> & -> & -> & ->)]]; try reflexivity.
  by destruct tb.
Qed.

Lemma ExceptionRenderer_carries t cur (ev : EventDict) v (i : ExcInfo) :
  dict_get "exc_info" ev = Some v -> carries cur v i ->
  Structlog.ExceptionRenderer t cur ev
  = dict_set "exception" (VList (Structlog.format_exception t i))
      (dict_del "exc_info" ev).
Proof.
  intros Hget Hc. unfold Structlog.ExceptionRenderer. rewrite Hget.
  change (default VNone (Some v)) with v.
  by rewrite (figure_out_exc_info_carries _ _ _ Hc).
Qed.

(** Where the structured chain holds no group processor, the exception
    renderer is the one processor of the chain that reads [exc_info]. *)
Lemma structured_chain_run rt cur logger m new_id (ev : EventDict) :
  has_BaseExceptionGroup rt = false ->
  run_exception_processors rt cur logger m
    (items (logging_processors_body rt new_id false).1) ev
  = Return (Structlog.ExceptionRenderer (dict_exc_formatter rt) cur ev).
Proof.
  intros Hrt. unfold run_exception_processors, logging_processors_body.
  rewrite Hrt. reflexivity.
Qed.

End Tracebacks.

(** C9, as the code has it.  Where the structured chain holds no group
    processor, a failure that is not a group is rendered by a formatter
    built without locals, with the directories of [click], [contextlib],
    [httpx] and [httpcore] as its suppressed paths and without a frame
    limit of its own, so the library's limit of 50 applies; the limit of
    30 belongs to the pretty formatter.  Each frame list of the
    [exception] field has at most 51 entries (50 frames and the marker for
    the ones cut), no frame carries locals, and a traceback of at most 50
    frames is rendered frame by frame, files inside the suppressed
    directories included. *)
Theorem structured_traceback (rt : Runtime) (sys_exc_info : option PyExc)
    (logger : Logger) (method_name : string) (new_id : nat)
    (event_dict : EventDict) (exc_info : Value)
    (name : string) (e : PyExc) (tb : list RawFrame) :
  has_BaseExceptionGroup rt = false ->
  dict_get "exc_info" event_dict = Some exc_info ->
  carries sys_exc_info exc_info (name, e, tb) ->
  exc_subs e = None ->
  let t := dict_exc_formatter rt in
  exists out,
    run_exception_processors rt sys_exc_info logger method_name
      (items (logging_processors_body rt new_id false).1) event_dict
    = Return out
    /\ Structlog.max_frames t = 50
    /\ Structlog.show_locals t = false
    /\ Structlog.suppress t
       = [module_dir rt "click"; module_dir rt "contextlib"; module_dir rt "httpx";
          module_dir rt "httpcore"; module_dir rt "httpx"]
    /\ Structlog.rich_max_frames rich_exc_formatter = 30
    /\ frame_lists out
       = map (fun st => map (Structlog.frame_dict t) (Structlog.st_frames st))
           (Structlog.stacks t (name, e, tb))
    /\ Forall (fun fs => length fs <= 51) (frame_lists out)
    /\ Forall (fun st => Forall (fun f => Structlog.locals f = None)
                           (Structlog.st_frames st))
         (Structlog.stacks t (name, e, tb))
    /\ (length tb <= 50 ->
          exists rest,
            frame_lists out
            = map (fun f => Structlog.frame_dict t (Structlog.frame_of false f)) tb
              :: rest).
Proof.
  intros Hrt Hget Hc Hsubs t.
  eexists. split.
  { rewrite (structured_chain_run _ _ _ _ _ _ Hrt).
    by rewrite (ExceptionRenderer_carries _ _ _ _ _ Hget Hc). }
  fold t.
  assert (Hout : frame_lists
                   (dict_set "exception"
                      (VList (Structlog.format_exception t (name, e, tb)))
                      (dict_del "exc_info" event_dict))
                 = map (fun st => map (Structlog.frame_dict t) (Structlog.st_frames st))
                     (Structlog.stacks t (name, e, tb))).
  { apply frame_lists_format. }
  repeat split; try reflexivity.
  - exact Hout.
  - rewrite Hout. unfold Structlog.stacks. rewrite !List.Forall_map.
    apply Forall_forall. intros st _. simpl.
    rewrite length_map. apply (cut_frames_length 50).
  - unfold Structlog.stacks. rewrite List.Forall_map.
    eapply Forall_impl; [apply extract_locals|].
    intros st Hst. simpl. by apply cut_frames_locals.
  - intros Hlen. rewrite Hout. unfold Structlog.stacks.
    destruct e as [ty msg tb0 cause subs context suppress]. simpl in *.
    rewrite cut_frames_short by (by rewrite length_map).
    eexists. by rewrite map_map.
Qed.

Lemma structured_traceback_witness :
  exists out,
    run_exception_processors imported_module None () "error"
      (items (logging_processors_body imported_module 0 false).1) deep_event
    = Return out
    /\ Forall (fun fs => length fs <= 51) (frame_lists out).
Proof.
  assert (Hc : carries None (VExc deep_failure)
                 (exc_type deep_failure, deep_failure, exc_tb deep_failure))
    by (left; repeat split).
  destruct (structured_traceback imported_module None () "error" 0 deep_event
              (VExc deep_failure) _ _ _ eq_refl eq_refl Hc eq_refl)
    as (out & Hrun & _ & _ & _ & _ & _ & Hcap & _).
  exists out. split; [exact Hrun|exact Hcap].
Defined.

(** C9, as stated, fails: the failure below has 31 frames, the last of
    them in [httpx]; in structured mode all 31 are in the frame list. *)
Lemma deep_traceback_not_capped :
  let rt := imported_module in
  exists out,
    run_exception_processors rt None () "error"
      (items (logging_processors_body rt 0 false).1) deep_event
    = Return out
    /\ (exists fs, frame_lists out = [fs] /\ length fs = 31
                   /\ exists f, last fs = Some f /\ from_noise rt f = true)
    /\ ~ capped_and_quiet rt out.
Proof.
  intros rt. eexists. split; [vm_compute; reflexivity|].
  match goal with |- (exists fs, frame_lists ?o = _ /\ _) /\ _ => set (out := o) end.
  assert (H : exists fs, frame_lists out = [fs] /\ length fs = 31
                         /\ exists f, last fs = Some f /\ from_noise rt f = true).
  { eexists. split; [vm_compute; reflexivity|]. split; [reflexivity|].
    eexists. split; [reflexivity|]. vm_compute. reflexivity. }
  split; [exact H|].
  destruct H as (fs & Hfs & Hlen & _).
  unfold capped_and_quiet. rewrite Hfs. intros Hall.
  apply Forall_cons in Hall as [[Hcap _] _]. lia.
Qed.

(** * Further properties of the module *)

(** ** Field processors *)

Section Processors.
Implicit Types (d : EventDict) (k : string) (v : Value).

Lemma dict_get_absent k d : dict_get k d = None -> k ∉ d.*1.
Proof.
  induction d as [|[k' v'] d IH]; simpl.
  - intros _ H. by apply elem_of_nil in H.
  - destruct (String.eqb_spec k k') as [->|Hne]; [discriminate|].
    intros Hget Hin. apply elem_of_cons in Hin as [Hin|Hin]; [done|].
    by apply IH.
Qed.

Lemma dict_del_absent k d : dict_get k d = None -> dict_del k d = d.
Proof.
  induction d as [|[k' v'] d IH]; simpl; [done|].
  destruct (String.eqb_spec k k') as [->|Hne]; [discriminate|].
  intros Hget. f_equal. by apply IH.
Qed.

Lemma redacted_keys d :
  ((fun kv : string * Value =>
      (kv.1, if str_startswith "eyJ" kv.2 then VStr "eyJ***" else kv.2)) <$> d).*1
  = d.*1.
Proof. induction d as [|[k v] d IH]; csimpl; [done|]. by rewrite IH. Qed.

(** X1.  Redacting twice is redacting once: the redacted form [eyJ***]
    itself starts with [eyJ] and is replaced by itself. *)
Theorem redact_jwt_idempotent (logger : Logger) (method_name : string)
    (event_dict : EventDict) :
  wf_dict event_dict ->
  redact_jwt logger method_name (redact_jwt logger method_name event_dict)
  = redact_jwt logger method_name event_dict.
Proof.
  intros Hwf. rewrite (redact_jwt_map _ _ event_dict Hwf).
  assert (Hwf' : wf_dict
            ((fun kv : string * Value =>
                (kv.1, if str_startswith "eyJ" kv.2 then VStr "eyJ***" else kv.2))
               <$> event_dict)).
  { unfold wf_dict in *. by rewrite redacted_keys. }
  rewrite (redact_jwt_map _ _ _ Hwf').
  clear Hwf Hwf'. induction event_dict as [|[k v] d IH]; csimpl; [done|].
  rewrite IH. f_equal. f_equal.
  destruct (str_startswith "eyJ" v) eqn:Hv; simpl; [done|by rewrite Hv].
Qed.

Lemma redact_jwt_idempotent_witness :
  let d := [("token", VStr "eyJabc"); ("n", VInt 3)] in
  redact_jwt () "info" (redact_jwt () "info" d) = redact_jwt () "info" d.
Proof.
  intros d. apply redact_jwt_idempotent. unfold wf_dict. compute_done.
Defined.

(** X2.  [logger_name] always removes the [logger_name] field.  A
    [logger] field that is already there is kept, whatever its value;
    otherwise [logger] becomes the removed name, unless that name is empty
    or [None], in which case it is dropped.  No other field changes. *)
Theorem logger_name_correct (logger : Logger) (method_name : string)
    (event_dict : EventDict) :
  wf_dict event_dict ->
  let out := logger_name logger method_name event_dict in
  dict_get "logger_name" out = None
  /\ (forall v, dict_get "logger" event_dict = Some v ->
        dict_get "logger" out = Some v)
  /\ (forall n, dict_get "logger" event_dict = None ->
        dict_get "logger_name" event_dict = Some n ->
        dict_get "logger" out = if truthy n then Some n else None)
  /\ (dict_get "logger_name" event_dict = None -> out = event_dict)
  /\ (forall k, k <> "logger_name" -> k <> "logger" ->
        dict_get k out = dict_get k event_dict).
Proof.
  intros Hwf out. subst out. unfold logger_name, dict_setdefault.
  set (d' := dict_del "logger_name" event_dict).
  assert (Hdel : dict_get "logger_name" d' = None) by (by apply dict_get_del_eq).
  assert (Hlog : dict_get "logger" d' = dict_get "logger" event_dict)
    by (by apply dict_get_del_ne).
  repeat split.
  - destruct (truthy _); [|exact Hdel].
    destruct (dict_get "logger" d'); [exact Hdel|].
    by rewrite dict_get_set_ne.
  - intros v Hv. rewrite Hv in Hlog.
    destruct (truthy _); [|exact Hlog]. by rewrite Hlog.
  - intros n Hnone Hn. rewrite Hn. simpl. rewrite Hnone in Hlog.
    destruct (truthy n); [|exact Hlog].
    rewrite Hlog. apply dict_get_set_eq.
  - intros Hnone. rewrite Hnone. simpl. by apply dict_del_absent.
  - intros k Hk1 Hk2.
    assert (Hk : dict_get k d' = dict_get k event_dict) by (by apply dict_get_del_ne).
    destruct (truthy _); [|exact Hk].
    destruct (dict_get "logger" d'); [exact Hk|].
    by rewrite dict_get_set_ne.
Qed.

Lemma logger_name_correct_witness :
  logger_name () "info" [("logger_name", VStr "airflow.task"); ("event", VStr "hi")]
  = [("event", VStr "hi"); ("logger", VStr "airflow.task")]
  /\ dict_get "logger_name"
       (logger_name () "info"
          [("logger_name", VStr "airflow.task"); ("event", VStr "hi")]) = None.
Proof.
  split; [reflexivity|].
  apply (logger_name_correct () "info"
           [("logger_name", VStr "airflow.task"); ("event", VStr "hi")]).
  unfold wf_dict. compute_done.
Defined.

(** X3.  [drop_positional_args] removes the [positional_args] field and
    nothing else; an event without it is returned as it is. *)
Theorem drop_positional_args_correct (logger : Logger) (method_name : string)
    (event_dict : EventDict) :
  wf_dict event_dict ->
  let out := drop_positional_args logger method_name event_dict in
  dict_get "positional_args" out = None
  /\ (forall k, k <> "positional_args" -> dict_get k out = dict_get k event_dict)
  /\ (dict_get "positional_args" event_dict = None -> out = event_dict).
Proof.
  intros Hwf out. subst out. unfold drop_positional_args. repeat split.
  - by apply dict_get_del_eq.
  - intros k Hk. by apply dict_get_del_ne.
  - apply dict_del_absent.
Qed.

Lemma drop_positional_args_correct_witness :
  dict_get "positional_args"
    (drop_positional_args () "info"
       [("event", VStr "%s done"); ("positional_args", VTuple [VStr "task"])])
  = None.
Proof.
  apply (drop_positional_args_correct () "info"
           [("event", VStr "%s done"); ("positional_args", VTuple [VStr "task"])]).
  unfold wf_dict. compute_done.
Defined.

End Processors.

(** ** Exception groups, in general *)

(** X4.  The processor never changes an event.  An event without
    [exc_info], or with a false one, is returned as it is on every
    runtime.  On an event with a true [exc_info] - an exception, a
    tuple, [True], any other object - the processor raises [NameError]
    where the test with [hasattr] succeeds, because the closure variable
    [BaseExceptionGroup] is unbound there, and returns the event as it is
    where the test fails, because nothing is an instance of the stand-in
    class. *)
Theorem exception_group_tracebacks_cases (rt : Runtime)
    (format_exception : ExcInfo -> list Value) (sys_exc_info : option PyExc)
    (logger : Logger) (method_name : string) (event_dict : EventDict) :
  let out := exception_group_tracebacks rt format_exception sys_exc_info
               logger method_name event_dict in
  let exc_info := default VNone (dict_get "exc_info" event_dict) in
  (truthy exc_info = false -> out = Return event_dict)
  /\ (has_BaseExceptionGroup rt = false -> out = Return event_dict)
  /\ (has_BaseExceptionGroup rt = true -> truthy exc_info = true ->
        out = Raise unbound_BaseExceptionGroup)
  /\ (forall out', out = Return out' -> out' = event_dict).
Proof.
  intros out exc_info. subst out exc_info.
  split; [apply exception_group_tracebacks_falsy|].
  split; [apply exception_group_tracebacks_stand_in|].
  split; [apply exception_group_tracebacks_unbound|].
  intros out'.
  destruct (has_BaseExceptionGroup rt) eqn:Hrt.
  - destruct (truthy (default VNone (dict_get "exc_info" event_dict))) eqn:Ht.
    + by rewrite exception_group_tracebacks_unbound.
    + rewrite exception_group_tracebacks_falsy by exact Ht. congruence.
  - rewrite exception_group_tracebacks_stand_in by exact Hrt. congruence.
Qed.

Lemma exception_group_tracebacks_cases_witness :
  exception_group_tracebacks run_as_script
    (Structlog.format_exception (dict_exc_formatter run_as_script))
    None () "error" single_event
  = Raise unbound_BaseExceptionGroup.
Proof.
  destruct (exception_group_tracebacks_cases run_as_script
              (Structlog.format_exception (dict_exc_formatter run_as_script))
              None () "error" single_event)
    as (_ & _ & Hraise & _).
  apply Hraise; reflexivity.
Defined.

(** X24.  Where the test with [hasattr] succeeds, the structured chain
    holds the group processor, and the chain raises [NameError] on every
    event with a true [exc_info]: the exception renderer behind the group
    processor is not reached, and no [exception] field is made. *)
Theorem structured_chain_raises (rt : Runtime) (sys_exc_info : option PyExc)
    (logger : Logger) (method_name : string) (new_id : nat)
    (event_dict : EventDict) :
  has_BaseExceptionGroup rt = true ->
  truthy (default VNone (dict_get "exc_info" event_dict)) = true ->
  (exists t, Proc.exception_group_tracebacks t
             ∈ items (logging_processors_body rt new_id false).1)
  /\ run_exception_processors rt sys_exc_info logger method_name
       (items (logging_processors_body rt new_id false).1) event_dict
     = Raise unbound_BaseExceptionGroup.
Proof.
  intros Hrt Ht. unfold logging_processors_body. rewrite Hrt. split.
  - exists (dict_exc_formatter rt). cbn [items fst app].
    do 7 apply list_elem_of_further. apply list_elem_of_here.
  - unfold run_exception_processors.
    cbn -[exception_group_tracebacks Structlog.ExceptionRenderer
          Structlog.format_exception dict_exc_formatter].
    by rewrite exception_group_tracebacks_unbound.
Qed.

Lemma structured_chain_raises_witness :
  run_exception_processors run_as_script None () "error"
    (items (logging_processors_body run_as_script 0 false).1) single_event
  = Raise unbound_BaseExceptionGroup.
Proof.
  apply (structured_chain_raises run_as_script None () "error" 0 single_event);
    reflexivity.
Defined.

(** ** What [emit] puts on the stream *)

Section Stream.
Local Open Scope Z_scope.

Lemma high_bit_not_newline k y : Z.testbit k 7 = true -> Z.lor k y <> 10.
Proof.
  intros Hk Heq. apply (f_equal (fun z => Z.testbit z 7)) in Heq.
  rewrite Z.lor_spec, Hk in Heq. discriminate Heq.
Qed.

Lemma hex_digit_range x : 48 <= hex_digit (Z.land x 15) < 128.
Proof.
  pose proof (low_bits x 4 ltac:(lia)) as H.
  change (Z.ones 4) with 15 in H. change (2 ^ 4) with 16 in H.
  unfold hex_digit. destruct (Z.land x 15 <? 10); lia.
Qed.

Lemma utf8_char_newline cp : 10 ∈ utf8_char cp <-> cp = 10.
Proof.
  split.
  - unfold utf8_char, backslashreplace.
    pose proof (hex_digit_range (Z.shiftr cp 12)).
    pose proof (hex_digit_range (Z.shiftr cp 8)).
    pose proof (hex_digit_range (Z.shiftr cp 4)).
    pose proof (hex_digit_range cp).
    destruct (cp <? 128); [|destruct (cp <? 2048);
      [|destruct ((55296 <=? cp) && (cp <=? 57343)); [|destruct (cp <? 65536)]]];
      intros Hin;
      repeat (apply elem_of_cons in Hin as [Hin|Hin];
              [first [done | lia
                     | symmetry in Hin; by apply high_bit_not_newline in Hin]|]);
      by apply elem_of_nil in Hin.
  - intros ->. simpl. left.
Qed.

Lemma bytearray_cons cp msg : bytearray (cp :: msg) = utf8_char cp ++ bytearray msg.
Proof. reflexivity. Qed.

Lemma bytearray_newline msg : 10 ∈ bytearray msg <-> 10 ∈ msg.
Proof.
  induction msg as [|cp msg IH].
  - done.
  - rewrite bytearray_cons, elem_of_app, elem_of_cons, IH, utf8_char_newline.
    intuition congruence.
Qed.

Lemma utf8_char_length cp : (1 <= length (utf8_char cp) <= 6)%nat.
Proof.
  unfold utf8_char, backslashreplace.
  destruct (cp <? 128); [|destruct (cp <? 2048);
    [|destruct ((55296 <=? cp) && (cp <=? 57343)); [|destruct (cp <? 65536)]]];
    simpl; lia.
Qed.

Lemma bytearray_length msg :
  (length msg <= length (bytearray msg) <= 6 * length msg)%nat.
Proof.
  induction msg as [|cp msg IH]; [simpl; lia|].
  rewrite bytearray_cons, length_app. pose proof (utf8_char_length cp).
  simpl length. lia.
Qed.

End Stream.

(** X5.  An exception that is not an [Exception] ([KeyboardInterrupt],
    [SystemExit]) raised while formatting, writing or flushing leaves
    [emit] as it is, and [handleError] is not called. *)
Theorem emit_propagates_base_exceptions (self : StdBinaryStreamHandler)
    (record : LogRecord) (e : PyErr) :
  raised_in_try self record e ->
  isinstance_Exception e = false ->
  (emit self record).1 = Raise e
  /\ handleError record ∉ (emit self record).2.
Proof.
  intros Hraised He.
  assert (Hexc : forall done, emit_except record e done = (Raise e, done)).
  { intros done. unfold emit_except. rewrite He.
    by destruct (isinstance_RecursionError e). }
  unfold emit.
  destruct Hraised as [Hf|(msg & Hf & [Hw|[Hw Hfl]])]; rewrite Hf.
  - rewrite Hexc. split; [done|apply not_elem_of_nil].
  - rewrite Hw, Hexc. split; [done|apply not_elem_of_nil].
  - rewrite Hw, Hfl, Hexc. split; [done|].
    intros Hin. apply elem_of_cons in Hin as [Hin|Hin]; [discriminate|].
    by apply elem_of_nil in Hin.
Qed.

Lemma emit_propagates_base_exceptions_witness :
  let interrupted :=
    {| format := fun _ => Return [111; 107]%Z;
       stream := {| write := fun _ => Raise KeyboardInterrupt;
                    flush := Return () |} |} in
  (emit interrupted {| record_msg := "ok" |}).1 = Raise KeyboardInterrupt.
Proof.
  intros interrupted.
  apply (emit_propagates_base_exceptions interrupted {| record_msg := "ok" |}
           KeyboardInterrupt).
  - right. exists [111; 107]%Z. split; [reflexivity|]. left. reflexivity.
  - reflexivity.
Defined.

(** X6.  A record is one line on the stream exactly when its text has no
    line feed: the encoding produces the byte 10 for the character 10 and
    for no other, so the buffer written for a text without line feed
    ends in the only 10 it contains.  The buffer holds between one and
    six bytes per character, plus the final one. *)
Theorem emit_one_line (self : StdBinaryStreamHandler) (record : LogRecord)
    (msg : ustr) :
  (10%Z ∈ bytearray msg <-> 10%Z ∈ msg)
  /\ (format self record = Return msg ->
      write (stream self) (bytearray msg ++ [10%Z]) = Return () ->
      flush (stream self) = Return () ->
      (10%Z ∉ msg) ->
      exists b, emit self record = (Return (), [written (b ++ [10%Z]); flushed])
                /\ (10%Z ∉ b)
                /\ (length msg <= length b <= 6 * length msg)%nat).
Proof.
  split; [apply bytearray_newline|].
  intros Hf Hw Hfl Hmsg. exists (bytearray msg). split; [|split].
  - unfold emit. by rewrite Hf, Hw, Hfl.
  - by rewrite bytearray_newline.
  - apply bytearray_length.
Qed.

Lemma emit_one_line_witness :
  let h := {| format := fun _ => Return [123; 233; 125]%Z;
              stream := {| write := fun _ => Return (); flush := Return () |} |} in
  exists b, emit h {| record_msg := "ok" |} = (Return (), [written (b ++ [10%Z]); flushed])
            /\ 10%Z ∉ b.
Proof.
  intros h.
  destruct (emit_one_line h {| record_msg := "ok" |} [123; 233; 125]%Z) as [_ Hline].
  destruct (Hline eq_refl eq_refl eq_refl) as (b & Hb & Hnl & _).
  - intros Hin. repeat (apply elem_of_cons in Hin as [Hin|Hin]; [discriminate|]).
    by apply elem_of_nil in Hin.
  - exists b. split; [exact Hb|exact Hnl].
Defined.

(** X7.  ASCII text is written byte for byte.  A lone surrogate is
    written as the six ASCII characters of its escape, which are also the
    bytes of that six-character text: the bytes do not tell the two
    apart. *)
Theorem bytearray_ascii_and_surrogates :
  (forall msg, Forall (fun cp => 0 <= cp < 128)%Z msg -> bytearray msg = msg)
  /\ (forall cp, (55296 <= cp <= 57343)%Z ->
        bytearray [cp] = backslashreplace cp
        /\ bytearray (backslashreplace cp) = bytearray [cp]
        /\ backslashreplace cp <> [cp]).
Proof.
  assert (Hascii : forall msg, Forall (fun cp => 0 <= cp < 128)%Z msg ->
                               bytearray msg = msg).
  { induction 1 as [|cp msg Hcp _ IH]; [reflexivity|].
    rewrite bytearray_cons, IH. unfold utf8_char.
    destruct (Z.ltb_spec cp 128); [reflexivity|lia]. }
  split; [exact Hascii|].
  intros cp Hcp.
  assert (Hone : bytearray [cp] = backslashreplace cp).
  { unfold bytearray. simpl. rewrite app_nil_r. unfold utf8_char.
    destruct (Z.ltb_spec cp 128); [lia|].
    destruct (Z.ltb_spec cp 2048); [lia|].
    destruct (Z.leb_spec 55296 cp); [|lia].
    destruct (Z.leb_spec cp 57343); [|lia]. reflexivity. }
  split; [exact Hone|]. split; [|discriminate].
  rewrite Hone. apply Hascii. unfold backslashreplace.
  pose proof (hex_digit_range (Z.shiftr cp 12)).
  pose proof (hex_digit_range (Z.shiftr cp 8)).
  pose proof (hex_digit_range (Z.shiftr cp 4)).
  pose proof (hex_digit_range cp).
  repeat (apply Forall_cons_2; [lia|]). apply Forall_nil_2.
Qed.

Lemma bytearray_ascii_and_surrogates_witness :
  bytearray [104; 105]%Z = [104; 105]%Z
  /\ bytearray [55296]%Z = [92; 117; 100; 56; 48; 48]%Z.
Proof.
  destruct bytearray_ascii_and_surrogates as [Hascii Hsur]. split.
  - apply Hascii. repeat (apply Forall_cons_2; [lia|]). apply Forall_nil_2.
  - destruct (Hsur 55296%Z ltac:(lia)) as [-> _]. reflexivity.
Defined.

(** ** What a run of [configure_logging] hands to the libraries *)

Section Effect.
Context (rt : Runtime).
Implicit Types (s : State) (a : Args).

Lemma calls_installed s : calls (installed s) = calls s.
Proof. apply installed_fields. Qed.

(** The dictionary a run that reaches its end passes to [dictConfig]. *)
Lemma configure_logging_body_effect a s lvl id s1 :
  enable_pretty_log a && bool_decide (output a <> None) = false ->
  dict_get (lower (log_level a)) Structlog.NAME_TO_LEVEL = Some lvl ->
  Logging.checkLevel (upper (log_level a)) = true ->
  logging_processors rt (enable_pretty_log a) s
  = (Return (logging_processors_body rt id (enable_pretty_log a)), s1) ->
  exists dc,
    let pretty := enable_pretty_log a in
    let t := dict_exc_formatter rt in
    let timestamper :=
      Proc.MaybeTimeStamper (if pretty then "%Y-%m-%d %H:%M:%S.%f" else "iso") in
    let pre_chain :=
      [Proc.stdlib_add_log_level; Proc.add_logger_name; timestamper]
      ++ (if pretty then []
          else (if has_BaseExceptionGroup rt
                then [Proc.exception_group_tracebacks t] else [])
               ++ [Proc.ExceptionRenderer t]) in
    let console :=
      Proc.ConsoleRenderer rich_exc_formatter
        (dict_set "debug" Structlog.CYAN Structlog.default_level_styles) in
    let formatter := if pretty then "colored" else "plain" in
    configure_logging_body rt a s
    = (Return (),
       add_call (logging_dictConfig dc)
         (installed (add_call (structlog_configure
            (configured rt a lvl (logging_processors_body rt id pretty).1)) s1)))
    /\ Logging.formatters dc
       = [("plain",
           {| Logging.processors :=
                [Proc.remove_processors_meta; Proc.drop_positional_args]
                ++ (if pretty then [] else [Proc.json_processor]);
              Logging.foreign_pre_chain := pre_chain;
              Logging.pass_foreign_args := true |});
          ("colored",
           {| Logging.processors :=
                [Proc.remove_processors_meta; Proc.drop_positional_args;
                 if pretty then console else Proc.json_processor];
              Logging.foreign_pre_chain := pre_chain;
              Logging.pass_foreign_args := true |})]
    /\ Logging.handlers dc
       = [("default",
           {| Logging.h_level := upper (log_level a);
              Logging.h_class := "logging.StreamHandler";
              Logging.h_formatter := formatter;
              Logging.h_stream := None |});
          ("to_supervisor",
           {| Logging.h_level := upper (log_level a);
              Logging.h_class := "StdBinaryStreamHandler";
              Logging.h_formatter := formatter;
              Logging.h_stream := Some (output a) |})]
    /\ Logging.loggers dc
       = [("",
           {| Logging.l_handlers :=
                Some [if bool_decide (output a <> None)
                      then "to_supervisor" else "default"];
              Logging.l_level := "INFO";
              Logging.l_propagate := Some true |});
          ("airflow",
           {| Logging.l_handlers := None; Logging.l_level := upper (log_level a);
              Logging.l_propagate := None |});
          ("httpx",
           {| Logging.l_handlers := None; Logging.l_level := "WARN";
              Logging.l_propagate := None |});
          ("sqlalchemy.engine",
           {| Logging.l_handlers := None; Logging.l_level := "WARN";
              Logging.l_propagate := None |})].
Proof.
  intros H1 H2 H3 Hlp.
  unfold configure_logging_body. rewrite H1.
  unfold mbind at 1. unfold M_bind at 1. unfold getitem. rewrite H2.
  unfold mret at 1. unfold M_ret at 1.
  unfold mbind at 1. unfold M_bind at 1. rewrite Hlp.
  unfold configured.
  destruct a as [pretty level out cache form].
  cbn [enable_pretty_log log_level output cache_logger_on_first_use] in *.
  clear H1 H2 Hlp.
  destruct pretty; [|destruct (has_BaseExceptionGroup rt) eqn:Hbeg];
    unfold logging_processors_body; try rewrite Hbeg;
    unfold getproc, getitem, do_structlog_configure, modify, raise;
    unfold mbind, M_bind, mret, M_ret;
    cbn -[Logging.checkLevel upper installed install_showwarning do_dictConfig];
    rewrite install_showwarning_run, do_dictConfig_run;
    unfold Logging.dictConfig;
    cbn -[Logging.checkLevel upper installed];
    rewrite H3; cbn -[installed upper];
    eexists; (do 3 (split; [reflexivity|])); reflexivity.
Qed.

(** The two library calls of a run that reaches its end. *)
Lemma configure_logging_effect a s :
  wf_state rt s -> a ∉ configure_logging_cache s -> accepted a = true ->
  exists id lvl dc,
    let pretty := enable_pretty_log a in
    let built := logging_processors_body rt id pretty in
    let t := dict_exc_formatter rt in
    let timestamper :=
      Proc.MaybeTimeStamper (if pretty then "%Y-%m-%d %H:%M:%S.%f" else "iso") in
    let pre_chain :=
      [Proc.stdlib_add_log_level; Proc.add_logger_name; timestamper]
      ++ (if pretty then []
          else (if has_BaseExceptionGroup rt
                then [Proc.exception_group_tracebacks t] else [])
               ++ [Proc.ExceptionRenderer t]) in
    let console :=
      Proc.ConsoleRenderer rich_exc_formatter
        (dict_set "debug" Structlog.CYAN Structlog.default_level_styles) in
    let formatter := if pretty then "colored" else "plain" in
    dict_get (lower (log_level a)) Structlog.NAME_TO_LEVEL = Some lvl
    /\ (configure_logging rt a s).1 = Return ()
    /\ calls (configure_logging rt a s).2
       = logging_dictConfig dc
         :: structlog_configure (configured rt a lvl built.1) :: calls s
    /\ Logging.formatters dc
       = [("plain",
           {| Logging.processors :=
                [Proc.remove_processors_meta; Proc.drop_positional_args]
                ++ (if pretty then [] else [Proc.json_processor]);
              Logging.foreign_pre_chain := pre_chain;
              Logging.pass_foreign_args := true |});
          ("colored",
           {| Logging.processors :=
                [Proc.remove_processors_meta; Proc.drop_positional_args;
                 if pretty then console else Proc.json_processor];
              Logging.foreign_pre_chain := pre_chain;
              Logging.pass_foreign_args := true |})]
    /\ Logging.handlers dc
       = [("default",
           {| Logging.h_level := upper (log_level a);
              Logging.h_class := "logging.StreamHandler";
              Logging.h_formatter := formatter;
              Logging.h_stream := None |});
          ("to_supervisor",
           {| Logging.h_level := upper (log_level a);
              Logging.h_class := "StdBinaryStreamHandler";
              Logging.h_formatter := formatter;
              Logging.h_stream := Some (output a) |})]
    /\ Logging.loggers dc
       = [("",
           {| Logging.l_handlers :=
                Some [if bool_decide (output a <> None)
                      then "to_supervisor" else "default"];
              Logging.l_level := "INFO";
              Logging.l_propagate := Some true |});
          ("airflow",
           {| Logging.l_handlers := None; Logging.l_level := upper (log_level a);
              Logging.l_propagate := None |});
          ("httpx",
           {| Logging.l_handlers := None; Logging.l_level := "WARN";
              Logging.l_propagate := None |});
          ("sqlalchemy.engine",
           {| Logging.l_handlers := None; Logging.l_level := "WARN";
              Logging.l_propagate := None |})].
Proof.
  intros Hwf Hout Hacc. apply accepted_inv in Hacc as (H1 & [lvl H2] & H3).
  destruct (logging_processors_wf rt (enable_pretty_log a) s Hwf)
    as (id & s1 & Hlp & Hwf1 & _).
  destruct (logging_processors_run rt (enable_pretty_log a) s)
    as (r & s1' & Hlp' & _ & _ & _ & _ & Hcalls).
  rewrite Hlp in Hlp'. injection Hlp' as _ <-.
  destruct (configure_logging_body_effect a s lvl id s1 H1 H2 H3 Hlp)
    as (dc & Hbody & Hf & Hh & Hl).
  cbv zeta in Hbody, Hf, Hh, Hl.
  exists id, lvl, dc. cbv zeta.
  rewrite (configure_logging_miss rt a s Hout), Hbody.
  split; [exact H2|]. split; [reflexivity|].
  split; [|by repeat split].
  cbn -[installed]. rewrite calls_installed. cbn. by rewrite Hcalls.
Qed.

End Effect.

(** ** Which arguments [configure_logging] returns for *)

Section Levels.

Lemma ascii_upper_lower c : ascii_upper (ascii_lower c) = ascii_upper c.
Proof. by destruct c as [[] [] [] [] [] [] [] []]. Qed.

Lemma upper_lower l : upper (lower l) = upper l.
Proof.
  unfold upper, lower. induction l as [|c l IH]; [reflexivity|].
  simpl. by rewrite ascii_upper_lower, IH.
Qed.

(** A name both tables know is, in lower case, one of seven: structlog's
    table also has [exception], which [logging] does not know. *)
Lemma level_known_iff l : level_known l = true <-> lower l ∈ level_names.
Proof.
  unfold level_known. rewrite <- (upper_lower l).
  generalize (lower l). intros x. split.
  - intros H. apply andb_prop in H as [H1 H2].
    apply bool_decide_eq_true_1 in H1 as [lvl H1].
    unfold Structlog.NAME_TO_LEVEL in H1. cbn [dict_get] in H1.
    repeat match type of H1 with
    | context [String.eqb x ?k] =>
        destruct (String.eqb_spec x k) as [->|_];
          [first [discriminate H2 | unfold level_names; set_solver]|]
    end.
    discriminate H1.
  - unfold level_names. intros H.
    repeat (apply elem_of_cons in H as [->|H]; [by vm_compute|]).
    by apply elem_of_nil in H.
Qed.

Lemma accepted_iff a :
  accepted a = true
  <-> (enable_pretty_log a = false \/ output a = None)
      /\ lower (log_level a) ∈ level_names.
Proof.
  unfold accepted. rewrite andb_true_iff, level_known_iff, negb_true_iff.
  rewrite andb_false_iff, bool_decide_eq_false.
  split; intros [H1 H2]; (split; [|exact H2]).
  - destruct H1 as [H1|H1]; [by left|right].
    destruct (output a); [|reflexivity]. by destruct H1.
  - destruct H1 as [H1|H1]; [by left|right]. rewrite H1. by intros H.
Qed.

End Levels.

(** X8.  From any state the process can be in, [configure_logging]
    returns exactly when pretty mode is not combined with an output
    stream and [log_level], in lower case, is one of [critical], [error],
    [warn], [warning], [info], [debug] and [notset]. *)
Theorem configure_logging_returns_iff (rt : Runtime) (a : Args) (s : State) :
  wf_state rt s ->
  (configure_logging rt a s).1 = Return ()
  <-> (enable_pretty_log a = false \/ output a = None)
      /\ lower (log_level a) ∈ level_names.
Proof.
  intros Hwf. rewrite <- accepted_iff. split.
  - generalize (configure_logging_course rt a s Hwf).
    generalize (configure_logging rt a s). intros o Hc.
    destruct Hc as [Hin|Hout H1|Hout H1 H2|id s1 lvl dc o Hout H1 H2 Hlp Hwf1 s2 ->];
      simpl; try discriminate.
    + intros _. by apply Hwf.
    + destruct (Logging.checkLevel (upper (log_level a))) eqn:H3; [|discriminate].
      intros _. by eapply accepted_run.
  - intros Hacc. destruct (decide (a ∈ configure_logging_cache s)) as [Hin|Hout].
    + by rewrite configure_logging_hit.
    + destruct (configure_logging_accepted rt a s Hwf Hout Hacc)
        as (id & s1 & lvl & dc & _ & ->). reflexivity.
Qed.

Lemma configure_logging_returns_iff_witness :
  (configure_logging (cpython true false) json_info (fresh_state 0)).1 = Return ()
  <-> (enable_pretty_log json_info = false \/ output json_info = None)
      /\ lower (log_level json_info) ∈ level_names.
Proof.
  apply (configure_logging_returns_iff (cpython true false) json_info (fresh_state 0)).
  apply fresh_state_wf.
Defined.



(** X10.  Records of the standard [logging] module bypass the token
    redaction: after a call that ran to its end, the pipeline given to
    structlog contains [redact_jwt] and [logger_name], but neither occurs
    in the pre-chain or the processors of any formatter given to
    [dictConfig]. *)
Theorem stdlib_records_not_redacted (rt : Runtime) (a : Args) (s : State) :
  wf_state rt s -> a ∉ configure_logging_cache s -> accepted a = true ->
  let s' := (configure_logging rt a s).2 in
  (exists processors,
     active_pipeline (calls s') = Some processors
     /\ Proc.redact_jwt ∈ items processors
     /\ Proc.logger_name ∈ items processors)
  /\ exists dc,
       latest_dictConfig (calls s') = Some dc
       /\ forall name f, (name, f) ∈ Logging.formatters dc ->
            (Proc.redact_jwt ∉ formatter_chain f)
            /\ (Proc.logger_name ∉ formatter_chain f).
Proof.
  intros Hwf Hout Hacc.
  pose proof (configure_logging_effect rt a s Hwf Hout Hacc) as H.
  cbv zeta in *. destruct H as (id & lvl & dc & _ & _ & Hcalls & Hf & _).
  rewrite Hcalls. cbn [active_pipeline latest_dictConfig configured sc_processors].
  split.
  - eexists. split; [reflexivity|]. unfold logging_processors_body.
    destruct (enable_pretty_log a); [|destruct (has_BaseExceptionGroup rt)];
      cbn [items fst app]; split;
      repeat first [apply list_elem_of_here | apply list_elem_of_further].
  - exists dc. split; [reflexivity|]. intros name f Hin. rewrite Hf in Hin.
    assert (Hno : forall p : Processor, p <> Proc.redact_jwt -> p <> Proc.logger_name ->
              forall l, (Proc.redact_jwt ∉ l) /\ (Proc.logger_name ∉ l) ->
                (Proc.redact_jwt ∉ p :: l) /\ (Proc.logger_name ∉ p :: l)).
    { intros p H1 H2 l [H3 H4]. rewrite !not_elem_of_cons. by repeat split. }
    assert (Hnil : (Proc.redact_jwt ∉ @nil Processor)
                   /\ (Proc.logger_name ∉ @nil Processor)).
    { split; apply not_elem_of_nil. }
    apply elem_of_cons in Hin as [[= -> ->]|Hin];
      [|apply elem_of_cons in Hin as [[= -> ->]|Hin];
        [|by apply elem_of_nil in Hin]];
      unfold formatter_chain;
      cbn [Logging.foreign_pre_chain Logging.processors];
      (destruct (enable_pretty_log a); [|destruct (has_BaseExceptionGroup rt)]);
      cbn [app];
      repeat (apply Hno; [discriminate|discriminate|]); exact Hnil.
Qed.

Lemma stdlib_records_not_redacted_witness :
  let s' := (configure_logging (cpython true false) json_info (fresh_state 0)).2 in
  (exists processors,
     active_pipeline (calls s') = Some processors
     /\ Proc.redact_jwt ∈ items processors
     /\ Proc.logger_name ∈ items processors)
  /\ exists dc,
       latest_dictConfig (calls s') = Some dc
       /\ forall name f, (name, f) ∈ Logging.formatters dc ->
            (Proc.redact_jwt ∉ formatter_chain f)
            /\ (Proc.logger_name ∉ formatter_chain f).
Proof.
  apply (stdlib_records_not_redacted (cpython true false) json_info (fresh_state 0)).
  - apply fresh_state_wf.
  - apply not_elem_of_empty.
  - reflexivity.
Defined.

(** X11.  What [structlog.configure] is called with by a call that runs
    to its end: the filtering level is the number structlog's table gives
    for the lower-cased name; loggers are cached only when the argument
    asks for it and the process does not run under pytest; structured
    mode passes a [BytesLoggerFactory] on [output] (also when [output] is
    [None]), pretty mode passes no logger factory; and the processors are
    the list the builder holds for the mode. *)
Theorem structlog_configuration (rt : Runtime) (a : Args) (s : State) :
  wf_state rt s -> a ∉ configure_logging_cache s -> accepted a = true ->
  let s' := (configure_logging rt a s).2 in
  exists c named,
    latest_structlog (calls s') = Some c
    /\ dict_get (lower (log_level a)) Structlog.NAME_TO_LEVEL
       = Some (sc_wrapper_class c)
    /\ sc_cache_logger_on_first_use c
       = negb (pytest_current_test rt) && cache_logger_on_first_use a
    /\ sc_logger_factory c
       = (if enable_pretty_log a then None else Some (output a))
    /\ logging_processors_cache s' !! positional (enable_pretty_log a)
       = Some (sc_processors c, named).
Proof.
  intros Hwf Hout Hacc. cbv zeta.
  apply accepted_inv in Hacc as (H1 & [lvl H2] & H3).
  generalize (configure_logging_course rt a s Hwf).
  generalize (configure_logging rt a s). intros o Hc.
  destruct Hc as [| | |id s1 lvl' dc o _ _ H2' Hlp _ s2 ->]; try congruence.
  rewrite H3. cbn [snd].
  destruct (logging_processors_run rt (enable_pretty_log a) s)
    as (r & s1' & Hlp' & Hr & _).
  rewrite Hlp in Hlp'. injection Hlp' as <- <-.
  destruct (installed_fields (add_call (structlog_configure
    (configured rt a lvl' (logging_processors_body rt id (enable_pretty_log a)).1))
    s1)) as (E1 & _ & _ & E4). fold s2 in E1, E4.
  exists (configured rt a lvl' (logging_processors_body rt id (enable_pretty_log a)).1),
    (logging_processors_body rt id (enable_pretty_log a)).2.
  cbn [calls logging_processors_cache set_configure_logging_cache add_call
       latest_structlog].
  rewrite E4, E1.
  cbn [calls logging_processors_cache add_call latest_structlog configured
       sc_wrapper_class sc_cache_logger_on_first_use sc_logger_factory
       sc_processors].
  split; [reflexivity|]. split; [exact H2'|].
  split; [by destruct (pytest_current_test rt)|].
  split; [reflexivity|]. rewrite Hr.
  by destruct (logging_processors_body rt id (enable_pretty_log a)).
Qed.

Lemma structlog_configuration_witness :
  let s' := (configure_logging (cpython true true) json_info (fresh_state 0)).2 in
  exists c named,
    latest_structlog (calls s') = Some c
    /\ dict_get (lower (log_level json_info)) Structlog.NAME_TO_LEVEL
       = Some (sc_wrapper_class c)
    /\ sc_cache_logger_on_first_use c
       = negb (pytest_current_test (cpython true true))
         && cache_logger_on_first_use json_info
    /\ sc_logger_factory c
       = (if enable_pretty_log json_info then None else Some (output json_info))
    /\ logging_processors_cache s' !! positional (enable_pretty_log json_info)
       = Some (sc_processors c, named).
Proof.
  apply (structlog_configuration (cpython true true) json_info (fresh_state 0)).
  - apply fresh_state_wf.
  - apply not_elem_of_empty.
  - reflexivity.
Defined.

(** X12.  What [dictConfig] is given by a call that runs to its end: the
    root logger is at level [INFO] whatever [log_level] is and has one
    handler, [to_supervisor] (the binary stream handler on [output]) when
    an output stream is given and [default] otherwise; that handler and
    the [airflow] logger are at the upper-cased [log_level]; and the
    formatter of that handler ends in the renderer of the mode, after
    [remove_processors_meta] and [drop_positional_args]. *)
Theorem root_logger_handler (rt : Runtime) (a : Args) (s : State) :
  wf_state rt s -> a ∉ configure_logging_cache s -> accepted a = true ->
  let s' := (configure_logging rt a s).2 in
  let name := if bool_decide (output a <> None) then "to_supervisor" else "default" in
  exists dc root h f airflow,
    latest_dictConfig (calls s') = Some dc
    /\ dict_get "" (Logging.loggers dc) = Some root
    /\ Logging.l_handlers root = Some [name]
    /\ Logging.l_level root = "INFO"
    /\ dict_get name (Logging.handlers dc) = Some h
    /\ Logging.h_level h = upper (log_level a)
    /\ Logging.h_stream h
       = (if bool_decide (output a <> None) then Some (output a) else None)
    /\ dict_get "airflow" (Logging.loggers dc) = Some airflow
    /\ Logging.l_level airflow = upper (log_level a)
    /\ dict_get (Logging.h_formatter h) (Logging.formatters dc) = Some f
    /\ Logging.processors f
       = [Proc.remove_processors_meta; Proc.drop_positional_args;
          if enable_pretty_log a
          then Proc.ConsoleRenderer rich_exc_formatter
                 (dict_set "debug" Structlog.CYAN Structlog.default_level_styles)
          else Proc.json_processor].
Proof.
  intros Hwf Hout Hacc.
  pose proof (configure_logging_effect rt a s Hwf Hout Hacc) as H.
  cbv zeta in *. destruct H as (id & lvl & dc & _ & _ & Hcalls & Hf & Hh & Hl).
  rewrite Hcalls. cbn [latest_dictConfig].
  exists dc. rewrite Hf, Hh, Hl.
  destruct (bool_decide (output a <> None)); destruct (enable_pretty_log a);
    do 4 eexists; cbn; by repeat split.
Qed.

Lemma root_logger_handler_witness :
  let s' := (configure_logging (cpython true false) json_info (fresh_state 0)).2 in
  let name :=
    if bool_decide (output json_info <> None) then "to_supervisor" else "default" in
  exists dc root h f airflow,
    latest_dictConfig (calls s') = Some dc
    /\ dict_get "" (Logging.loggers dc) = Some root
    /\ Logging.l_handlers root = Some [name]
    /\ Logging.l_level root = "INFO"
    /\ dict_get name (Logging.handlers dc) = Some h
    /\ Logging.h_level h = upper (log_level json_info)
    /\ Logging.h_stream h
       = (if bool_decide (output json_info <> None)
          then Some (output json_info) else None)
    /\ dict_get "airflow" (Logging.loggers dc) = Some airflow
    /\ Logging.l_level airflow = upper (log_level json_info)
    /\ dict_get (Logging.h_formatter h) (Logging.formatters dc) = Some f
    /\ Logging.processors f
       = [Proc.remove_processors_meta; Proc.drop_positional_args;
          if enable_pretty_log json_info
          then Proc.ConsoleRenderer rich_exc_formatter
                 (dict_set "debug" Structlog.CYAN Structlog.default_level_styles)
          else Proc.json_processor].
Proof.
  apply (root_logger_handler (cpython true false) json_info (fresh_state 0)).
  - apply fresh_state_wf.
  - apply not_elem_of_empty.
  - reflexivity.
Defined.

(** ** One pipeline object per mode *)

Section Modes.
Context (rt : Runtime).
Implicit Types (s : State) (m : bool) (a : Args).





(** The pipeline a run that reaches its end installs, and where the
    builder keeps it. *)
Lemma configure_logging_installs a s :
  wf_state rt s -> a ∉ configure_logging_cache s -> accepted a = true ->
  let s' := (configure_logging rt a s).2 in
  exists r s1,
    logging_processors rt (enable_pretty_log a) s = (Return r, s1)
    /\ logging_processors_cache s' = logging_processors_cache s1
    /\ logging_processors_cache s' !! positional (enable_pretty_log a) = Some r
    /\ active_pipeline (calls s') = Some r.1
    /\ configure_count s' = S (configure_count s)
    /\ configure_logging_cache s' = {[a]} ∪ configure_logging_cache s.
Proof.
  intros Hwf Hout Hacc. cbv zeta.
  destruct (configure_logging_accepted rt a s Hwf Hout Hacc)
    as (id & s1 & lvl & dc & Hlp & ->).
  destruct (logging_processors_run rt (enable_pretty_log a) s)
    as (r & s1' & Hlp' & Hr & _ & _ & _ & Hcalls).
  rewrite Hlp in Hlp'. injection Hlp' as <- <-.
  destruct (installed_fields (add_call (structlog_configure
    (configured rt a lvl (logging_processors_body rt id (enable_pretty_log a)).1))
    s1)) as (E1 & _ & _ & E4).
  exists (logging_processors_body rt id (enable_pretty_log a)), s1.
  unfold configure_count.
  cbn [snd calls logging_processors_cache configure_logging_cache
       set_configure_logging_cache add_call active_pipeline count_configure].
  rewrite E1, E4.
  cbn [calls logging_processors_cache add_call active_pipeline count_configure
       configured sc_processors].
  by rewrite Hcalls.
Qed.

End Modes.



(** ** The two handler slots over the life of a process *)

Section Slots.
Context (rt : Runtime).
Implicit Types (s : State) (c : Call).

Lemma step_wf c s : wf_state rt s -> wf_state rt (step rt c s).
Proof.
  intros Hwf. destruct c; simpl.
  - by apply configure_logging_wf.
  - by apply reset_logging_wf.
Qed.

(** What one call does to the two slots. *)
Lemma step_slots c s :
  wf_state rt s ->
  let s' := step rt c s in
  match c, _warnings_showwarning s with
  | call_reset_logging, saved =>
      warnings_showwarning s' = saved /\ _warnings_showwarning s' = saved
  | call_configure_logging _, Some x =>
      warnings_showwarning s' = warnings_showwarning s
      /\ _warnings_showwarning s' = Some x
  | call_configure_logging _, None =>
      (warnings_showwarning s' = warnings_showwarning s
       /\ _warnings_showwarning s' = None)
      \/ (warnings_showwarning s' = Some bridge
          /\ _warnings_showwarning s' = warnings_showwarning s)
  end.
Proof.
  intros Hwf. destruct c as [a|]; cbv zeta.
  - exact (configure_logging_handlers rt a s Hwf).
  - unfold step. by rewrite reset_logging_run.
Qed.

Lemma run_calls_cons c cs s :
  run_calls rt (c :: cs) s = run_calls rt cs (step rt c s).
Proof. reflexivity. Qed.

(** Once a handler is saved, it stays saved, and [warnings.showwarning]
    keeps its value or becomes the saved handler. *)
Lemma run_calls_saved cs s x :
  wf_state rt s -> _warnings_showwarning s = Some x ->
  _warnings_showwarning (run_calls rt cs s) = Some x
  /\ (warnings_showwarning (run_calls rt cs s) = warnings_showwarning s
      \/ warnings_showwarning (run_calls rt cs s) = Some x).
Proof.
  revert s. induction cs as [|c cs IH]; intros s Hwf Hsaved.
  - split; [exact Hsaved|by left].
  - rewrite run_calls_cons.
    pose proof (step_slots c s Hwf) as Hstep. cbv zeta in Hstep.
    rewrite Hsaved in Hstep.
    assert (Hc : warnings_showwarning (step rt c s) = warnings_showwarning s
                 \/ warnings_showwarning (step rt c s) = Some x).
    { destruct c; destruct Hstep as [-> _]; by auto. }
    assert (Hs : _warnings_showwarning (step rt c s) = Some x).
    { by destruct c; destruct Hstep as [_ ->]. }
    destruct (IH (step rt c s) (step_wf c s Hwf) Hs) as [IH1 [IH2|IH2]].
    + split; [exact IH1|]. destruct Hc as [Hc|Hc]; rewrite IH2, Hc; by auto.
    + split; [exact IH1|by right].
Qed.

End Slots.

(** X14.  Once a handler is saved in [_warnings_showwarning], no sequence
    of [configure_logging] and [reset_logging] calls replaces or clears
    it; and from the first [reset_logging] on, [warnings.showwarning] is
    that saved handler for good: no later [configure_logging] puts the
    bridge back. *)
Theorem saved_handler_stays (rt : Runtime) (s : State) (x : Handler)
    (cs : list Call) :
  wf_state rt s -> _warnings_showwarning s = Some x ->
  let s' := run_calls rt cs s in
  _warnings_showwarning s' = Some x
  /\ (call_reset_logging ∈ cs -> warnings_showwarning s' = Some x).
Proof.
  intros Hwf Hsaved. cbv zeta.
  split; [by apply run_calls_saved|].
  revert s Hwf Hsaved. induction cs as [|c cs IH]; intros s Hwf Hsaved Hin.
  { by apply elem_of_nil in Hin. }
  rewrite run_calls_cons.
  pose proof (step_slots rt c s Hwf) as Hstep. cbv zeta in Hstep.
  rewrite Hsaved in Hstep.
  assert (Hs : _warnings_showwarning (step rt c s) = Some x).
  { by destruct c; destruct Hstep as [_ ->]. }
  destruct c as [a|].
  - apply elem_of_cons in Hin as [Hin|Hin]; [discriminate Hin|].
    by apply IH; [apply step_wf| |].
  - destruct Hstep as [Hw _].
    destruct (run_calls_saved rt cs (step rt call_reset_logging s) x
                (step_wf rt _ s Hwf) Hs) as [_ [H|H]]; [|exact H].
    by rewrite H.
Qed.

Lemma saved_handler_stays_witness :
  let rt := cpython true false in
  let s := (configure_logging rt json_info (fresh_state 8)).2 in
  let s' := run_calls rt [call_reset_logging; call_configure_logging pretty_debug] s in
  _warnings_showwarning s' = Some (other_showwarning 8)
  /\ (call_reset_logging ∈ [call_reset_logging; call_configure_logging pretty_debug] ->
      warnings_showwarning s' = Some (other_showwarning 8)).
Proof.
  intros rt s.
  apply (saved_handler_stays rt s (other_showwarning 8)
           [call_reset_logging; call_configure_logging pretty_debug]).
  - apply configure_logging_wf, fresh_state_wf.
  - reflexivity.
Defined.

(** X15.  In a process that starts with the function [h] in
    [warnings.showwarning] and only calls [configure_logging] and
    [reset_logging], the two slots are always in one of six
    combinations.  In particular [warnings.showwarning] is never a
    function other than [h] or the bridge, the saved handler is the
    bridge only while the bridge is installed, and
    [warnings.showwarning] is [None] only while nothing is saved. *)
Theorem reachable_handlers (rt : Runtime) (h : nat) (s : State) :
  reachable rt h s ->
  (warnings_showwarning s, _warnings_showwarning s)
  ∈ [(Some (other_showwarning h), None);
     (Some bridge, Some (other_showwarning h));
     (Some (other_showwarning h), Some (other_showwarning h));
     (None, None);
     (Some bridge, None);
     (Some bridge, Some bridge)].
Proof.
  induction 1 as [|c s Hs IH].
  { apply list_elem_of_here. }
  pose proof (step_slots rt c s (reachable_wf rt h s Hs)) as Hstep.
  cbv zeta in Hstep.
  repeat (apply elem_of_cons in IH as [[= Hw Hv]|IH];
    [rewrite Hv in Hstep; try rewrite Hw in Hstep;
     destruct c; [try destruct Hstep as [Hstep|Hstep]|];
     destruct Hstep as [-> ->];
     repeat first [apply list_elem_of_here | apply list_elem_of_further]|]).
  by apply elem_of_nil in IH.
Qed.

Lemma reachable_handlers_witness :
  (warnings_showwarning reset_then_configured,
   _warnings_showwarning reset_then_configured)
  ∈ [(Some (other_showwarning 0), None);
     (Some bridge, Some (other_showwarning 0));
     (Some (other_showwarning 0), Some (other_showwarning 0));
     (None, None);
     (Some bridge, None);
     (Some bridge, Some bridge)].
Proof.
  apply (reachable_handlers (cpython true false) 0 reset_then_configured).
  apply (reachable_step _ _ (call_configure_logging json_info)).
  apply (reachable_step _ _ call_reset_logging).
  apply reachable_fresh.
Defined.

(** ** Log files *)

Section Folder.
Context {W : Type} `{!Pathlib.Os W}.
Implicit Types (p q : Pathlib.Path) (w : W).

Lemma for_each_app {A} (body : A -> W -> Outcome unit * W) l1 l2 w :
  for_each body (l1 ++ l2) w
  = match for_each body l1 w with
    | (Return _, w') => for_each body l2 w'
    | (Raise e, w') => (Raise e, w')
    end.
Proof.
  revert w. induction l1 as [|x l1 IH]; intros w; simpl; [reflexivity|].
  destruct (body x w) as [[[]|e] w']; [apply IH|reflexivity].
Qed.

(** [_prepare_log_folder] is one loop over the ancestors and the
    directory. *)
Lemma _prepare_log_folder_loop p mode w :
  _prepare_log_folder p mode w
  = for_each (fun q => Pathlib.mkdir q mode true) (reverse (Pathlib.parents p) ++ [p]) w.
Proof.
  unfold _prepare_log_folder. rewrite for_each_app.
  destruct (for_each _ (reverse (Pathlib.parents p)) w) as [[[]|e] w']; [|reflexivity].
  simpl. by destruct (Pathlib.mkdir p mode true w') as [[[]|e] w''].
Qed.

Lemma mkdir_world p mode w :
  (Pathlib.mkdir p mode true w).2 = (Pathlib.os_mkdir p mode w).2.
Proof.
  unfold Pathlib.mkdir.
  destruct (Pathlib.os_mkdir p mode w) as [[[]|e] w']; [reflexivity|].
  destruct (isinstance_FileNotFoundError e); [reflexivity|].
  destruct (isinstance_OSError e); [|reflexivity]. simpl.
  by destruct (Pathlib.is_dir p w') as [[]|].
Qed.

Lemma mkdir_made p mode w w' :
  mkdir_laws W ->
  Pathlib.mkdir p mode true w = (Return (), w') ->
  Pathlib.is_dir p w' = Return true.
Proof.
  intros [L1 _]. unfold Pathlib.mkdir.
  destruct (Pathlib.os_mkdir p mode w) as [[[]|e] w1] eqn:E.
  - intros [= <-]. by eapply L1.
  - destruct (isinstance_FileNotFoundError e); [discriminate|].
    destruct (isinstance_OSError e); [|discriminate]. simpl.
    destruct (Pathlib.is_dir p w1) as [[]|] eqn:E'; try discriminate.
    by intros [= <-].
Qed.

Lemma mkdir_keeps p q mode w :
  mkdir_laws W ->
  Pathlib.is_dir q w = Return true ->
  Pathlib.is_dir q (Pathlib.mkdir p mode true w).2 = Return true.
Proof.
  intros [_ L2] Hq. rewrite mkdir_world.
  destruct (Pathlib.os_mkdir p mode w) as [o w'] eqn:E. by eapply L2.
Qed.

Lemma for_each_mkdir l mode w w' :
  mkdir_laws W ->
  for_each (fun q => Pathlib.mkdir q mode true) l w = (Return (), w') ->
  (forall q, q ∈ l -> Pathlib.is_dir q w' = Return true)
  /\ (forall q, Pathlib.is_dir q w = Return true -> Pathlib.is_dir q w' = Return true).
Proof.
  intros Hlaws. revert w. induction l as [|x l IH]; intros w; simpl.
  - intros [= <-]. split; [|done]. intros q Hq. by apply elem_of_nil in Hq.
  - destruct (Pathlib.mkdir x mode true w) as [[[]|e] w1] eqn:E; [|discriminate].
    intros Hrest. destruct (IH _ Hrest) as [IH1 IH2].
    assert (Hk : forall q, Pathlib.is_dir q w = Return true ->
                   Pathlib.is_dir q w1 = Return true).
    { intros q Hq. pose proof (mkdir_keeps x q mode w Hlaws Hq) as Hk.
      by rewrite E in Hk. }
    split.
    + intros q [->|Hq]%elem_of_cons; [|by apply IH1].
      apply IH2. by eapply mkdir_made.
    + intros q Hq. by apply IH2, Hk.
Qed.

End Folder.

(** X16.  Whatever the operating system, as long as a directory that
    [os.mkdir] has made is a directory and directories stay directories:
    when [_prepare_log_folder] returns, the directory and every one of
    its ancestors is a directory. *)
Theorem prepare_log_folder_makes_directories {W : Type} `{!Pathlib.Os W}
    (directory : Pathlib.Path) (mode : Z) (w w' : W) :
  mkdir_laws W ->
  _prepare_log_folder directory mode w = (Return (), w') ->
  forall q, q = directory \/ q ∈ Pathlib.parents directory ->
    Pathlib.is_dir q w' = Return true.
Proof.
  intros Hlaws Hrun q Hq. rewrite _prepare_log_folder_loop in Hrun.
  destruct (for_each_mkdir _ _ _ _ Hlaws Hrun) as [Hall _].
  apply Hall. rewrite elem_of_app, elem_of_reverse, list_elem_of_singleton.
  destruct Hq; by auto.
Qed.

(** ** On the file system in memory *)

Section Mem.
Import MemFs.
Implicit Types (fs : Fs) (p q : Pathlib.Path).

Lemma grows_refl allowed fs : grows allowed fs fs.
Proof. repeat split; try done. intros loc n H1 H2. congruence. Qed.

Lemma grows_trans allowed fs1 fs2 fs3 :
  grows allowed fs1 fs2 -> grows allowed fs2 fs3 -> grows allowed fs1 fs3.
Proof.
  intros (U1 & C1 & R1 & K1 & N1) (U2 & C2 & R2 & K2 & N2).
  repeat split; try congruence.
  - intros loc n H. by apply K2, K1.
  - intros loc n Hnone Hn.
    destruct (nodes fs2 !! loc) as [n'|] eqn:E.
    + pose proof (K2 _ _ E) as E3. rewrite Hn in E3. injection E3 as ->.
      by apply (N1 loc n').
    + by apply (N2 loc n).
Qed.

Lemma grows_weaken (allowed allowed' : Node -> Prop) fs fs' :
  (forall n, allowed n -> allowed' n) -> grows allowed fs fs' -> grows allowed' fs fs'.
Proof. intros Hw (U & C & R & K & N). repeat split; try done. eauto. Qed.

Lemma grows_insert allowed fs loc n :
  nodes fs !! loc = None -> allowed n ->
  grows allowed fs (set_nodes (<[loc := n]> (nodes fs)) fs).
Proof.
  intros Hnone Hn. repeat split; simpl.
  - intros l x Hx. rewrite lookup_insert_ne; [done|]. congruence.
  - intros l x Hx. rewrite lookup_insert. case_decide; [|congruence].
    by intros [= <-].
Qed.

Lemma walk_mono fs fs' p cur names loc :
  (forall l n, nodes fs !! l = Some n -> nodes fs' !! l = Some n) ->
  walk fs p cur names = Return loc -> walk fs' p cur names = Return loc.
Proof.
  intros Hsub. revert cur. induction names as [|x names IH]; intros cur; simpl.
  - done.
  - destruct (nodes fs !! cur) as [[m|m]|] eqn:E; try discriminate.
    rewrite (Hsub _ _ E). apply IH.
Qed.

Lemma mem_mkdir_grows p mode fs :
  grows (fun n => n = Dir (permission_bits mode (umask fs))) fs (mem_mkdir p mode fs).2.
Proof.
  unfold mem_mkdir. destruct (c_int mode); [|apply grows_refl]. cbn [negb].
  destruct (locate fs p) as [loc|e]; [|apply grows_refl].
  destruct (nodes fs !! loc) eqn:E; [apply grows_refl|].
  destruct (read_only fs); [apply grows_refl|]. by apply grows_insert.
Qed.

Lemma mem_open_grows p mode fs :
  grows (fun n => n = File (permission_bits mode (umask fs))) fs (mem_open p mode fs).2.
Proof.
  unfold mem_open. destruct (c_int mode); [|apply grows_refl]. cbn [negb].
  destruct (locate fs p) as [loc|e]; [|apply grows_refl].
  destruct (nodes fs !! loc) as [[m|m]|] eqn:E; try apply grows_refl.
  - destruct (read_only fs); apply grows_refl.
  - destruct (read_only fs); [apply grows_refl|]. by apply grows_insert.
Qed.

Lemma mem_utime_same p fs : (mem_utime p fs).2 = fs.
Proof.
  unfold mem_utime. destruct (locate fs p) as [loc|e]; [|reflexivity].
  destruct (nodes fs !! loc); [|reflexivity]. by destruct (read_only fs).
Qed.

Lemma mkdir_grows p mode fs :
  grows (fun n => n = Dir (permission_bits mode (umask fs))) fs
    (Pathlib.mkdir p mode true fs).2.
Proof. rewrite mkdir_world. apply mem_mkdir_grows. Qed.

Lemma for_each_mkdir_grows l mode fs :
  grows (fun n => n = Dir (permission_bits mode (umask fs))) fs
    (for_each (fun q => Pathlib.mkdir q mode true) l fs).2.
Proof.
  revert fs. induction l as [|x l IH]; intros fs; simpl; [apply grows_refl|].
  pose proof (mkdir_grows x mode fs) as Hx.
  destruct (Pathlib.mkdir x mode true fs) as [[[]|e] fs1]; [|exact Hx].
  simpl in Hx. eapply grows_trans; [exact Hx|].
  pose proof (IH fs1) as Hl. destruct Hx as (U & _). rewrite U in Hl. exact Hl.
Qed.

Lemma _prepare_log_folder_grows p mode fs :
  grows (fun n => n = Dir (permission_bits mode (umask fs))) fs
    (_prepare_log_folder p mode fs).2.
Proof. rewrite _prepare_log_folder_loop. apply for_each_mkdir_grows. Qed.

Lemma touch_grows p mode fs :
  grows (fun n => n = File (permission_bits mode (umask fs))) fs (Pathlib.touch p mode fs).2.
Proof.
  unfold Pathlib.touch. pose proof (mem_utime_same p fs) as Hu.
  change (Pathlib.os_utime p fs) with (mem_utime p fs).
  destruct (mem_utime p fs) as [[[]|e] fs1]; simpl in Hu; subst fs1;
    [apply grows_refl|].
  destruct (isinstance_OSError e); [|apply grows_refl]. apply mem_open_grows.
Qed.

Lemma mem_is_dir_mono fs fs' q :
  (forall l n, nodes fs !! l = Some n -> nodes fs' !! l = Some n) ->
  cwd fs' = cwd fs ->
  mem_is_dir q fs = Return true -> mem_is_dir q fs' = Return true.
Proof.
  intros Hsub Hcwd. unfold mem_is_dir, locate, start. rewrite Hcwd.
  destruct (walk fs q _ (Pathlib.parts q)) as [loc|e] eqn:E; [|discriminate].
  rewrite (walk_mono _ _ _ _ _ _ Hsub E).
  destruct (nodes fs !! loc) as [[m|m]|] eqn:E'; try discriminate.
  by rewrite (Hsub _ _ E').
Qed.

(** The file system in memory does what [mkdir_laws] asks for. *)
Lemma mem_mkdir_laws : mkdir_laws Fs.
Proof.
  split.
  - intros p mode fs fs'. simpl. unfold mem_mkdir, mem_is_dir.
    destruct (c_int mode); [|discriminate]. cbn [negb].
    destruct (locate fs p) as [loc|e] eqn:E; [|discriminate].
    destruct (nodes fs !! loc) eqn:E'; [discriminate|].
    destruct (read_only fs); [discriminate|]. intros [= <-].
    unfold locate in *. simpl.
    erewrite walk_mono; [| |exact E].
    + simpl. by rewrite lookup_insert_eq.
    + intros l n Hl. simpl. rewrite lookup_insert_ne; [done|]. congruence.
  - intros p q mode fs o fs' Hrun. simpl in *.
    pose proof (mem_mkdir_grows p mode fs) as (_ & C & _ & K & _).
    rewrite Hrun in C, K. by apply mem_is_dir_mono.
Qed.

End Mem.

Section Run.
Import MemFs.
Implicit Types (fs : Fs) (p q : Pathlib.Path).

Lemma inits_seq {A} (l : list A) :
  inits l = (fun k => take k l) <$> seq 0 (S (length l)).
Proof.
  induction l as [|x l IH]; [reflexivity|].
  cbn [inits length]. rewrite IH.
  change (seq 0 (S (S (length l)))) with (0 :: seq 1 (S (length l))).
  rewrite <- fmap_S_seq, fmap_cons, <- !list_fmap_compose. reflexivity.
Qed.

Lemma loop_inits p :
  reverse (Pathlib.parents p) ++ [p]
  = (fun l => {| Pathlib.root := Pathlib.root p; Pathlib.parts := l |})
    <$> inits (Pathlib.parts p).
Proof.
  unfold Pathlib.parents. rewrite fmap_reverse, reverse_involutive.
  rewrite inits_seq, <- list_fmap_compose, seq_S, fmap_app.
  destruct p as [r l]. simpl. by rewrite firstn_all.
Qed.

Lemma walk_plain fs p cur names :
  ".." ∉ names ->
  (forall j, j < length names ->
     exists m, nodes fs !! (cur ++ take j names) = Some (Dir m)) ->
  walk fs p cur names = Return (cur ++ names).
Proof.
  revert cur. induction names as [|x names IH]; intros cur Hdots Hdirs; simpl.
  - by rewrite app_nil_r.
  - destruct (Hdirs 0) as [m Hm]; [simpl; lia|].
    simpl in Hm. rewrite app_nil_r in Hm. rewrite Hm.
    apply not_elem_of_cons in Hdots as [Hx Hdots].
    destruct (String.eqb_spec x "..") as [->|_]; [done|].
    rewrite IH; [by rewrite <- app_assoc|exact Hdots|].
    intros j Hj. destruct (Hdirs (S j)) as [m' Hm']; [simpl; lia|].
    exists m'. by rewrite <- app_assoc.
Qed.

Lemma walk_plain_loc fs p cur names loc :
  ".." ∉ names -> walk fs p cur names = Return loc -> loc = cur ++ names.
Proof.
  revert cur. induction names as [|x names IH]; intros cur Hdots; simpl.
  - intros [= <-]. by rewrite app_nil_r.
  - apply not_elem_of_cons in Hdots as [Hx Hdots].
    destruct (nodes fs !! cur) as [[m|m]|]; try discriminate.
    destruct (String.eqb_spec x "..") as [->|_]; [done|].
    intros H. rewrite (IH _ Hdots H). by rewrite <- app_assoc.
Qed.

(** What [mkdir] with [exist_ok] does, by what is at the place. *)
Lemma mkdir_at fs p mode loc :
  c_int mode = true ->
  locate fs p = Return loc ->
  Pathlib.mkdir p mode true fs
  = match nodes fs !! loc with
    | Some (Dir _) => (Return (), fs)
    | Some (File _) => (Raise (EEXIST p), fs)
    | None =>
        if read_only fs then (Raise (EROFS p), fs)
        else (Return (),
              set_nodes
                (<[loc := Dir (permission_bits mode (umask fs))]> (nodes fs)) fs)
    end.
Proof.
  intros Hint Hloc.
  assert (Hnot : isinstance_FileNotFoundError (EEXIST p) = false) by reflexivity.
  assert (Hos : isinstance_OSError (EEXIST p) = true) by reflexivity.
  unfold Pathlib.mkdir.
  change (Pathlib.os_mkdir p mode fs) with (mem_mkdir p mode fs).
  change (@Pathlib.is_dir Fs _) with mem_is_dir.
  unfold mem_mkdir, mem_is_dir.
  rewrite Hint. cbn [negb].
  rewrite Hloc. destruct (nodes fs !! loc) as [[m|m]|] eqn:E.
  - rewrite Hnot, Hos, Hloc, E. reflexivity.
  - rewrite Hnot, Hos, Hloc, E. reflexivity.
  - destruct (read_only fs); [|reflexivity].
    assert (Hnot' : isinstance_FileNotFoundError (EROFS p) = false) by reflexivity.
    assert (Hos' : isinstance_OSError (EROFS p) = true) by reflexivity.
    rewrite Hnot', Hos', Hloc, E. reflexivity.
Qed.

Lemma mkdir_existing fs q mode :
  c_int mode = true ->
  mem_is_dir q fs = Return true -> Pathlib.mkdir q mode true fs = (Return (), fs).
Proof.
  intros Hint.
  unfold mem_is_dir. destruct (locate fs q) as [loc|e] eqn:E; [|discriminate].
  rewrite (mkdir_at _ _ _ _ Hint E).
  by destruct (nodes fs !! loc) as [[m|m]|].
Qed.

Lemma for_each_existing fs l mode :
  c_int mode = true ->
  (forall q, q ∈ l -> mem_is_dir q fs = Return true) ->
  for_each (fun q => Pathlib.mkdir q mode true) l fs = (Return (), fs).
Proof.
  intros Hint.
  induction l as [|x l IH]; intros Hall; simpl; [reflexivity|].
  rewrite mkdir_existing by (exact Hint || apply Hall, list_elem_of_here).
  apply IH. intros q Hq. by apply Hall, list_elem_of_further.
Qed.

Lemma read_only_loop fs l mode :
  read_only fs = true ->
  (for_each (fun q => Pathlib.mkdir q mode true) l fs).2 = fs.
Proof.
  intros Hro. induction l as [|x l IH]; simpl; [reflexivity|].
  assert (Hx : (Pathlib.mkdir x mode true fs).2 = fs).
  { rewrite mkdir_world. simpl. unfold mem_mkdir.
    destruct (c_int mode); [|reflexivity]. cbn [negb].
    destruct (locate fs x) as [loc|e]; [|reflexivity].
    destruct (nodes fs !! loc); [reflexivity|]. by rewrite Hro. }
  destruct (Pathlib.mkdir x mode true fs) as [[[]|e] fs1]; simpl in Hx; by subst.
Qed.

End Run.

Section Loop.
Import MemFs.
Implicit Types (fs : Fs) (p q : Pathlib.Path).

(** The loop gets through when every place on the way is passable. *)
Lemma loop_returns root mode rest : c_int mode = true -> forall done fs,
  ".." ∉ done ++ rest ->
  (forall j, j < length done ->
     exists m, nodes fs !! (start fs root ++ take j done) = Some (Dir m)) ->
  (forall l, l ∈ inits rest -> passable fs (start fs root ++ done ++ l)) ->
  (for_each (fun q => Pathlib.mkdir q mode true)
     ((fun l => {| Pathlib.root := root; Pathlib.parts := done ++ l |})
      <$> inits rest) fs).1 = Return ().
Proof.
  intros Hint.
  induction rest as [|x rest IH]; intros done fs Hdots Hdirs Hpass.
  - cbn [inits fmap list_fmap for_each].
    assert (Hloc : locate fs {| Pathlib.root := root; Pathlib.parts := done ++ [] |}
                   = Return (start fs root ++ done)).
    { unfold locate. cbn [Pathlib.root Pathlib.parts]. rewrite app_nil_r.
      apply walk_plain; [|exact Hdirs].
      intros H. apply Hdots. by rewrite app_nil_r. }
    rewrite (mkdir_at _ _ mode _ Hint Hloc).
    specialize (Hpass [] (list_elem_of_here _ _)). rewrite app_nil_r in Hpass.
    unfold passable in Hpass.
    destruct (nodes fs !! (start fs root ++ done)) as [[m|m]|]; try done.
    by rewrite Hpass.
  - cbn [inits fmap list_fmap for_each].
    assert (Hloc : locate fs {| Pathlib.root := root; Pathlib.parts := done ++ [] |}
                   = Return (start fs root ++ done)).
    { unfold locate. cbn [Pathlib.root Pathlib.parts]. rewrite app_nil_r.
      apply walk_plain; [|exact Hdirs].
      intros H. apply Hdots. apply elem_of_app. by left. }
    rewrite (mkdir_at _ _ mode _ Hint Hloc).
    pose proof (Hpass [] (list_elem_of_here _ _)) as Hhere.
    rewrite app_nil_r in Hhere. unfold passable in Hhere.
    change (list_fmap _ _ ?f (list_fmap _ _ ?g ?l)) with (f <$> (g <$> l)).
    rewrite <- list_fmap_compose.
    assert (Hext : forall fs1,
      (forall j, j < length (done ++ [x]) ->
         exists m, nodes fs1 !! (start fs1 root ++ take j (done ++ [x])) = Some (Dir m)) ->
      (forall l, l ∈ inits rest -> passable fs1 (start fs1 root ++ (done ++ [x]) ++ l)) ->
      (for_each (fun q => Pathlib.mkdir q mode true)
         ((fun l => {| Pathlib.root := root; Pathlib.parts := done ++ l |}) ∘ cons x
          <$> inits rest) fs1).1 = Return ()).
    { intros fs1 H1 H2.
      rewrite <- (IH (done ++ [x]) fs1); [|by rewrite <- app_assoc|exact H1|exact H2].
      f_equal. f_equal. apply list_fmap_ext. intros _ l _. simpl.
      by rewrite <- app_assoc. }
    destruct (nodes fs !! (start fs root ++ done)) as [[m|m]|] eqn:E; try done.
    + apply Hext.
      * intros j Hj. rewrite length_app in Hj. simpl in Hj.
        destruct (decide (j < length done)) as [Hlt|Hge].
        -- rewrite take_app_le by lia. by apply Hdirs.
        -- assert (j = length done) as -> by lia.
           rewrite take_app_length. by exists m.
      * intros l Hl. rewrite <- app_assoc. apply Hpass.
        apply list_elem_of_further, list_elem_of_fmap. by exists l.
    + rewrite Hhere. apply Hext; cbn [nodes set_nodes cwd read_only start].
      * intros j Hj. rewrite length_app in Hj. simpl in Hj.
        fold (start fs root).
        destruct (decide (j < length done)) as [Hlt|Hge].
        -- rewrite take_app_le by lia.
           destruct (Hdirs j Hlt) as [m Hm]. exists m.
           rewrite lookup_insert_ne; [exact Hm|].
           intros Heq. apply app_inv_head in Heq.
           apply (f_equal length) in Heq. rewrite length_take in Heq. lia.
        -- assert (j = length done) as -> by lia.
           rewrite take_app_length. eexists. by rewrite lookup_insert_eq.
      * intros l Hl. fold (start fs root).
        assert (Hp : passable fs (start fs root ++ done ++ x :: l)).
        { apply Hpass. apply list_elem_of_further, list_elem_of_fmap. by exists l. }
        unfold passable in *. cbn [nodes set_nodes read_only].
        rewrite <- app_assoc. cbn [app].
        rewrite lookup_insert_ne; [exact Hp|].
        intros Heq. apply app_inv_head in Heq.
        apply (f_equal length) in Heq. rewrite length_app in Heq. simpl in Heq. lia.
Qed.

End Loop.

Section Places.
Import MemFs.
Implicit Types (fs : Fs) (p q : Pathlib.Path).

Lemma take_inits {A} (l : list A) k : take k l ∈ inits l.
Proof.
  rewrite inits_seq. apply list_elem_of_fmap.
  exists (k `min` length l). split.
  - destruct (decide (k <= length l)) as [Hle|Hgt].
    + by rewrite Nat.min_l by lia.
    + rewrite Nat.min_r by lia. by rewrite !take_ge by lia.
  - apply elem_of_seq. lia.
Qed.

Lemma inits_take {A} (l l' : list A) : l' ∈ inits l -> exists k, l' = take k l.
Proof.
  rewrite inits_seq. intros (k & -> & _)%list_elem_of_fmap. by exists k.
Qed.

Lemma is_dir_place fs q :
  ".." ∉ Pathlib.parts q -> mem_is_dir q fs = Return true ->
  exists m, nodes fs !! place fs q = Some (Dir m).
Proof.
  intros Hdots. unfold mem_is_dir, locate.
  destruct (walk fs q _ _) as [loc|e] eqn:E; [|discriminate].
  apply walk_plain_loc in E as ->; [|exact Hdots]. fold (place fs q).
  destruct (nodes fs !! place fs q) as [[m|m]|]; try discriminate. by exists m.
Qed.

End Places.

(** A [mkdir] that returns was given a mode that fits a C [int]. *)
Lemma mkdir_c_int (p : Pathlib.Path) (mode : Z) (fs fs' : MemFs.Fs) :
  Pathlib.mkdir p mode true fs = (Return (), fs') -> MemFs.c_int mode = true.
Proof.
  unfold Pathlib.mkdir.
  change (@Pathlib.os_mkdir MemFs.Fs _) with MemFs.mem_mkdir.
  unfold MemFs.mem_mkdir. by destruct (MemFs.c_int mode).
Qed.

Lemma _prepare_log_folder_c_int (directory : Pathlib.Path) (mode : Z)
    (fs fs' : MemFs.Fs) :
  _prepare_log_folder directory mode fs = (Return (), fs') ->
  MemFs.c_int mode = true.
Proof.
  rewrite _prepare_log_folder_loop, loop_inits.
  destruct (Pathlib.parts directory) as [|x l]; cbn [inits fmap list_fmap for_each];
    destruct (Pathlib.mkdir _ mode true fs) as [[[]|e] fs1] eqn:E; try discriminate;
    intros _; by eapply mkdir_c_int.
Qed.

Lemma _prepare_log_folder_passable (directory : Pathlib.Path) (mode : Z)
    (fs : MemFs.Fs) :
  ".." ∉ Pathlib.parts directory ->
  (_prepare_log_folder directory mode fs).1 = Return ()
  <-> MemFs.c_int mode = true
      /\ forall k,
           passable fs
             (place fs {| Pathlib.root := Pathlib.root directory;
                          Pathlib.parts := take k (Pathlib.parts directory) |}).
Proof.
  intros Hdots. split.
  - destruct (_prepare_log_folder directory mode fs) as [o fs'] eqn:Hrun0.
    simpl. intros ->. split; [by eapply _prepare_log_folder_c_int|].
    pose proof Hrun0 as Hrun. rewrite _prepare_log_folder_loop, loop_inits in Hrun.
    destruct (for_each_mkdir _ _ _ _ mem_mkdir_laws Hrun) as [Hall _].
    pose proof (for_each_mkdir_grows
      ((fun l => {| Pathlib.root := Pathlib.root directory; Pathlib.parts := l |})
       <$> inits (Pathlib.parts directory)) mode fs) as (_ & C & _ & K & _).
    rewrite Hrun in C, K. simpl in C, K.
    intros k.
    set (q := {| Pathlib.root := Pathlib.root directory;
                 Pathlib.parts := take k (Pathlib.parts directory) |}).
    assert (Hq : MemFs.mem_is_dir q fs' = Return true).
    { apply Hall, list_elem_of_fmap. eexists. split; [reflexivity|].
      apply take_inits. }
    apply is_dir_place in Hq as [m Hm].
    2:{ simpl. intros Hin. apply Hdots. by apply (subseteq_take k). }
    assert (Hplace : place fs' q = place fs q).
    { unfold place, MemFs.start. by rewrite C. }
    rewrite Hplace in Hm. unfold passable.
    destruct (MemFs.nodes fs !! place fs q) as [[m'|m']|] eqn:E; [done| |].
    + apply K in E. congruence.
    + destruct (MemFs.read_only fs) eqn:Hro; [|reflexivity].
      pose proof (read_only_loop fs
        ((fun l => {| Pathlib.root := Pathlib.root directory; Pathlib.parts := l |})
         <$> inits (Pathlib.parts directory)) mode Hro) as Hsame.
      rewrite Hrun in Hsame. simpl in Hsame. subst fs'. congruence.
  - intros [Hint Hpass]. rewrite _prepare_log_folder_loop, loop_inits.
    apply (loop_returns (Pathlib.root directory) mode (Pathlib.parts directory)
             Hint [] fs).
    + exact Hdots.
    + intros j Hj. simpl in Hj. lia.
    + intros l [k ->]%inits_take. apply Hpass.
Qed.

(** X17.  On the file system in memory, for a directory without [..]
    names: [_prepare_log_folder] returns exactly when the mode fits a C
    [int], no regular file is in the place of the directory or of one of
    its ancestors and, if the file system is read-only, all of them are
    there already.  A mode that does not fit makes the first [os.mkdir]
    raise [OverflowError], also where every directory exists. *)
Theorem prepare_log_folder_returns_iff (directory : Pathlib.Path) (mode : Z)
    (fs : MemFs.Fs) :
  ".." ∉ Pathlib.parts directory ->
  ((_prepare_log_folder directory mode fs).1 = Return ()
   <-> MemFs.c_int mode = true
       /\ forall k,
            passable fs
              (place fs {| Pathlib.root := Pathlib.root directory;
                           Pathlib.parts := take k (Pathlib.parts directory) |}))
  /\ (MemFs.c_int mode = false ->
      _prepare_log_folder directory mode fs = (Raise MemFs.overflow, fs)).
Proof.
  intros Hdots. split; [by apply _prepare_log_folder_passable|].
  intros Hint. rewrite _prepare_log_folder_loop, loop_inits.
  assert (Hfirst : forall q, Pathlib.mkdir q mode true fs = (Raise MemFs.overflow, fs)).
  { intros q. unfold Pathlib.mkdir.
    change (@Pathlib.os_mkdir MemFs.Fs _) with MemFs.mem_mkdir.
    unfold MemFs.mem_mkdir. by rewrite Hint. }
  destruct (Pathlib.parts directory) as [|x l]; cbn [inits fmap list_fmap for_each];
    by rewrite Hfirst.
Qed.

Lemma prepare_log_folder_returns_iff_witness :
  let fs := {| MemFs.nodes := {[ [] := MemFs.Dir 493; ["var"] := MemFs.Dir 493 ]};
               MemFs.umask := 18; MemFs.cwd := []; MemFs.read_only := false |} in
  let directory := Pathlib.parse "/var/log/airflow" in
  ((_prepare_log_folder directory 509 fs).1 = Return ()
   <-> MemFs.c_int 509 = true
       /\ forall k,
            passable fs
              (place fs {| Pathlib.root := Pathlib.root directory;
                           Pathlib.parts := take k (Pathlib.parts directory) |}))
  /\ (MemFs.c_int 509 = false ->
      _prepare_log_folder directory 509 fs = (Raise MemFs.overflow, fs)).
Proof.
  intros fs directory.
  apply (prepare_log_folder_returns_iff directory 509 fs).
  intros Hin. repeat (apply elem_of_cons in Hin as [Hin|Hin]; [discriminate Hin|]).
  by apply elem_of_nil in Hin.
Defined.

Section File.
Import MemFs.
Implicit Types (fs : Fs) (p q : Pathlib.Path).

Lemma touch_again p mode mode' fs fs' :
  Pathlib.touch p mode fs = (Return (), fs') ->
  Pathlib.touch p mode' fs' = (Return (), fs').
Proof.
  unfold Pathlib.touch.
  change (@Pathlib.os_utime Fs _) with mem_utime.
  change (@Pathlib.os_open Fs _) with mem_open.
  assert (Hdone : forall loc n,
            locate fs' p = Return loc -> nodes fs' !! loc = Some n ->
            read_only fs' = false -> mem_utime p fs' = (Return (), fs')).
  { intros loc n H1 H2 H3. unfold mem_utime. by rewrite H1, H2, H3. }
  destruct (mem_utime p fs) as [[[]|e] fs1] eqn:E.
  - intros [= <-]. pose proof (mem_utime_same p fs) as Hs.
    rewrite E in Hs. simpl in Hs. subst fs1. by rewrite E.
  - pose proof (mem_utime_same p fs) as Hs. rewrite E in Hs. simpl in Hs. subst fs1.
    destruct (isinstance_OSError e); [|discriminate].
    unfold mem_open. destruct (c_int mode); [|discriminate]. cbn [negb].
    destruct (locate fs p) as [loc|e'] eqn:Hloc; [|discriminate].
    destruct (nodes fs !! loc) as [[m|m]|] eqn:Hn; [discriminate| |];
      (destruct (read_only fs) eqn:Hro; [discriminate|]); intros [= <-].
    + by rewrite (Hdone loc (File m)).
    + rewrite (Hdone loc (File (permission_bits mode (umask fs)))); [done| | |done].
      * unfold locate in *. eapply walk_mono; [|exact Hloc].
        intros l n Hl. simpl. rewrite lookup_insert_ne; [done|]. congruence.
      * simpl. by rewrite lookup_insert_eq.
Qed.

Lemma _prepare_log_folder_again p mode fs fs1 fs2 :
  _prepare_log_folder p mode fs = (Return (), fs1) ->
  (forall l n, nodes fs1 !! l = Some n -> nodes fs2 !! l = Some n) ->
  cwd fs2 = cwd fs1 ->
  _prepare_log_folder p mode fs2 = (Return (), fs2).
Proof.
  intros Hrun K C. pose proof (_prepare_log_folder_c_int _ _ _ _ Hrun) as Hint.
  rewrite !_prepare_log_folder_loop in *.
  destruct (for_each_mkdir _ _ _ _ mem_mkdir_laws Hrun) as [Hall _].
  apply for_each_existing; [exact Hint|]. intros q Hq.
  apply (mem_is_dir_mono fs1); [exact K|exact C|]. by apply Hall.
Qed.

End File.

(** X18.  On the file system in memory, [init_log_file] leaves whatever
    exists as it is, kind and permission bits included, also when it
    raises: a folder that is already there does not get the configured
    mode.  What it adds are directories whose permission bits are those
    of the configured folder permissions, and regular files whose
    permission bits are those of the configured file permissions, both
    without the bits of the umask. *)
Theorem init_log_file_keeps_what_exists (conf : Conf)
    (local_relative_path : string) (fs : MemFs.Fs) :
  let fs' := (init_log_file conf local_relative_path fs).1.2 in
  (forall loc n, MemFs.nodes fs !! loc = Some n -> MemFs.nodes fs' !! loc = Some n)
  /\ forall loc n,
       MemFs.nodes fs !! loc = None -> MemFs.nodes fs' !! loc = Some n ->
       exists m,
         (Builtins.int
            (conf_get (file_task_handler_new_folder_permissions conf) "0o775")
          = Return m
          /\ n = MemFs.Dir (Z.land (Z.ldiff m (MemFs.umask fs)) 511))
         \/ (Builtins.int
               (conf_get (file_task_handler_new_file_permissions conf) "0o664")
             = Return m
             /\ n = MemFs.File (Z.land (Z.ldiff m (MemFs.umask fs)) 511)).
Proof.
  cbv zeta. unfold init_log_file.
  destruct (Builtins.int (conf_get (file_task_handler_new_file_permissions conf) _))
    as [fm|e] eqn:Hfm; [|simpl; split; [done|congruence]].
  destruct (Builtins.int (conf_get (file_task_handler_new_folder_permissions conf) _))
    as [dm|e] eqn:Hdm; [|simpl; split; [done|congruence]].
  set (full := Pathlib.Path2 (base_log_folder conf) local_relative_path).
  pose proof (_prepare_log_folder_grows (Pathlib.parent full) dm fs) as H1.
  destruct (_prepare_log_folder (Pathlib.parent full) dm fs) as [[[]|e] fs1];
    simpl in H1.
  2:{ simpl. destruct H1 as (_ & _ & _ & K & N). split; [exact K|].
      intros loc n Hnone Hn. exists dm. left. split; [reflexivity|]. by eapply N. }
  pose proof (touch_grows full fm fs1) as H2.
  assert (Hboth : grows (fun n => exists m,
            (Return dm = Return m
             /\ n = MemFs.Dir (Z.land (Z.ldiff m (MemFs.umask fs)) 511))
            \/ (Return fm = Return m
                /\ n = MemFs.File (Z.land (Z.ldiff m (MemFs.umask fs)) 511)))
            fs (Pathlib.touch full fm fs1).2).
  { eapply grows_trans.
    - eapply grows_weaken; [|exact H1]. intros n ->. exists dm. by left.
    - eapply grows_weaken; [|exact H2]. intros n ->. exists fm. right.
      destruct H1 as (-> & _). done. }
  destruct Hboth as (_ & _ & _ & K & N).
  destruct (Pathlib.touch full fm fs1) as [[[]|e] fs2]; simpl in K, N |- *;
    [|destruct (isinstance_OSError e)]; simpl; (split; [exact K|exact N]).
Qed.

(** X19.  On the file system in memory, a call of [init_log_file] that
    has returned without a warning can be repeated: the second call
    returns the same path without a warning and changes nothing. *)
Theorem init_log_file_idempotent (conf : Conf) (local_relative_path : string)
    (fs fs' : MemFs.Fs) (p : Pathlib.Path) :
  init_log_file conf local_relative_path fs = (Return p, fs', []) ->
  init_log_file conf local_relative_path fs' = (Return p, fs', []).
Proof.
  unfold init_log_file.
  destruct (Builtins.int (conf_get (file_task_handler_new_file_permissions conf) _))
    as [fm|e]; [|discriminate].
  destruct (Builtins.int (conf_get (file_task_handler_new_folder_permissions conf) _))
    as [dm|e]; [|discriminate].
  set (full := Pathlib.Path2 (base_log_folder conf) local_relative_path).
  destruct (_prepare_log_folder (Pathlib.parent full) dm fs) as [[[]|e] fs1] eqn:H1;
    [|discriminate].
  destruct (Pathlib.touch full fm fs1) as [[[]|e] fs2] eqn:H2.
  2:{ destruct (isinstance_OSError e); discriminate. }
  intros [= <- <-].
  pose proof (touch_grows full fm fs1) as (_ & C & _ & K & _).
  rewrite H2 in C, K. simpl in C, K.
  rewrite (_prepare_log_folder_again _ _ _ _ fs2 H1 K C).
  by rewrite (touch_again _ _ fm _ _ H2).
Qed.

Section ReadOnly.
Import MemFs.
Implicit Types (fs : Fs) (p q : Pathlib.Path).

Lemma locate_error fs p e : locate fs p = Raise e -> exists msg, e = OSError msg.
Proof.
  unfold locate. generalize (start fs (Pathlib.root p)).
  generalize (Pathlib.parts p). intros names.
  induction names as [|x names IH]; intros cur; simpl; [discriminate|].
  destruct (nodes fs !! cur) as [[m|m]|]; [apply IH| |];
    intros [= <-]; by eexists.
Qed.

Lemma touch_read_only p mode fs :
  c_int mode = true -> read_only fs = true ->
  exists msg, Pathlib.touch p mode fs = (Raise (OSError msg), fs).
Proof.
  intros Hint Hro. unfold Pathlib.touch.
  change (@Pathlib.os_utime Fs _) with mem_utime.
  change (@Pathlib.os_open Fs _) with mem_open.
  unfold mem_utime, mem_open. rewrite Hint. cbn [negb].
  destruct (locate fs p) as [loc|e] eqn:Hloc.
  - rewrite Hro. destruct (nodes fs !! loc) as [[m|m]|] eqn:E; cbn;
      rewrite Hloc, E, ?Hro; by eexists.
  - destruct (locate_error _ _ _ Hloc) as [msg ->]. cbn. rewrite Hloc.
    by eexists.
Qed.

Lemma mkdir_read_only p mode fs :
  c_int mode = true -> read_only fs = true ->
  Pathlib.mkdir p mode true fs = (Return (), fs)
  \/ exists msg, Pathlib.mkdir p mode true fs = (Raise (OSError msg), fs).
Proof.
  intros Hint Hro. destruct (locate fs p) as [loc|e] eqn:Hloc.
  - rewrite (mkdir_at _ _ _ _ Hint Hloc), Hro.
    destruct (nodes fs !! loc) as [[m|m]|]; [by left|right|right]; by eexists.
  - right. destruct (locate_error _ _ _ Hloc) as [msg ->].
    unfold Pathlib.mkdir.
    change (@Pathlib.os_mkdir Fs _) with mem_mkdir.
    change (@Pathlib.is_dir Fs _) with mem_is_dir.
    unfold mem_mkdir, mem_is_dir. rewrite Hint. cbn [negb].
    rewrite Hloc. exists msg. simpl.
    rewrite Hloc. by destruct (String.prefix _ msg).
Qed.

End ReadOnly.

(** X20.  On a read-only file system in memory [init_log_file] changes
    nothing.  With permissions that can be read and fit a C [int], and a
    path without [..] names, it returns - the path, after one warning
    that carries an [OSError] - exactly when the folder of the file and
    all its ancestors are there; otherwise the [OSError] of the folder
    leaves the call. *)
Theorem init_log_file_read_only (conf : Conf) (local_relative_path : string)
    (fs : MemFs.Fs) (new_file_permissions new_folder_permissions : Z) :
  MemFs.read_only fs = true ->
  Builtins.int (conf_get (file_task_handler_new_file_permissions conf) "0o664")
  = Return new_file_permissions ->
  Builtins.int (conf_get (file_task_handler_new_folder_permissions conf) "0o775")
  = Return new_folder_permissions ->
  MemFs.c_int new_file_permissions = true ->
  MemFs.c_int new_folder_permissions = true ->
  let full_path := Pathlib.Path2 (base_log_folder conf) local_relative_path in
  ".." ∉ Pathlib.parts full_path ->
  let r := init_log_file conf local_relative_path fs in
  r.1.2 = fs
  /\ ((forall k, passable fs
         (place fs {| Pathlib.root := Pathlib.root full_path;
                      Pathlib.parts :=
                        take k (removelast (Pathlib.parts full_path)) |})) ->
      exists msg,
        r = (Return full_path, fs,
             [{| wl_event := "OSError while changing ownership of the log file. %s";
                 wl_arg := OSError msg |}]))
  /\ (~ (forall k, passable fs
           (place fs {| Pathlib.root := Pathlib.root full_path;
                        Pathlib.parts :=
                          take k (removelast (Pathlib.parts full_path)) |})) ->
      exists e, r = (Raise e, fs, []) /\ isinstance_OSError e = true).
Proof.
  intros Hro Hfm Hdm Hfint Hdint full Hdots. cbv zeta. unfold init_log_file.
  rewrite Hfm, Hdm. fold full.
  assert (Hdots' : ".." ∉ Pathlib.parts (Pathlib.parent full)).
  { simpl. intros Hin. apply Hdots.
    destruct (Pathlib.parts full) as [|x l] eqn:E using rev_ind; [done|].
    rewrite removelast_last in Hin. apply elem_of_app. by left. }
  pose proof (_prepare_log_folder_passable (Pathlib.parent full)
                new_folder_permissions fs Hdots') as Hiff.
  rewrite Hdint in Hiff.
  assert (Hiff' : (_prepare_log_folder (Pathlib.parent full)
                     new_folder_permissions fs).1 = Return ()
                  <-> forall k, passable fs
                        (place fs {| Pathlib.root := Pathlib.root (Pathlib.parent full);
                                     Pathlib.parts :=
                                       take k (Pathlib.parts (Pathlib.parent full)) |})).
  { rewrite Hiff. split; [by intros [_ H]|by split]. }
  clear Hiff. rename Hiff' into Hiff.
  pose proof (read_only_loop fs
    (reverse (Pathlib.parents (Pathlib.parent full)) ++ [Pathlib.parent full])
    new_folder_permissions Hro) as Hsame.
  rewrite <- _prepare_log_folder_loop in Hsame.
  pose proof (_prepare_log_folder_grows (Pathlib.parent full)
                new_folder_permissions fs) as _.
  destruct (_prepare_log_folder (Pathlib.parent full) new_folder_permissions fs)
    as [[[]|e] fs1] eqn:Hrun; simpl in Hsame, Hiff; subst fs1.
  - destruct (touch_read_only full new_file_permissions fs Hfint Hro) as [msg ->].
    simpl. split; [reflexivity|]. split.
    + intros _. by exists msg.
    + intros Hnot. destruct Hnot. by apply Hiff.
  - simpl. split; [reflexivity|]. split.
    + intros Hall. apply Hiff in Hall. discriminate.
    + intros _. exists e. split; [reflexivity|].
      rewrite _prepare_log_folder_loop in Hrun. revert Hrun.
      generalize (reverse (Pathlib.parents (Pathlib.parent full)) ++ [Pathlib.parent full]).
      intros l. induction l as [|x l IH]; simpl; [discriminate|].
      destruct (mkdir_read_only x new_folder_permissions fs Hdint Hro) as [->|[msg ->]];
        [exact IH|by intros [= <-]].
Qed.

(** ** Where the log file goes *)

Section Paths.
Import Pathlib.
Import Stdlib.Strings.Ascii.
Implicit Types (a b s : string).

Lemma split_nonempty s : split s <> [].
Proof.
  destruct s as [|c s]; simpl; [done|].
  destruct (Ascii.eqb c "/"%char); [done|]. by destruct (split s).
Qed.

Lemma split_app_sep a b : split (a +:+ "/" +:+ b) = split a ++ split b.
Proof.
  induction a as [|c a IH]; [reflexivity|].
  change (String c a +:+ "/" +:+ b) with (String c (a +:+ "/" +:+ b)).
  cbn [split]. rewrite IH.
  destruct (Ascii.eqb c "/"%char); [reflexivity|].
  pose proof (split_nonempty a). by destruct (split a).
Qed.

Lemma prefix_sep s :
  String.prefix "/" s
  = match s with String c _ => Ascii.eqb c "/"%char | EmptyString => false end.
Proof.
  destruct s as [|c s]; [reflexivity|]. cbn [String.prefix].
  destruct (Ascii.ascii_dec "/"%char c) as [<-|Hne].
  - rewrite Ascii.eqb_refl. by destruct s.
  - symmetry. apply Ascii.eqb_neq. congruence.
Qed.

Lemma endswith_sep_inv a :
  endswith_sep a = true -> exists a0, a = a0 +:+ "/".
Proof.
  induction a as [|c a IH]; [discriminate|].
  destruct a as [|c' a'].
  - simpl. intros ->%Ascii.eqb_eq. by exists "".
  - intros H. destruct (IH H) as [a0 ->]. by exists (String c a0).
Qed.

Lemma endswith_sep_app a0 : endswith_sep (a0 +:+ "/") = true.
Proof.
  induction a0 as [|c a0 IH]; [reflexivity|].
  change (String c a0 +:+ "/") with (String c (a0 +:+ "/")).
  cbn [endswith_sep]. rewrite IH.
  by destruct (a0 +:+ "/") eqn:E; [destruct a0|].
Qed.

Lemma append_nil_r s : s +:+ "" = s.
Proof.
  induction s as [|c s IH]; [reflexivity|].
  change (String c s +:+ "") with (String c (s +:+ "")). by rewrite IH.
Qed.

Lemma append_assoc a b s : (a +:+ b) +:+ s = a +:+ b +:+ s.
Proof.
  induction a as [|c a IH]; [reflexivity|].
  change ((String c a +:+ b) +:+ s) with (String c ((a +:+ b) +:+ s)).
  by rewrite IH.
Qed.

(** The names of a relative text. *)
Lemma parse_relative b :
  String.prefix "/" b = false ->
  parse b = {| root := ""; parts := List.filter is_name (split b) |}.
Proof.
  rewrite prefix_sep. unfold parse, splitroot.
  destruct b as [|c b]; [reflexivity|]. by intros ->.
Qed.

(** Text put after a path does not change its root, unless it starts
    with a slash and is put right after [/] or [//]. *)
Lemma splitroot_app a s :
  a <> "" ->
  (endswith_sep a = true -> String.prefix "/" s = false) ->
  splitroot (a +:+ s) = ((splitroot a).1, (splitroot a).2 +:+ s).
Proof.
  intros Ha Hs. rewrite prefix_sep in Hs.
  assert (Hcons : forall c x y, String c x +:+ y = String c (x +:+ y)) by done.
  assert (Hnil : forall y, "" +:+ y = y) by done.
  destruct a as [|c1 [|c2 [|c3 a]]]; [done| | |];
    rewrite ?Hcons, ?Hnil; cbn [splitroot].
  - destruct (Ascii.eqb c1 "/"%char) eqn:E1; cbn [negb fst snd]; [|reflexivity].
    rewrite Hnil. destruct s as [|d s]; [reflexivity|].
    rewrite Hs by (simpl; by rewrite E1). reflexivity.
  - destruct (Ascii.eqb c1 "/"%char) eqn:E1; cbn [negb fst snd]; [|reflexivity].
    destruct (Ascii.eqb c2 "/"%char) eqn:E2; cbn [negb fst snd]; [|reflexivity].
    rewrite Hnil. destruct s as [|d s]; [reflexivity|].
    rewrite Hs; [reflexivity|]. simpl. by rewrite E2.
  - destruct (Ascii.eqb c1 "/"%char) eqn:E1; cbn [negb fst snd]; [|reflexivity].
    destruct (Ascii.eqb c2 "/"%char) eqn:E2; cbn [negb fst snd]; [|reflexivity].
    by destruct (Ascii.eqb c3 "/"%char).
Qed.

(** What is left of a text that ends in a slash, once its root is taken
    off, is empty or ends in a slash. *)
Lemma splitroot_endswith a :
  endswith_sep a = true ->
  (splitroot a).2 = "" \/ endswith_sep (splitroot a).2 = true.
Proof.
  destruct a as [|c1 [|c2 [|c3 a]]]; [discriminate| | |]; cbn [splitroot].
  - destruct (Ascii.eqb c1 "/"%char) eqn:E1; [by left|]. simpl. by rewrite E1.
  - intros H. destruct (Ascii.eqb c1 "/"%char) eqn:E1; [|by right].
    destruct (Ascii.eqb c2 "/"%char) eqn:E2; [by left|]. by right.
  - intros H. destruct (Ascii.eqb c1 "/"%char) eqn:E1; [|by right].
    destruct (Ascii.eqb c2 "/"%char) eqn:E2; [|by right]. cbn [negb].
    destruct (Ascii.eqb c3 "/"%char) eqn:E3; by right.
Qed.

Lemma filter_split_sep a0 :
  List.filter is_name (split (a0 +:+ "/")) = List.filter is_name (split a0).
Proof.
  rewrite <- (append_nil_r (a0 +:+ "/")), append_assoc, split_app_sep.
  rewrite List.filter_app. simpl. by rewrite app_nil_r.
Qed.

Lemma Path2_relative a b :
  String.prefix "/" b = false ->
  root (Path2 a b) = root (parse a)
  /\ parts (Path2 a b) = parts (parse a) ++ parts (parse b).
Proof.
  intros Hb. rewrite (parse_relative b Hb). unfold Path2, join. rewrite Hb.
  destruct (String.eqb_spec a "") as [->|Ha].
  { cbn [orb]. change ("" +:+ b) with b. by rewrite (parse_relative b Hb). }
  cbn [orb]. unfold parse.
  destruct (endswith_sep a) eqn:Hend.
  - rewrite (splitroot_app a b Ha (fun _ => Hb)).
    destruct (splitroot a) as [r rel] eqn:E. cbn [fst snd root parts].
    split; [reflexivity|].
    pose proof (splitroot_endswith a Hend) as Hrel. rewrite E in Hrel. simpl in Hrel.
    destruct Hrel as [->|Hrel]; [reflexivity|].
    apply endswith_sep_inv in Hrel as [rel0 ->].
    by rewrite append_assoc, split_app_sep, List.filter_app, filter_split_sep.
  - rewrite (splitroot_app a ("/" +:+ b) Ha) by (intros H; congruence).
    destruct (splitroot a) as [r rel] eqn:E. cbn [fst snd root parts].
    by rewrite split_app_sep, List.filter_app.
Qed.

End Paths.

(** X21.  Where the log file goes.  Whenever [init_log_file] returns, it
    returns [Path(base_log_folder, local_relative_path)].  A relative
    path that starts with a slash replaces the base folder altogether;
    otherwise the path has the root and the names of the base folder,
    followed by the names of the relative path, [..] included. *)
Theorem init_log_file_path {W : Type} `{!Pathlib.Os W} (conf : Conf)
    (local_relative_path : string) (w w' : W) (p : Pathlib.Path)
    (log : list WarningLog) :
  init_log_file conf local_relative_path w = (Return p, w', log) ->
  p = Pathlib.Path2 (base_log_folder conf) local_relative_path
  /\ (String.prefix "/" local_relative_path = true ->
      p = Pathlib.parse local_relative_path)
  /\ (String.prefix "/" local_relative_path = false ->
      Pathlib.root p = Pathlib.root (Pathlib.parse (base_log_folder conf))
      /\ Pathlib.parts p
         = Pathlib.parts (Pathlib.parse (base_log_folder conf))
           ++ Pathlib.parts (Pathlib.parse local_relative_path)).
Proof.
  intros Hrun.
  assert (Hp : p = Pathlib.Path2 (base_log_folder conf) local_relative_path).
  { revert Hrun. unfold init_log_file.
    destruct (Builtins.int _); [|discriminate].
    destruct (Builtins.int _); [|discriminate].
    destruct (_prepare_log_folder _ _ w) as [[[]|e] w1]; [|discriminate].
    destruct (Pathlib.touch _ _ w1) as [[[]|e] w2]; [congruence|].
    destruct (isinstance_OSError e); [congruence|discriminate]. }
  subst p. split; [reflexivity|]. split.
  - intros Habs. unfold Pathlib.Path2, Pathlib.join. by rewrite Habs.
  - apply Path2_relative.
Qed.

Lemma init_log_file_path_witness :
  let r := init_log_file plain_conf "dag/1.log" log_volume in
  let p := Pathlib.Path2 (base_log_folder plain_conf) "dag/1.log" in
  p = Pathlib.Path2 (base_log_folder plain_conf) "dag/1.log"
  /\ (String.prefix "/" "dag/1.log" = true -> p = Pathlib.parse "dag/1.log")
  /\ (String.prefix "/" "dag/1.log" = false ->
      Pathlib.root p = Pathlib.root (Pathlib.parse (base_log_folder plain_conf))
      /\ Pathlib.parts p
         = Pathlib.parts (Pathlib.parse (base_log_folder plain_conf))
           ++ Pathlib.parts (Pathlib.parse "dag/1.log")).
Proof.
  intros r p.
  apply (init_log_file_path plain_conf "dag/1.log" log_volume r.1.2 p r.2).
  vm_compute. reflexivity.
Defined.

Section Creates.
Import MemFs.

Lemma take_removelast {A} (l : list A) k :
  k < length l -> take k (removelast l) = take k l.
Proof.
  intros Hk. destruct l as [|x l] using rev_ind; [simpl in Hk; lia|].
  rewrite removelast_last. rewrite length_app in Hk. simpl in Hk.
  by rewrite take_app_le by lia.
Qed.

Lemma touch_writable p mode fs :
  c_int mode = true ->
  read_only fs = false -> ".." ∉ Pathlib.parts p ->
  (forall k, k < length (Pathlib.parts p) ->
     exists m, nodes fs !! place fs {| Pathlib.root := Pathlib.root p;
                                       Pathlib.parts := take k (Pathlib.parts p) |}
               = Some (Dir m)) ->
  exists fs', Pathlib.touch p mode fs = (Return (), fs')
              /\ exists n, nodes fs' !! place fs p = Some n.
Proof.
  intros Hint Hro Hdots Hdirs.
  assert (Hloc : locate fs p = Return (place fs p)).
  { unfold locate, place. apply walk_plain; [exact Hdots|]. exact Hdirs. }
  unfold Pathlib.touch.
  change (@Pathlib.os_utime Fs _) with mem_utime.
  change (@Pathlib.os_open Fs _) with mem_open.
  unfold mem_utime, mem_open. rewrite Hint. cbn [negb]. rewrite Hloc, Hro.
  destruct (nodes fs !! place fs p) as [n|] eqn:E.
  - exists fs. split; [reflexivity|]. by exists n.
  - cbn. rewrite Hloc, E, Hro. eexists. split; [reflexivity|].
    simpl. rewrite lookup_insert_eq. by eexists.
Qed.

End Creates.

(** X22.  On a file system in memory that is not read-only, with
    permissions that can be read and fit a C [int], and a path without
    [..] names: when no regular file is in the place of an ancestor of
    the log file, [init_log_file] returns the path without a warning;
    afterwards every ancestor is a directory and there is something in
    the place of the log file. *)
Theorem init_log_file_creates (conf : Conf) (local_relative_path : string)
    (fs : MemFs.Fs) (new_file_permissions new_folder_permissions : Z) :
  MemFs.read_only fs = false ->
  Builtins.int (conf_get (file_task_handler_new_file_permissions conf) "0o664")
  = Return new_file_permissions ->
  Builtins.int (conf_get (file_task_handler_new_folder_permissions conf) "0o775")
  = Return new_folder_permissions ->
  MemFs.c_int new_file_permissions = true ->
  MemFs.c_int new_folder_permissions = true ->
  let full_path := Pathlib.Path2 (base_log_folder conf) local_relative_path in
  let ancestor k :=
    place fs {| Pathlib.root := Pathlib.root full_path;
                Pathlib.parts := take k (removelast (Pathlib.parts full_path)) |} in
  ".." ∉ Pathlib.parts full_path ->
  (forall k, passable fs (ancestor k)) ->
  exists fs',
    init_log_file conf local_relative_path fs = (Return full_path, fs', [])
    /\ (forall k, exists m, MemFs.nodes fs' !! ancestor k = Some (MemFs.Dir m))
    /\ exists n, MemFs.nodes fs' !! place fs full_path = Some n.
Proof.
  intros Hro Hfm Hdm Hfint Hdint full ancestor Hdots Hpass. unfold init_log_file.
  rewrite Hfm, Hdm. fold full.
  assert (Hdots' : ".." ∉ Pathlib.parts (Pathlib.parent full)).
  { simpl. intros Hin. apply Hdots.
    destruct (Pathlib.parts full) as [|x l] eqn:E using rev_ind; [done|].
    rewrite removelast_last in Hin. apply elem_of_app. by left. }
  pose proof (proj2 (_prepare_log_folder_passable (Pathlib.parent full)
                       new_folder_permissions fs Hdots') (conj Hdint Hpass)) as Hret.
  pose proof (_prepare_log_folder_grows (Pathlib.parent full)
                new_folder_permissions fs) as (_ & C1 & R1 & K1 & _).
  destruct (_prepare_log_folder (Pathlib.parent full) new_folder_permissions fs)
    as [o fs1] eqn:Hrun. simpl in Hret, C1, R1, K1. subst o.
  assert (Hplace : forall q, place fs1 q = place fs q).
  { intros q. unfold place, MemFs.start. by rewrite C1. }
  assert (Hdirs : forall k, exists m, MemFs.nodes fs1 !! ancestor k = Some (MemFs.Dir m)).
  { intros k. rewrite _prepare_log_folder_loop, loop_inits in Hrun.
    destruct (for_each_mkdir _ _ _ _ mem_mkdir_laws Hrun) as [Hall _].
    unfold ancestor. rewrite <- Hplace. apply is_dir_place.
    - simpl. intros Hin. apply Hdots'. by apply (subseteq_take k).
    - apply Hall, list_elem_of_fmap. eexists. split; [reflexivity|].
      apply take_inits. }
  destruct (touch_writable full new_file_permissions fs1) as (fs2 & Htouch & n & Hn).
  - exact Hfint.
  - by rewrite R1.
  - exact Hdots.
  - intros k Hk. rewrite Hplace. destruct (Hdirs k) as [m Hm]. exists m.
    unfold ancestor in Hm. by rewrite take_removelast in Hm.
  - rewrite Htouch. exists fs2. split; [reflexivity|].
    pose proof (touch_grows full new_file_permissions fs1) as (_ & _ & _ & K2 & _).
    rewrite Htouch in K2. simpl in K2. split.
    + intros k. destruct (Hdirs k) as [m Hm]. exists m. by apply K2.
    + exists n. by rewrite <- Hplace.
Qed.

Lemma init_log_file_creates_witness :
  let full_path := Pathlib.Path2 (base_log_folder plain_conf) "dag/1.log" in
  let ancestor k :=
    place log_volume
      {| Pathlib.root := Pathlib.root full_path;
         Pathlib.parts := take k (removelast (Pathlib.parts full_path)) |} in
  exists fs',
    init_log_file plain_conf "dag/1.log" log_volume = (Return full_path, fs', [])
    /\ (forall k, exists m, MemFs.nodes fs' !! ancestor k = Some (MemFs.Dir m))
    /\ exists n, MemFs.nodes fs' !! place log_volume full_path = Some n.
Proof.
  apply (init_log_file_creates plain_conf "dag/1.log" log_volume 436 509).
  - reflexivity.
  - reflexivity.
  - reflexivity.
  - reflexivity.
  - reflexivity.
  - intros Hin. repeat (apply elem_of_cons in Hin as [Hin|Hin]; [discriminate Hin|]).
    by apply elem_of_nil in Hin.
  - intros [|[|[|[|k]]]]; vm_compute; exact I || reflexivity.
Defined.

Lemma init_log_file_idempotent_witness :
  let r := init_log_file plain_conf "dag/1.log" log_volume in
  init_log_file plain_conf "dag/1.log" r.1.2
  = (Return (Pathlib.parse "/var/log/dag/1.log"), r.1.2, []).
Proof.
  intros r.
  apply (init_log_file_idempotent plain_conf "dag/1.log" log_volume).
  vm_compute. reflexivity.
Defined.

Lemma init_log_file_read_only_witness :
  exists msg,
    init_log_file plain_conf "1.log" read_only_volume
    = (Return (Pathlib.parse "/var/log/1.log"), read_only_volume,
       [{| wl_event := "OSError while changing ownership of the log file. %s";
           wl_arg := OSError msg |}]).
Proof.
  destruct (init_log_file_read_only plain_conf "1.log" read_only_volume 436 509)
    as (_ & Hret & _).
  - reflexivity.
  - reflexivity.
  - reflexivity.
  - reflexivity.
  - reflexivity.
  - intros Hin. repeat (apply elem_of_cons in Hin as [Hin|Hin]; [discriminate Hin|]).
    by apply elem_of_nil in Hin.
  - apply Hret. intros [|[|[|k]]]; vm_compute; exact I.
Defined.

Lemma prepare_log_folder_makes_directories_witness :
  Pathlib.is_dir (Pathlib.parse "/var/log")
    (_prepare_log_folder (Pathlib.parse "/var/log/airflow") 509 log_volume).2
  = Return true.
Proof.
  apply (prepare_log_folder_makes_directories
           (Pathlib.parse "/var/log/airflow") 509 log_volume).
  - apply mem_mkdir_laws.
  - vm_compute. reflexivity.
  - right. apply list_elem_of_here.
Defined.

(** ** The bridge over itself *)

(** X23.  When [reset_logging] has run while no handler was saved, so
    that [warnings.showwarning] is [None], two [configure_logging] calls
    with different accepted arguments leave the bridge saved as its own
    previous handler: a warning shown with a [file] then makes
    [_showwarning] call itself until the interpreter raises
    [RecursionError]. *)
Theorem bridge_delegates_to_itself (rt : Runtime) (s : State) (a b : Args)
    (w : WarningCall) (f : nat) :
  wf_state rt s ->
  warnings_showwarning s = None -> _warnings_showwarning s = None ->
  accepted a = true -> accepted b = true ->
  a ∉ configure_logging_cache s -> b ∉ configure_logging_cache s -> a <> b ->
  file w = Some f ->
  let s2 := (configure_logging rt b (configure_logging rt a s).2).2 in
  warnings_showwarning s2 = Some bridge
  /\ _warnings_showwarning s2 = Some bridge
  /\ Warnings.showwarnmsg s2 w = (Raise RecursionError, []).
Proof.
  intros Hwf Hws Hsaved Ha Hb Hina Hinb Hab Hf s2.
  destruct (bridge_installed rt a s Hwf Hsaved Hina Ha) as [Hws1 Hsaved1].
  rewrite Hws in Hsaved1.
  assert (Hwf1 : wf_state rt (configure_logging rt a s).2)
    by (by apply configure_logging_wf).
  destruct (configure_logging_installs rt a s Hwf Hina Ha)
    as (r & t & _ & _ & _ & _ & _ & Hcache).
  assert (Hinb1 : b ∉ configure_logging_cache (configure_logging rt a s).2).
  { rewrite Hcache. intros [Hin|Hin]%elem_of_union; [|done].
    apply elem_of_singleton in Hin. congruence. }
  destruct (bridge_installed rt b _ Hwf1 Hsaved1 Hinb1 Hb) as [Hws2 Hsaved2].
  fold s2 in Hws2, Hsaved2. rewrite Hws1 in Hsaved2.
  split; [exact Hws2|]. split; [exact Hsaved2|].
  unfold Warnings.showwarnmsg, _showwarning. by rewrite Hws2, Hf, Hsaved2.
Qed.

Lemma bridge_delegates_to_itself_witness :
  let rt := cpython true false in
  let s := (reset_logging (fresh_state 0)).2 in
  let s2 := (configure_logging rt pretty_debug (configure_logging rt json_info s).2).2 in
  warnings_showwarning s2 = Some bridge
  /\ _warnings_showwarning s2 = Some bridge
  /\ Warnings.showwarnmsg s2 deprecation_to_file = (Raise RecursionError, []).
Proof.
  intros rt s.
  apply (bridge_delegates_to_itself rt s json_info pretty_debug deprecation_to_file 5).
  - apply reset_logging_wf, fresh_state_wf.
  - reflexivity.
  - reflexivity.
  - reflexivity.
  - reflexivity.
  - apply not_elem_of_empty.
  - apply not_elem_of_empty.
  - discriminate.
  - reflexivity.
Defined.
